(** * The MQTT client core of paho.mqtt.golang (client.go)

    A shallow embedding of the connection lifecycle, the publish /
    subscribe / unsubscribe calls and the reconnect worker of [client.go],
    with the properties of its specification stated and settled on it.

    Conventions.  Go's [uint32], [uint16] and [byte] values are [N];
    [time.Duration] is a 64-bit signed count of nanoseconds, a [Z] whose
    wrap-around is written out.  The client is a record threaded through a
    state monad together with the environment it talks to: the script of
    network responses, the outcomes of the [select] statements, and a log of
    the effects the code performs, in program order.  Each call of the public
    interface is run without interleaving. *)

From stdpp Require Import gmap strings list fin_maps.
From Stdlib Require Import ZArith.
From Stdlib.Strings Require Import Byte.

(** ** Connection status: the [iota] constants at the top of client.go *)

Definition disconnected : N := 0.
Definition connecting : N := 1.
Definition reconnecting : N := 2.
Definition connected : N := 3.

(** ** Durations *)

Module time.
Definition Duration : Type := Z.
Definition Millisecond : Duration := 1000000%Z.
Definition Second : Duration := 1000000000%Z.
(** two's complement wrap-around of a 64-bit signed integer *)
Definition wrap (z : Z) : Duration := ((z + 2 ^ 63) mod 2 ^ 64 - 2 ^ 63)%Z.
Definition mul (d : Duration) (k : Z) : Duration := wrap (d * k)%Z.
End time.

(** ** Packets

    Modelled from the spec: the [packets] package is not part of client.go.
    Section 6 of the specification lists the fields the core observes; the
    fixed-header QoS of SUBSCRIBE, UNSUBSCRIBE and PUBREL is 1 (MQTT 3.1.1),
    PUBLISH carries the QoS chosen by the caller. *)

Module packets.
Definition Accepted : N := 0%N.
(** Modelled from the spec: the sentinel that tells dial and transport
    failures from protocol rejections (codes 1 to 5). *)
Definition ErrNetworkError : N := 254%N.

Record PublishPacket := {
    Qos : N;
    Retain : bool;
    TopicName : string;
    MessageID : N;
    Payload : list byte }.

Record SubscribePacket := {
    sTopics : list string;
    sQoss : list N;
    sMessageID : N }.

Record UnsubscribePacket := {
    uTopics : list string;
    uMessageID : N }.

Definition withPayload (bytes : list byte) (p : PublishPacket) : PublishPacket :=
  {| Qos := Qos p; Retain := Retain p; TopicName := TopicName p;
     MessageID := MessageID p; Payload := bytes |}.

Definition withMessageID (mID : N) (p : PublishPacket) : PublishPacket :=
  {| Qos := Qos p; Retain := Retain p; TopicName := TopicName p;
     MessageID := mID; Payload := Payload p |}.

Inductive ControlPacket :=
  | PublishP (p : PublishPacket)
  | SubscribeP (p : SubscribePacket)
  | UnsubscribeP (p : UnsubscribePacket)
  | PubrelP (mid : N)
  | DisconnectP
  | OtherP (mid : N).

Record Details := { dQos : N; dMessageID : N }.

Definition details (p : ControlPacket) : Details :=
    match p with
    | PublishP p => {| dQos := Qos p; dMessageID := MessageID p |}
    | SubscribeP p => {| dQos := 1; dMessageID := sMessageID p |}
    | UnsubscribeP p => {| dQos := 1; dMessageID := uMessageID p |}
    | PubrelP mid => {| dQos := 1; dMessageID := mid |}
    | DisconnectP => {| dQos := 0; dMessageID := 0 |}
    | OtherP mid => {| dQos := 0; dMessageID := mid |}
    end.
End packets.
Import packets.

(** ** Tokens

    Modelled from the spec: token.go is not part of client.go.  A token is a
    one-shot completion with a done signal, an optional error and the result
    data of the operation (section 3). *)

Definition error : Type := string.

Record Token := {
  complete : bool;
  err : option error;
  returnCode : N;
  sessionPresent : bool;
  messageID : N;
  subs : list string }.

Definition newToken : Token :=
  {| complete := false; err := None; returnCode := 0; sessionPresent := false;
     messageID := 0; subs := [] |}.

Definition flowComplete (t : Token) : Token :=
  {| complete := true; err := err t; returnCode := returnCode t;
     sessionPresent := sessionPresent t; messageID := messageID t;
     subs := subs t |}.

Definition setError (e : error) (t : Token) : Token :=
  {| complete := true; err := Some e; returnCode := returnCode t;
     sessionPresent := sessionPresent t; messageID := messageID t;
     subs := subs t |}.

Definition set_returnCode (rc : N) (t : Token) : Token :=
  {| complete := complete t; err := err t; returnCode := rc;
     sessionPresent := sessionPresent t; messageID := messageID t;
     subs := subs t |}.

Definition set_sessionPresent (sp : bool) (t : Token) : Token :=
  {| complete := complete t; err := err t; returnCode := returnCode t;
     sessionPresent := sp; messageID := messageID t; subs := subs t |}.

Definition set_messageID (mid : N) (t : Token) : Token :=
  {| complete := complete t; err := err t; returnCode := returnCode t;
     sessionPresent := sessionPresent t; messageID := mid; subs := subs t |}.

Definition set_subs (l : list string) (t : Token) : Token :=
  {| complete := complete t; err := err t; returnCode := returnCode t;
     sessionPresent := sessionPresent t; messageID := messageID t;
     subs := l |}.

(** ** The message-id registry

    Modelled from the spec: messageids.go is not part of client.go.  Section
    4.1: [getID] (claim) scans the 16-bit id space from a rotating cursor for
    a free slot, records the token there and returns the id, or returns 0
    when every id is in use; [claimID] (claim_specific) records a given id
    and fails when that id is already live; [cleanUp] empties the table.  The
    table keeps, for each live id, which kind of completion handle holds
    it. *)

Inductive tokenCompletor :=
| PlaceHolderToken (id : N)
| PublishToken
| SubscribeToken
| UnsubscribeToken.

Record messageIds := {
  index : gmap N tokenCompletor;
  lastIssuedID : N }.

Definition midMin : N := 1.
Definition midMax : N := 65535.

Definition nextID (i : N) : N := if decide (i = midMax) then midMin else (i + 1)%N.

Fixpoint scanFree (n : nat) (i : N) (idx : gmap N tokenCompletor) : option N :=
  match n with
  | O => None
  | S n' => match idx !! i with
            | None => Some i
            | Some _ => scanFree n' (nextID i) idx
            end
  end.

Definition getID (t : tokenCompletor) (mids : messageIds) : N * messageIds :=
  match scanFree (N.to_nat midMax) (nextID (lastIssuedID mids)) (index mids) with
  | Some i => (i, {| index := <[i := t]> (index mids); lastIssuedID := i |})
  | None => (0%N, mids)
  end.

Definition claimID (t : tokenCompletor) (id : N) (mids : messageIds)
  : bool * messageIds :=
  match index mids !! id with
  | None => (true, {| index := <[id := t]> (index mids);
                      lastIssuedID := lastIssuedID mids |})
  | Some _ => (false, mids)
  end.

Definition cleanUp (mids : messageIds) : messageIds :=
  {| index := ∅; lastIssuedID := lastIssuedID mids |}.

(** ** The persistence store

    Modelled from the spec: store.go is not part of client.go, and the spec
    gives the interface only (sections 3 and 4.2): a bag of key -> packet
    with list-all-keys, get, put, delete, open, close and reset, whose keys
    carry a direction tag and a packet identifier. *)

Inductive direction := Outbound | Inbound.

#[global] Instance direction_eq_dec : EqDecision direction.
Proof. solve_decision. Defined.

#[global] Instance direction_countable : Countable direction.
Proof.
  refine (inj_countable' (fun d => match d with Outbound => true | Inbound => false end)
                         (fun b : bool => if b then Outbound else Inbound) _).
  intros []; reflexivity.
Defined.

Definition StoreKey : Type := direction * N.

Definition outboundKeyFromMID (id : N) : StoreKey := (Outbound, id).
Definition inboundKeyFromMID (id : N) : StoreKey := (Inbound, id).
Definition isKeyOutbound (k : StoreKey) : bool :=
  match k.1 with Outbound => true | Inbound => false end.

Record Store := {
  opened : bool;
  content : gmap (direction * N) ControlPacket }.

Module store.
Definition Open (s : Store) : Store := {| opened := true; content := content s |}.
Definition Close (s : Store) : Store := {| opened := false; content := content s |}.
Definition Put (k : StoreKey) (p : ControlPacket) (s : Store) : Store :=
    {| opened := opened s; content := <[k := p]> (content s) |}.
Definition Get (k : StoreKey) (s : Store) : option ControlPacket := content s !! k.
Definition All (s : Store) : list StoreKey := (map_to_list (content s)).*1.
Definition Del (k : StoreKey) (s : Store) : Store :=
    {| opened := opened s; content := delete k (content s) |}.
Definition Reset (s : Store) : Store := {| opened := opened s; content := ∅ |}.
End store.

(** Modelled from the spec: [persistOutbound] of store.go.  Section 4.2 and
    4.7: an outbound packet of QoS 1 or 2 is written under the outbound key
    of its identifier before it is handed to the pump; a QoS 0 packet of the
    kinds the client calls build is not stored. *)
Definition persistOutbound (s : Store) (m : ControlPacket) : Store :=
  if decide (dQos (details m) = 0%N) then s
  else store.Put (outboundKeyFromMID (dMessageID (details m))) m s.

(** ** The route table

    Modelled from the spec: router.go is not part of client.go.  Section 3: a
    mapping from topic filter to user handler, insertion order irrelevant.  A
    handler is identified by a number; Go's nil callback is [None]. *)

Definition MessageHandler : Type := nat.

Definition addRoute (topic : string) (callback : MessageHandler)
  (r : gmap string MessageHandler) : gmap string MessageHandler :=
  <[topic := callback]> r.

Definition deleteRoute (topic : string)
  (r : gmap string MessageHandler) : gmap string MessageHandler :=
  delete topic r.

(** ** Go's [strings] functions used by [Subscribe] *)

Definition slash : Ascii.ascii := Ascii.ascii_of_nat 47.

Module strings.
Definition HasPrefix (s pre : string) : bool := String.prefix pre s.

Definition TrimPrefix (s pre : string) : string :=
  if HasPrefix s pre
  then String.substring (String.length pre) (String.length s - String.length pre) s
  else s.

(** [Split s sep] for a one-character separator: n separators give n+1 parts *)
Fixpoint Split (s : string) (sep : Ascii.ascii) : list string :=
  match s with
  | EmptyString => [EmptyString]
  | String ch rest =>
      if decide (ch = sep) then EmptyString :: Split rest sep
      else match Split rest sep with
           | [] => [String ch EmptyString]
           | part :: parts => String ch part :: parts
           end
  end.

Definition Join (parts : list string) (sep : string) : string :=
  String.concat sep parts.
End strings.

(** ** Options and the client record *)

Record ClientOptions := {
  Servers : list string;
  ProtocolVersion : N;
  protocolVersionExplicit : bool;
  CleanSession : bool;
  ConnectRetry : bool;
  ConnectRetryInterval : time.Duration;
  AutoReconnect : bool;
  MaxReconnectInterval : time.Duration;
  WriteTimeout : time.Duration;
  ResumeSubs : bool;
  OnReconnecting : bool }.

(** A network connection carries what its peer answers to CONNECT. *)
Record Conn := {
  connackCode : N;
  connackSessionPresent : bool }.

Record client := {
  status : N;
  mids : messageIds;
  msgRouter : gmap string MessageHandler;
  persist : Store;
  options : ClientOptions;
  conn : option Conn;
  InitialRC : N;
  useCallback : bool }.

Definition set_status (s : N) (c : client) : client :=
  {| status := s; mids := mids c; msgRouter := msgRouter c; persist := persist c;
     options := options c; conn := conn c; InitialRC := InitialRC c;
     useCallback := useCallback c |}.

Definition set_mids (m : messageIds) (c : client) : client :=
  {| status := status c; mids := m; msgRouter := msgRouter c; persist := persist c;
     options := options c; conn := conn c; InitialRC := InitialRC c;
     useCallback := useCallback c |}.

Definition set_msgRouter (r : gmap string MessageHandler) (c : client) : client :=
  {| status := status c; mids := mids c; msgRouter := r; persist := persist c;
     options := options c; conn := conn c; InitialRC := InitialRC c;
     useCallback := useCallback c |}.

Definition set_persist (s : Store) (c : client) : client :=
  {| status := status c; mids := mids c; msgRouter := msgRouter c; persist := s;
     options := options c; conn := conn c; InitialRC := InitialRC c;
     useCallback := useCallback c |}.

Definition set_options (o : ClientOptions) (c : client) : client :=
  {| status := status c; mids := mids c; msgRouter := msgRouter c; persist := persist c;
     options := o; conn := conn c; InitialRC := InitialRC c;
     useCallback := useCallback c |}.

Definition set_conn (k : option Conn) (c : client) : client :=
  {| status := status c; mids := mids c; msgRouter := msgRouter c; persist := persist c;
     options := options c; conn := k; InitialRC := InitialRC c;
     useCallback := useCallback c |}.

Definition set_InitialRC (rc : N) (c : client) : client :=
  {| status := status c; mids := mids c; msgRouter := msgRouter c; persist := persist c;
     options := options c; conn := conn c; InitialRC := rc;
     useCallback := useCallback c |}.

Definition set_useCallback (b : bool) (c : client) : client :=
  {| status := status c; mids := mids c; msgRouter := msgRouter c; persist := persist c;
     options := options c; conn := conn c; InitialRC := InitialRC c;
     useCallback := b |}.

(** The version lock of a successful [attemptConnection]. *)
Definition lockProtocolVersion (pv : N) (o : ClientOptions) : ClientOptions :=
  {| Servers := Servers o; ProtocolVersion := pv; protocolVersionExplicit := true;
     CleanSession := CleanSession o; ConnectRetry := ConnectRetry o;
     ConnectRetryInterval := ConnectRetryInterval o;
     AutoReconnect := AutoReconnect o;
     MaxReconnectInterval := MaxReconnectInterval o;
     WriteTimeout := WriteTimeout o; ResumeSubs := ResumeSubs o;
     OnReconnecting := OnReconnecting o |}.

(** [NewClient]: the protocol version is explicit for 3, 4, 0x83 and 0x84,
    and defaults to 4 otherwise; the store starts closed and empty (the
    default [NewMemoryStore]) unless one is supplied. *)
Definition NewClient (o : ClientOptions) (st : option Store) : client :=
  let explicit :=
    bool_decide (ProtocolVersion o = 3%N ∨ ProtocolVersion o = 4%N
                 ∨ ProtocolVersion o = 131%N ∨ ProtocolVersion o = 132%N) in
  {| status := disconnected;
     mids := {| index := ∅; lastIssuedID := 0 |};
     msgRouter := ∅;
     persist := default {| opened := false; content := ∅ |} st;
     options :=
       {| Servers := Servers o;
          ProtocolVersion := if explicit then ProtocolVersion o else 4%N;
          protocolVersionExplicit := explicit;
          CleanSession := CleanSession o; ConnectRetry := ConnectRetry o;
          ConnectRetryInterval := ConnectRetryInterval o;
          AutoReconnect := AutoReconnect o;
          MaxReconnectInterval := MaxReconnectInterval o;
          WriteTimeout := WriteTimeout o; ResumeSubs := ResumeSubs o;
          OnReconnecting := OnReconnecting o |};
     conn := None;
     InitialRC := 0;
     useCallback := false |}.

(** ** The environment and the effect log *)

(** What the network answers to one dial: the dial fails, or it succeeds
    and the peer answers CONNECT with a return code and a session flag. *)
Inductive dialOutcome :=
| DialError (e : error)
| Dialled (k : Conn).

Inductive chan := Obound | OboundP | Ibound.

Inductive event :=
| EvDial (broker : string)
| EvConnectMQTT (broker : string) (protocolVersion : N) (rc : N)
| EvConnClose
| EvNilConnClose
| EvSleep (d : time.Duration)
| EvOnReconnecting
| EvStoreOpen
| EvStoreClose
| EvPut (k : StoreKey) (p : ControlPacket)
| EvTimer (d : time.Duration)
| EvSend (ch : chan) (p : ControlPacket)
| EvTimeout (ch : chan)
| EvAddRoute (topic : string)
| EvDeleteRoute (topic : string).

(** [net]: the answers to the successive dials (every dial after the script
    fails); [gateway]: for the successive [select] statements, whether the
    receiver takes the packet before the timer fires (it does not once the
    script is used up); [user]: for the successive sleeps of a worker,
    whether the application calls [Disconnect] meanwhile; [log]: the effects
    performed so far, oldest first. *)
Record World := {
  cl : client;
  net : list dialOutcome;
  gateway : list bool;
  user : list bool;
  log : list event }.

Definition M (A : Type) : Type := World → A * World.

#[global] Instance M_ret : MRet M := λ A a w, (a, w).
#[global] Instance M_bind : MBind M := λ A B f m w, let '(a, w1) := m w in f a w1.

Definition getClient : M client := λ w, (cl w, w).

Definition withClient (c : client) (w : World) : World :=
  {| cl := c; net := net w; gateway := gateway w; user := user w; log := log w |}.

Definition modifyClient (f : client → client) : M unit :=
  λ w, (tt, withClient (f (cl w)) w).

Definition emit (e : event) : M unit :=
  λ w, (tt, {| cl := cl w; net := net w; gateway := gateway w;
               user := user w; log := log w ++ [e] |}).

Definition nextDial : M dialOutcome :=
  λ w, match net w with
       | [] => (DialError "network is unreachable",  w)
       | o :: rest => (o, {| cl := cl w; net := rest; gateway := gateway w;
                             user := user w; log := log w |})
       end.

Definition nextGateway : M bool :=
  λ w, match gateway w with
       | [] => (false, w)
       | b :: rest => (b, {| cl := cl w; net := net w; gateway := rest;
                             user := user w; log := log w |})
       end.

Definition nextUser : M bool :=
  λ w, match user w with
       | [] => (false, w)
       | b :: rest => (b, {| cl := cl w; net := net w; gateway := gateway w;
                             user := rest; log := log w |})
       end.

Fixpoint forM_ {A : Type} (l : list A) (f : A → M unit) : M unit :=
  match l with
  | [] => mret tt
  | x :: rest => f x;; forM_ rest f
  end.

(** [select { case ch <- p: ... case <-time.After(d): ... }]: true when the
    send went through, false when the timer fired first. *)
Definition selectSend (ch : chan) (p : ControlPacket) (d : time.Duration) : M bool :=
  emit (EvTimer d);;
  taken ← nextGateway;
  if taken : bool then emit (EvSend ch p);; mret true
  else emit (EvTimeout ch);; mret false.

(** ** Collaborators of client.go that are defined elsewhere

    [packets.ConnErrors] (the table from CONNACK codes to errors, where a
    missing entry reads as nil), and the topic validators of topic.go, are
    taken as parameters. *)

Class Externals := {
  ConnErrors : N → option error;
  validateTopicAndQos : string → N → option error;
  validateSubscribeMap : gmap string N → (list string * list N) + error }.

Definition ErrNotConnected : error := "not Connected".

(** [%s] of an error value that may be nil *)
Definition fmt_s (e : option error) : string := default "%!s(<nil>)" e.

Inductive ctl := Break | Continue | GotoCONN.

(** The local variables of [attemptConnection]. *)
Record attemptVars := {
  protocolVersion : N;
  aSessionPresent : bool;
  aConn : option Conn;
  aErr : option error;
  aRC : N }.

Inductive flow (A B : Type) :=
| Again (a : A)
| Done (b : B).
Arguments Again {A B} a.
Arguments Done {A B} b.

Inductive payload :=
| PayloadString (p : string)
| PayloadBytes (p : list byte)
| PayloadBuffer (buf : list byte) (off : nat)
| PayloadOther (dynamicType : string).

(** [bytes.Buffer.Bytes]: the unread part of the buffer *)
Definition Bytes (buf : list byte) (off : nat) : list byte := drop off buf.

Section Client.
Context `{Externals}.

Definition GetInitialRC : M N :=
  c ← getClient; mret (InitialRC c).

Definition SetCustomCallback : M unit :=
  modifyClient (set_useCallback true).

Definition AddRoute (topic : string) (callback : option MessageHandler) : M unit :=
  match callback with
  | Some cb => emit (EvAddRoute topic);;
               modifyClient (λ c, set_msgRouter (addRoute topic cb (msgRouter c)) c)
  | None => mret tt
  end.

Definition IsConnected : M bool :=
  c ← getClient;
  let status := status c in
  if decide (status = connected) then mret true
  else if AutoReconnect (options c) && bool_decide (connecting < status)%N then mret true
  else if ConnectRetry (options c) && bool_decide (status = connecting) then mret true
  else mret false.

Definition IsConnectionOpen : M bool :=
  c ← getClient;
  let status := status c in
  if decide (status = connected) then mret true
  else mret false.

Definition connectionStatus : M N :=
  c ← getClient; mret (status c).

Definition setConnected (status : N) : M unit :=
  modifyClient (set_status status).

(** the store, the registry and the route table, as the client uses them *)
Definition persistOpen : M unit :=
  emit EvStoreOpen;; modifyClient (λ c, set_persist (store.Open (persist c)) c).

Definition persistClose : M unit :=
  emit EvStoreClose;; modifyClient (λ c, set_persist (store.Close (persist c)) c).

Definition persistReset : M unit :=
  modifyClient (λ c, set_persist (store.Reset (persist c)) c).

Definition persistDel (key : StoreKey) : M unit :=
  modifyClient (λ c, set_persist (store.Del key (persist c)) c).

Definition clientPersistOutbound (m : ControlPacket) : M unit :=
  (if decide (dQos (details m) = 0%N) then mret tt
   else emit (EvPut (outboundKeyFromMID (dMessageID (details m))) m));;
  modifyClient (λ c, set_persist (persistOutbound (persist c) m) c).

Definition clientGetID (t : tokenCompletor) : M N :=
  c ← getClient;
  let '(mID, m) := getID t (mids c) in
  modifyClient (set_mids m);;
  mret mID.

Definition clientClaimID (t : tokenCompletor) (id : N) : M unit :=
  modifyClient (λ c, set_mids (claimID t id (mids c)).2 c).

Definition closeConn (k : option Conn) : M unit :=
  match k with
  | Some _ => emit EvConnClose
  | None => emit EvNilConnClose
  end.

(** [stopCommsWorkers]: true when the workers were running; closing the
    channels and waiting for the workers is not modelled. *)
Definition stopCommsWorkers : M bool :=
  c ← getClient;
  match conn c with
  | None => mret false
  | Some k =>
      emit EvConnClose;;
      modifyClient (set_conn None);;
      mret true
  end.

(** [disconnect]: the clean-up after a final disconnection *)
Definition disconnect : M unit :=
  stopCommsWorkers;;
  modifyClient (λ c, set_mids (cleanUp (mids c)) c);;
  persistClose.

(** [Disconnect]: the DISCONNECT packet is sent on the priority channel
    with a plain (blocking) send; the wait of [quiesce] milliseconds for its
    token changes nothing in the client. *)
Definition Disconnect (quiesce : N) : M unit :=
  status ← connectionStatus;
  (if decide (status = connected) then
     setConnected disconnected;;
     emit (EvSend OboundP DisconnectP)
   else
     setConnected disconnected);;
  disconnect.

(** [time.Sleep] in a worker; the application may call [Disconnect]
    while the worker sleeps. *)
Definition Sleep (d : time.Duration) : M unit :=
  emit (EvSleep d);;
  called ← nextUser;
  if called : bool then Disconnect 0 else mret tt.

(** [Detour]: the custom callback or [openConnection]; either way the
    network decides. *)
Definition Detour (broker : string) : M (option Conn * option error) :=
  emit (EvDial broker);;
  o ← nextDial;
  match o with
  | DialError e => mret (None, Some e)
  | Dialled k => mret (Some k, None)
  end.

(** Modelled from the spec: [ConnectMQTT] of net.go writes the CONNECT frame
    for the given protocol level and reads the CONNACK (section 4.5). *)
Definition ConnectMQTT (broker : string) (k : option Conn) (protocolVersion : N)
  : M (N * bool) :=
  let rc := from_option connackCode ErrNetworkError k in
  let sp := from_option connackSessionPresent false k in
  emit (EvConnectMQTT broker protocolVersion rc);;
  mret (rc, sp).

(** One pass through the body of the [for] loop of [attemptConnection],
    from the label [CONN] on. *)
Definition tryBroker (broker : string) (v : attemptVars) : M (ctl * attemptVars) :=
  '(conn, err) ← Detour broker;
  match err with
  | Some _ =>
      mret (Continue,
            {| protocolVersion := protocolVersion v;
               aSessionPresent := aSessionPresent v;
               aConn := conn; aErr := err; aRC := ErrNetworkError |})
  | None =>
      '(rc, sessionPresent) ← ConnectMQTT broker conn (protocolVersion v);
      let v1 := {| protocolVersion := protocolVersion v;
                   aSessionPresent := sessionPresent;
                   aConn := conn; aErr := err; aRC := rc |} in
      if decide (rc = Accepted) then mret (Break, v1)
      else
        (match conn with Some _ => emit EvConnClose | None => mret tt end);;
        c ← getClient;
        if negb (protocolVersionExplicit (options c))
           && bool_decide (protocolVersion v = 4%N)
        then mret (GotoCONN,
                   {| protocolVersion := 3;
                      aSessionPresent := sessionPresent;
                      aConn := conn; aErr := err; aRC := rc |})
        else mret (Continue, v1)
  end.

(** The label [CONN] and its [goto]: [n] bounds the number of jumps back.
    One jump is all the code can make ([CONN_jumps]). *)
Fixpoint CONN (n : nat) (broker : string) (v : attemptVars) : M (bool * attemptVars) :=
  '(k, v1) ← tryBroker broker v;
  match k with
  | Break => mret (true, v1)
  | Continue => mret (false, v1)
  | GotoCONN =>
      match n with
      | S n' => CONN n' broker v1
      | O => mret (false, v1)
      end
  end.

Fixpoint rangeBrokers (brokers : list string) (v : attemptVars) : M attemptVars :=
  match brokers with
  | [] => mret v
  | broker :: rest =>
      '(broke, v1) ← CONN 1 broker v;
      if broke : bool then mret v1 else rangeBrokers rest v1
  end.

Definition attemptConnection : M (option Conn * N * bool * option error) :=
  c ← getClient;
  let brokers := Servers (options c) in
  v ← rangeBrokers brokers
        {| protocolVersion := ProtocolVersion (options c);
           aSessionPresent := false; aConn := None; aErr := None; aRC := 0 |};
  if decide (aRC v = Accepted) then
    modifyClient (λ c, set_options (lockProtocolVersion (protocolVersion v) (options c)) c);;
    mret (aConn v, aRC v, aSessionPresent v, aErr v)
  else if decide (aRC v ≠ ErrNetworkError) then
    mret (aConn v, aRC v, aSessionPresent v, ConnErrors (aRC v))
  else
    mret (aConn v, aRC v, aSessionPresent v,
          Some (fmt_s (ConnErrors (aRC v)) +:+ " : " +:+ fmt_s (aErr v))).

(** [reserveStoredPublishIDs]: claim the id of every PUBLISH in the store *)
Definition reserveStoredPublishIDs : M unit :=
  c ← getClient;
  if negb (CleanSession (options c)) then
    forM_ (store.All (persist c)) (λ key,
      c ← getClient;
      match store.Get key (persist c) with
      | None => mret tt
      | Some (PublishP p) =>
          clientClaimID (PlaceHolderToken (MessageID p)) (MessageID p)
      | Some _ => mret tt
      end)
  else mret tt.

(** [startCommsWorkers]: true when the workers were started by this call.
    The goroutines it starts (keepalive, router, gateway, comms) and the
    OnConnect callback leave the client record alone and are not modelled. *)
Definition startCommsWorkers (k : option Conn) : M bool :=
  c ← getClient;
  match conn c with
  | Some _ => closeConn k;; mret false
  | None =>
      modifyClient (set_conn k);;
      setConnected connected;;
      mret true
  end.

(** [resume]: the stored packets are sent with plain (blocking) sends *)
Definition resume (subscription : bool) : M unit :=
  c ← getClient;
  forM_ (store.All (persist c)) (λ key,
    c ← getClient;
    match store.Get key (persist c) with
    | None => mret tt
    | Some packet =>
        let mid := dMessageID (details packet) in
        if isKeyOutbound key then
          match packet with
          | SubscribeP _ =>
              if subscription then
                clientClaimID SubscribeToken mid;;
                emit (EvSend OboundP packet)
              else mret tt
          | UnsubscribeP _ =>
              if subscription then emit (EvSend OboundP packet) else mret tt
          | PubrelP _ => emit (EvSend OboundP packet)
          | PublishP _ =>
              clientClaimID PublishToken mid;;
              emit (EvSend Obound packet)
          | _ => persistDel key
          end
        else
          match packet with
          | PubrelP _ => emit (EvSend Ibound packet)
          | _ => persistDel key
          end
    end).

(** [Connect], up to the start of the worker goroutine: the token, and
    whether the worker was started. *)
Definition Connect : M (Token * bool) :=
  let t := newToken in
  c ← getClient;
  if ConnectRetry (options c) && bool_decide (status c ≠ disconnected) then
    mret (flowComplete (set_returnCode Accepted t), false)
  else
    persistOpen;;
    (if ConnectRetry (options c) then reserveStoredPublishIDs else mret tt);;
    setConnected connecting;;
    mret (t, true).

(** One pass of the worker from the label [RETRYCONN]: [Again] stands for
    [goto RETRYCONN]. *)
Definition RETRYCONN (t : Token) : M (flow Token Token) :=
  '(conn, rc, sessionPresent, err) ← attemptConnection;
  let t := set_sessionPresent sessionPresent t in
  modifyClient (set_InitialRC rc);;
  match err with
  | Some e =>
      c ← getClient;
      retry ← (if ConnectRetry (options c) then
                 Sleep (ConnectRetryInterval (options c));;
                 c ← getClient;
                 mret (bool_decide (status c = connecting))
               else mret false);
      if retry : bool then mret (Again t)
      else
        setConnected disconnected;;
        persistClose;;
        mret (Done (setError e (set_returnCode rc t)))
  | None =>
      started ← startCommsWorkers conn;
      c ← getClient;
      (if started : bool then
         if negb (CleanSession (options c)) then resume (ResumeSubs (options c))
         else persistReset
       else mret tt);;
      mret (Done (flowComplete t))
  end.

(** The worker may retry for ever; [n] bounds the passes that are run, and
    [None] says the worker is still retrying after them. *)
Fixpoint connectRetries (n : nat) (t : Token) : M (option Token) :=
  match n with
  | O => mret None
  | S n' =>
      r ← RETRYCONN t;
      match r with
      | Again t' => connectRetries n' t'
      | Done t' => mret (Some t')
      end
  end.

Definition connectWorker (n : nat) (t : Token) : M (option Token) :=
  c ← getClient;
  if decide (length (Servers (options c)) = 0) then
    mret (Some (setError "no servers defined to connect to" t))
  else connectRetries n t.

(** The update of [sleep] after a failed attempt of [reconnect]. *)
Definition nextSleep (sleep maxInterval : time.Duration) : time.Duration :=
  let sleep := if decide (sleep < maxInterval)%Z then time.mul sleep 2%Z else sleep in
  if decide (sleep > maxInterval)%Z then maxInterval else sleep.

(** One turn of the [for] loop of [reconnect]. *)
Definition reconnectTurn (sleep : time.Duration)
  : M (flow time.Duration (option Conn)) :=
  c ← getClient;
  (if OnReconnecting (options c) then emit EvOnReconnecting else mret tt);;
  '(conn, _, _, err) ← attemptConnection;
  match err with
  | None => mret (Done conn)
  | Some _ =>
      Sleep sleep;;
      c ← getClient;
      let sleep := nextSleep sleep (MaxReconnectInterval (options c)) in
      if decide (status c = disconnected) then mret (Done conn)
      else mret (Again sleep)
  end.

Fixpoint reconnectLoop (n : nat) (sleep : time.Duration) : M (option (option Conn)) :=
  match n with
  | O => mret None
  | S n' =>
      r ← reconnectTurn sleep;
      match r with
      | Again sleep' => reconnectLoop n' sleep'
      | Done conn => mret (Some conn)
      end
  end.

(** [reconnect], run for at most [n] turns of its loop; false when the
    loop is still turning after them. *)
Definition reconnect (n : nat) : M bool :=
  r ← reconnectLoop n (1 * time.Second)%Z;
  match r with
  | None => mret false
  | Some conn =>
      status ← connectionStatus;
      if decide (status = disconnected) then
        closeConn conn;;
        mret true
      else
        started ← startCommsWorkers conn;
        c ← getClient;
        (if started : bool then resume (ResumeSubs (options c)) else mret tt);;
        mret true
  end.

(** The wait of an enqueue: the write timeout, 30 seconds when it is 0. *)
Definition enqueueTimeout (c : client) : time.Duration :=
  if decide (WriteTimeout (options c) = 0%Z) then (time.Second * 30)%Z
  else WriteTimeout (options c).

(** [Publish] from [persistOutbound] on (lines 670 to 688). *)
Definition publishSend (pub : PublishPacket) (token : Token) : M Token :=
  clientPersistOutbound (PublishP pub);;
  status ← connectionStatus;
  if decide (status = connecting) then mret token
  else if decide (status = reconnecting) then mret token
  else
    c ← getClient;
    let publishWaitTimeout := enqueueTimeout c in
    sent ← selectSend Obound (PublishP pub) publishWaitTimeout;
    if sent : bool then mret token
    else mret (setError "publish was broken by timeout" token).

(** [Publish] once the packet has its payload (lines 661 to 688). *)
Definition publishPacket (pub : PublishPacket) (token : Token) : M Token :=
  if bool_decide (Qos pub ≠ 0%N) && bool_decide (MessageID pub = 0%N) then
    mID ← clientGetID PublishToken;
    if decide (mID = 0%N) then mret (setError "no message IDs available" token)
    else publishSend (withMessageID mID pub) (set_messageID mID token)
  else publishSend pub token.

Definition Publish (topic : string) (qos : N) (retained : bool) (payload : payload)
  : M Token :=
  let token := newToken in
  isConnected ← IsConnected;
  if negb isConnected then mret (setError ErrNotConnected token)
  else
    status ← connectionStatus;
    if bool_decide (status = reconnecting) && bool_decide (qos = 0%N)
    then mret (flowComplete token)
    else
      let pub := {| Qos := qos; Retain := retained; TopicName := topic;
                    MessageID := 0; Payload := [] |} in
      match payload with
      | PayloadString p =>
          publishPacket (withPayload (String.list_byte_of_string p) pub) token
      | PayloadBytes p => publishPacket (withPayload p pub) token
      | PayloadBuffer buf off => publishPacket (withPayload (Bytes buf off) pub) token
      | PayloadOther _ => mret (setError "unknown payload type" token)
      end.

(** The guard shared by [Subscribe], [SubscribeMultiple] and [Unsubscribe]
    when the connection is not open: the error the call fails with, if any. *)
Definition notOpenGuard : M (option error) :=
  isOpen ← IsConnectionOpen;
  c ← getClient;
  if negb isOpen then
    if negb (ResumeSubs (options c)) then
      mret (Some "not currently connected and ResumeSubs not set")
    else if CleanSession (options c) && bool_decide (status c = reconnecting) then
      mret (Some "reconnecting state and cleansession is true")
    else mret None
  else mret None.

(** The enqueue of a SUBSCRIBE (lines 745 to 762 and 812 to 829). *)
Definition subscribeSend (sub : SubscribePacket) (token : Token) : M Token :=
  clientPersistOutbound (SubscribeP sub);;
  status ← connectionStatus;
  if decide (status = connecting) then mret token
  else if decide (status = reconnecting) then mret token
  else
    c ← getClient;
    let subscribeWaitTimeout := enqueueTimeout c in
    sent ← selectSend OboundP (SubscribeP sub) subscribeWaitTimeout;
    if sent : bool then mret token
    else mret (setError "subscribe was broken by timeout" token).

(** The route [Subscribe] installs for a topic: shared-subscription and
    queue prefixes are cut off. *)
Definition routeTopic (topic : string) : string :=
  let topic :=
    if strings.HasPrefix topic "$share/"
    then strings.Join (drop 2 (strings.Split topic slash)) "/"
    else topic in
  if strings.HasPrefix topic "$queue/"
  then strings.TrimPrefix topic "$queue/"
  else topic.

Definition Subscribe (topic : string) (qos : N) (callback : option MessageHandler)
  : M Token :=
  let token := newToken in
  isConnected ← IsConnected;
  if negb isConnected then mret (setError ErrNotConnected token)
  else
    guard ← notOpenGuard;
    match guard with
    | Some e => mret (setError e token)
    | None =>
        match validateTopicAndQos topic qos with
        | Some e => mret (setError e token)
        | None =>
            let subTopics := [topic] in
            let subQoss := [qos] in
            let topic := routeTopic topic in
            (match callback with
             | Some cb =>
                 emit (EvAddRoute topic);;
                 modifyClient (λ c, set_msgRouter (addRoute topic cb (msgRouter c)) c)
             | None => mret tt
             end);;
            let token := set_subs (subs token ++ [topic]) token in
            mID ← clientGetID SubscribeToken;
            if decide (mID = 0%N) then
              mret (setError "no message IDs available" token)
            else
              subscribeSend {| sTopics := subTopics; sQoss := subQoss;
                               sMessageID := mID |}
                            (set_messageID mID token)
        end
    end.

Definition SubscribeMultiple (filters : gmap string N)
  (callback : option MessageHandler) : M Token :=
  let token := newToken in
  isConnected ← IsConnected;
  if negb isConnected then mret (setError ErrNotConnected token)
  else
    guard ← notOpenGuard;
    match guard with
    | Some e => mret (setError e token)
    | None =>
        match validateSubscribeMap filters with
        | inr e => mret (setError e token)
        | inl (subTopics, subQoss) =>
            (match callback with
             | Some cb =>
                 forM_ (map_to_list filters).*1 (λ topic,
                   emit (EvAddRoute topic);;
                   modifyClient
                     (λ c, set_msgRouter (addRoute topic cb (msgRouter c)) c))
             | None => mret tt
             end);;
            let token := set_subs subTopics token in
            mID ← clientGetID SubscribeToken;
            if decide (mID = 0%N) then
              mret (setError "no message IDs available" token)
            else
              subscribeSend {| sTopics := subTopics; sQoss := subQoss;
                               sMessageID := mID |}
                            (set_messageID mID token)
        end
    end.

Definition Unsubscribe (topics : list string) : M Token :=
  let token := newToken in
  isConnected ← IsConnected;
  if negb isConnected then mret (setError ErrNotConnected token)
  else
    guard ← notOpenGuard;
    match guard with
    | Some e => mret (setError e token)
    | None =>
        mID ← clientGetID UnsubscribeToken;
        if decide (mID = 0%N) then
          mret (setError "no message IDs available" token)
        else
          let unsub := {| uTopics := topics; uMessageID := mID |} in
          let token := set_messageID mID token in
          clientPersistOutbound (UnsubscribeP unsub);;
          status ← connectionStatus;
          if decide (status = connecting) then mret token
          else if decide (status = reconnecting) then mret token
          else
            c ← getClient;
            let subscribeWaitTimeout := enqueueTimeout c in
            sent ← selectSend OboundP (UnsubscribeP unsub) subscribeWaitTimeout;
            if sent : bool then
              forM_ topics (λ topic,
                emit (EvDeleteRoute topic);;
                modifyClient
                  (λ c, set_msgRouter (deleteRoute topic (msgRouter c)) c));;
              mret token
            else mret (setError "unsubscribe was broken by timeout" token)
    end.

(** [internalConnLost]: true when the reconnect worker is started (the
    OnConnectionLost callback is not modelled). *)
Definition internalConnLost : M bool :=
  c ← getClient;
  if decide (status c ≠ disconnected) then
    stopped ← stopCommsWorkers;
    if stopped : bool then
      (if CleanSession (options c) && negb (AutoReconnect (options c))
       then modifyClient (λ c, set_mids (cleanUp (mids c)) c)
       else mret tt);;
      if AutoReconnect (options c) then
        setConnected reconnecting;;
        mret true
      else
        setConnected disconnected;;
        mret false
    else mret false
  else mret false.

(** [Connect] followed by its worker, run for at most [n] passes. *)
Definition ConnectAndWait (n : nat) : M (option Token) :=
  '(t, started) ← Connect;
  if started : bool then connectWorker n t else mret (Some t).

End Client.

(** ** Readings of the effect log *)

Definition dialled (l : list event) : list string :=
  flat_map (λ e, match e with EvDial b => [b] | _ => [] end) l.

Definition levels (l : list event) : list N :=
  flat_map (λ e, match e with EvConnectMQTT _ pv _ => [pv] | _ => [] end) l.

Definition connacks (l : list event) : list N :=
  flat_map (λ e, match e with EvConnectMQTT _ _ rc => [rc] | _ => [] end) l.

Definition sleeps (l : list event) : list time.Duration :=
  flat_map (λ e, match e with EvSleep d => [d] | _ => [] end) l.

Definition isDeleteRoute (e : event) : bool :=
  match e with EvDeleteRoute _ => true | _ => false end.

(** The bytes [Publish] takes from a payload, when its type is one of the
    three the type switch knows. *)
Definition payloadBytes (p : payload) : option (list byte) :=
  match p with
  | PayloadString s => Some (String.list_byte_of_string s)
  | PayloadBytes b => Some b
  | PayloadBuffer buf off => Some (Bytes buf off)
  | PayloadOther _ => None
  end.

(** What [Publish] runs once it has taken these bytes from the payload. *)
Definition publishBytes (topic : string) (qos : N) (retained : bool)
  (bytes : list byte) (token : Token) : M Token :=
  publishPacket
    (withPayload bytes {| Qos := qos; Retain := retained; TopicName := topic;
                          MessageID := 0; Payload := [] |})
    token.

(** The events of a publish call may only carry this topic and payload. *)
Definition carries (topic : string) (bytes : list byte) (e : event) : Prop :=
  match e with
  | EvPut _ (PublishP p) | EvSend Obound (PublishP p) =>
      TopicName p = topic ∧ Payload p = bytes
  | EvTimer _ | EvTimeout Obound => True
  | _ => False
  end.

(** ** Worlds to run the client in *)

Definition world (c : client) (net : list dialOutcome) (gateway user : list bool)
  : World :=
  {| cl := c; net := net; gateway := gateway; user := user; log := [] |}.

(** The table of packets.ConnErrors for the codes of MQTT 3.1.1, and
    validators that accept every filter: an instance to run examples with. *)
Definition exampleExternals : Externals :=
  {| ConnErrors := λ rc,
       if decide (rc = 1%N) then Some "unnacceptable protocol version"
       else if decide (rc = 2%N) then Some "identifier rejected"
       else if decide (rc = 3%N) then Some "server Unavailable"
       else if decide (rc = 4%N) then Some "bad user name or password"
       else if decide (rc = 5%N) then Some "not Authorized"
       else if decide (rc = 254%N) then Some "network Error"
       else if decide (rc = 255%N) then Some "protocol Violation"
       else None;
     validateTopicAndQos := λ _ _, None;
     validateSubscribeMap := λ filters,
       inl ((map_to_list filters).*1, (map_to_list filters).*2) |}.

Definition mkOptions (servers : list string) (cleanSession connectRetry : bool)
  (maxReconnectInterval : time.Duration) : ClientOptions :=
  {| Servers := servers;
     ProtocolVersion := 0;
     protocolVersionExplicit := false;
     CleanSession := cleanSession;
     ConnectRetry := connectRetry;
     ConnectRetryInterval := (30 * time.Second)%Z;
     AutoReconnect := true;
     MaxReconnectInterval := maxReconnectInterval;
     WriteTimeout := 0%Z;
     ResumeSubs := true;
     OnReconnecting := false |}.

Definition brokerA : string := "tcp://a:1883".
Definition brokerB : string := "tcp://b:1883".

Definition exampleOptions : ClientOptions :=
  mkOptions [brokerA; brokerB] false true (600 * time.Second)%Z.

(** A peer that answers CONNECT with the given return code. *)
Definition answering (rc : N) : dialOutcome :=
  Dialled {| connackCode := rc; connackSessionPresent := false |}.

(** A store left behind by an earlier run: one outbound PUBLISH, id 1. *)
Definition storedPublish : PublishPacket :=
  {| Qos := 1; Retain := false; TopicName := "a/b"; MessageID := 1; Payload := [] |}.

Definition storeWithPublish : Store :=
  {| opened := false;
     content := {[ outboundKeyFromMID 1 := PublishP storedPublish ]} |}.

(** connect-retry on, clean-session off: the ids of the store are reserved *)
Definition wReserve : World :=
  world (NewClient exampleOptions (Some storeWithPublish)) [] [] [].

(** connect-retry on, clean-session on *)
Definition wCleanSession : World :=
  world (NewClient (mkOptions [brokerA; brokerB] true true (600 * time.Second)%Z)
           (Some storeWithPublish)) [] [] [].

(** connect-retry off, clean-session off *)
Definition wNoRetry : World :=
  world (NewClient (mkOptions [brokerA; brokerB] false false (600 * time.Second)%Z)
           (Some storeWithPublish)) [] [] [].

(** two brokers; the first rejects level 4 and level 3, the second rejects *)
Definition wFallback : World :=
  world (NewClient exampleOptions None)
    [answering 1; answering 5; answering 5] [] [].

(** no server at all *)
Definition wNoServers : World :=
  world (NewClient (mkOptions [] false true (600 * time.Second)%Z) None) [] [] [].

(** one broker that accepts the first connection and then refuses *)
Definition wAcceptThenRefuse : World :=
  world (NewClient (mkOptions [brokerA] false true (600 * time.Second)%Z) None)
    [answering 0; answering 5] [] [].

(** a client in [reconnecting] with no network, for a given maximum interval *)
Definition wReconnecting (maxInterval : time.Duration) : World :=
  world (set_status reconnecting
           (NewClient (mkOptions [brokerA] false true maxInterval) None)) [] [] [].

(** ** Auxiliary definitions for the statements *)

(** What one turn of the loop of [reserveStoredPublishIDs] does to the
    registry. *)
Definition reserveStep (st : Store) (m : messageIds) (key : StoreKey) : messageIds :=
  match store.Get key st with
  | Some (PublishP p) => (claimID (PlaceHolderToken (MessageID p)) (MessageID p) m).2
  | _ => m
  end.

(** The registry [Connect] leaves behind. *)
Definition reservedIDs (c : client) : messageIds :=
  if ConnectRetry (options c) && negb (CleanSession (options c))
  then foldl (reserveStep (persist c)) (mids c) (store.All (persist c))
  else mids c.

Definition afterConnect (w : World) : World :=
  {| cl := set_status connecting
             (set_mids (reservedIDs (cl w))
                (set_persist (store.Open (persist (cl w))) (cl w)));
     net := net w; gateway := gateway w; user := user w;
     log := log w ++ [EvStoreOpen] |}.

(** The options other than the protocol version and its lock. *)
Definition settings (o : ClientOptions) :=
  (Servers o, CleanSession o, ConnectRetry o, ConnectRetryInterval o,
   AutoReconnect o, MaxReconnectInterval o, WriteTimeout o, ResumeSubs o,
   OnReconnecting o).

(** [calm w w']: going from [w] to [w'] kept the saved return code and the
    settings, and no worker slept. *)
Definition calm (w w' : World) : Prop :=
  InitialRC (cl w') = InitialRC (cl w)
  ∧ settings (options (cl w')) = settings (options (cl w))
  ∧ sleeps (log w') = sleeps (log w).

(** [keepsRC w w']: going from [w] to [w'] kept the saved return code and
    the settings. *)
Definition keepsRC (w w' : World) : Prop :=
  InitialRC (cl w') = InitialRC (cl w)
  ∧ settings (options (cl w')) = settings (options (cl w)).

(** [frames R m]: every run of [m] relates the world before to the one
    after by [R]. *)
Definition frames {A : Type} (R : relation World) (m : M A) : Prop :=
  ∀ w, R w (m w).2.

(** The return code an attempt reports. *)
Definition attemptRC (r : option Conn * N * bool * option error) : N := r.1.1.2.
Definition attemptErr (r : option Conn * N * bool * option error) : option error := r.2.

(** The successive sleeps of [reconnect] while its attempts fail. *)
Fixpoint sleepSeq (n : nat) (sleep maxInterval : time.Duration) : list time.Duration :=
  match n with
  | O => []
  | S n' => sleep :: sleepSeq n' (nextSleep sleep maxInterval) maxInterval
  end.

(** The closed form of the k-th sleep: one second, then the doubled value
    capped at the maximum. *)
Definition backoff (maxInterval : time.Duration) (k : nat) : time.Duration :=
  match k with
  | O => time.Second
  | S _ => Z.min (2 ^ Z.of_nat k * time.Second) maxInterval
  end.

(** What one broker tried at one protocol level, with no fallback, leaves
    in the log: a failed dial, a rejected handshake, or an accepted one (and
    then the loop over the brokers breaks). *)
Definition plainTry (b : string) (pv : N) (broke : bool) (tr : list event) : Prop :=
  (broke = false ∧ tr = [EvDial b])
  ∨ (∃ rc, rc ≠ Accepted ∧ broke = false
           ∧ tr = [EvDial b; EvConnectMQTT b pv rc; EvConnClose])
  ∨ (broke = true ∧ tr = [EvDial b; EvConnectMQTT b pv Accepted]).

(** Worlds that differ from a given one by what was logged, or by the
    [select] outcomes that are left. *)
Definition logged (new : list event) (w : World) : World :=
  {| cl := cl w; net := net w; gateway := gateway w; user := user w;
     log := log w ++ new |}.

Definition withGateway (g : list bool) (w : World) : World :=
  {| cl := cl w; net := net w; gateway := g; user := user w; log := log w |}.

(** The log entry of [persistOutbound]. *)
Definition putEvents (m : ControlPacket) : list event :=
  if decide (dQos (details m) = 0%N) then []
  else [EvPut (outboundKeyFromMID (dMessageID (details m))) m].

(** The receiver takes the next packet before the timer fires. *)
Definition taken (w : World) : bool :=
  match gateway w with
  | true :: _ => true
  | _ => false
  end.

(** Every PUBLISH in the store has its id live in the registry. *)
Definition storedPublishIDsReserved (c : client) : Prop :=
  ∀ key p, store.Get key (persist c) = Some (PublishP p) →
           is_Some (index (mids c) !! MessageID p).

(** The route table after the loops of [SubscribeMultiple] and of
    [Unsubscribe]. *)
Definition addRoutes (topics : list string) (cb : MessageHandler)
  (r : gmap string MessageHandler) : gmap string MessageHandler :=
  foldl (λ r topic, addRoute topic cb r) r topics.

Definition deleteRoutes (topics : list string)
  (r : gmap string MessageHandler) : gmap string MessageHandler :=
  foldl (λ r topic, deleteRoute topic r) r topics.

(** The world after the optional [addRoute] of [Subscribe]. *)
Definition routed (topic : string) (callback : option MessageHandler) (w : World)
  : World :=
  match callback with
  | Some cb =>
      withClient (set_msgRouter (addRoute topic cb (msgRouter (cl w))) (cl w))
        (logged [EvAddRoute topic] w)
  | None => w
  end.

(** The world after a call has claimed an id. *)
Definition claimed (t : tokenCompletor) (w : World) : World :=
  withClient (set_mids (getID t (mids (cl w))).2 (cl w)) w.

(** The world after a call has stored its packet. *)
Definition stored (m : ControlPacket) (w : World) : World :=
  withClient (set_persist (persistOutbound (persist (cl w)) m) (cl w))
    (logged (putEvents m) w).

(** The world after the [addRoute] loop of [SubscribeMultiple]. *)
Definition routedAll (topics : list string) (callback : option MessageHandler)
  (w : World) : World :=
  match callback with
  | Some cb =>
      withClient (set_msgRouter (addRoutes topics cb (msgRouter (cl w))) (cl w))
        (logged (map EvAddRoute topics) w)
  | None => w
  end.

(** ** Runs used as examples *)

(** A connected client: [Connect] against a broker that accepts. *)
Definition wConnected : World :=
  (@ConnectAndWait exampleExternals 1
     (world (NewClient exampleOptions None) [answering 0] [] [])).2.

(** The connection is made, lost, and one reconnect attempt is refused;
    then the saved return code is read. *)
Definition lostAndRetried : M N :=
  @ConnectAndWait exampleExternals 1;;
  internalConnLost;;
  @reconnectTurn exampleExternals (1 * time.Second)%Z;;
  GetInitialRC.

Definition sharedFilters : gmap string N := {[ "$share/group1/a/b" := 1%N ]}.

(** ** More of client.go *)

(** [forceDisconnect]: ends the connection at once (used by the tests) *)
Definition forceDisconnect : M unit :=
  isConnected ← IsConnected;
  if negb isConnected then mret tt
  else
    setConnected disconnected;;
    disconnect.

(** ** Auxiliary definitions for the further properties *)

(** [netOnly w w']: going from [w] to [w'] touched the network script and
    the log only. *)
Definition netOnly (w w' : World) : Prop :=
  cl w' = cl w ∧ gateway w' = gateway w ∧ user w' = user w.

(** [sameLink w w']: going from [w] to [w'] kept the status, the
    connection, the options and the saved return code. *)
Definition sameLink (w w' : World) : Prop :=
  status (cl w') = status (cl w)
  ∧ conn (cl w') = conn (cl w)
  ∧ options (cl w') = options (cl w)
  ∧ InitialRC (cl w') = InitialRC (cl w)
  ∧ opened (persist (cl w')) = opened (persist (cl w))
  ∧ msgRouter (cl w') = msgRouter (cl w).

(** The client after the tear-down of [Disconnect]. *)
Definition torn (c : client) : client :=
  set_persist (store.Close (persist c))
    (set_mids (cleanUp (mids c)) (set_conn None (set_status disconnected c))).

(** What the tear-down logs: the connection is closed if there is one, and
    the store is closed. *)
Definition tearDownEvents (c : client) : list event :=
  match conn c with
  | Some _ => [EvConnClose; EvStoreClose]
  | None => [EvStoreClose]
  end.

(** Every scripted dial fails (and so does every dial after the script). *)
Definition networkDown (w : World) : Prop :=
  Forall (λ o, match o with DialError _ => True | Dialled _ => False end) (net w).

(** The variables [attemptConnection] starts its loop with. *)
Definition attemptStart (c : client) : attemptVars :=
  {| protocolVersion := ProtocolVersion (options c);
     aSessionPresent := false; aConn := None; aErr := None; aRC := 0 |}.

(** The application calls [Disconnect] during the next sleep of a worker. *)
Definition interrupted (w : World) : bool :=
  match user w with
  | true :: _ => true
  | _ => false
  end.

(** The world after a sleep of [d] has begun. *)
Definition slept (d : time.Duration) (w : World) : World :=
  {| cl := cl w; net := net w; gateway := gateway w; user := tail (user w);
     log := log w ++ [EvSleep d] |}.

(** The world after the OnReconnecting callback, when there is one. *)
Definition announced (w : World) : World :=
  if OnReconnecting (options (cl w)) then logged [EvOnReconnecting] w else w.

(** A string without "/" (a share group name). *)
Fixpoint noSlash (s : string) : bool :=
  match s with
  | EmptyString => true
  | String ch rest => if decide (ch = slash) then false else noSlash rest
  end.

(** What [resume] does with one stored packet: whether it deletes it from
    the store, and what it sends. *)
Definition resumeDiscards (key : StoreKey) (packet : ControlPacket) : bool :=
  if isKeyOutbound key then
    match packet with
    | SubscribeP _ | UnsubscribeP _ | PubrelP _ | PublishP _ => false
    | _ => true
    end
  else
    match packet with
    | PubrelP _ => false
    | _ => true
    end.

Definition resumeSends (subscription : bool) (key : StoreKey) (packet : ControlPacket)
  : list event :=
  if isKeyOutbound key then
    match packet with
    | SubscribeP _ | UnsubscribeP _ =>
        if subscription then [EvSend OboundP packet] else []
    | PubrelP _ => [EvSend OboundP packet]
    | PublishP _ => [EvSend Obound packet]
    | _ => []
    end
  else
    match packet with
    | PubrelP _ => [EvSend Ibound packet]
    | _ => []
    end.

(** The store [resume] leaves behind. *)
Definition resumed (s : Store) : Store :=
  {| opened := opened s;
     content := filter (λ kp, resumeDiscards kp.1 kp.2 = false) (content s) |}.

(** ** More worlds to run the client in *)

(** [Connect] has been called, the worker has not run yet; the network is
    down. *)
Definition wConnecting : World := (Connect wReserve).2.

(** as [wConnecting], without connect-retry *)
Definition wConnectingOnce : World := (Connect wNoRetry).2.

(** as [wConnecting], and the application calls [Disconnect] during the
    first sleep of the worker *)
Definition wConnectingInterrupted : World :=
  (Connect (world (NewClient exampleOptions None) [] [] [true])).2.

(** as [wConnecting], with a broker that accepts *)
Definition wConnectingAccepted : World :=
  (Connect (world (NewClient exampleOptions None) [answering 0] [] [])).2.

(** a connected client that is offered one more connection *)
Definition wConnectedTwice : World :=
  {| cl := cl wConnected; net := [answering 0]; gateway := []; user := [];
     log := log wConnected |}.

(** a client in [reconnecting], for a given network and user script *)
Definition wLost (cleanSession : bool) (net : list dialOutcome) (user : list bool)
  : World :=
  world (set_status reconnecting
           (NewClient (mkOptions [brokerA] cleanSession true (600 * time.Second)%Z)
              None)) net [] user.

(** the connection a broker that accepts hands over *)
Definition acceptedConn : Conn := {| connackCode := 0; connackSessionPresent := false |}.

(** the error of an attempt when no broker can be dialled *)
Definition unreachable : error := "network Error : network is unreachable".

(** * Properties *)

Ltac munfold := unfold mbind, mret, M_bind, M_ret in *.

(** reduce projections of the records the model builds, and nothing else *)
Ltac proj_simpl :=
  cbn [fst snd cl net gateway user log withClient
       status mids msgRouter persist options conn InitialRC useCallback
       set_status set_mids set_msgRouter set_persist set_options set_conn
       set_InitialRC set_useCallback
       opened content store.Open store.Close store.Get store.All
       index lastIssuedID
       complete err returnCode sessionPresent messageID subs
       setError flowComplete set_returnCode set_sessionPresent set_messageID
       set_subs newToken
       Servers ProtocolVersion protocolVersionExplicit CleanSession ConnectRetry
       ConnectRetryInterval AutoReconnect MaxReconnectInterval WriteTimeout
       ResumeSubs OnReconnecting lockProtocolVersion
       protocolVersion aSessionPresent aConn aErr aRC
       negb andb orb] in *.

(** unfold the primitive operations of the monad *)
Ltac mprim :=
  unfold getClient, modifyClient, emit, setConnected, persistOpen, persistClose,
    persistReset, persistDel, connectionStatus, nextDial, nextGateway, nextUser
    in *.

Ltac msimpl := repeat (progress (munfold; mprim; proj_simpl)).

Section ClientProperties.
Context `{Externals}.

(** ** Status predicates *)

(** C4.  [IsConnectionOpen] answers true exactly when the status is
    [connected]; in particular it answers false in the three other states,
    and it changes nothing. *)
Theorem IsConnectionOpen_iff_connected (w : World) :
  ((IsConnectionOpen w).1 = true ↔ status (cl w) = connected)
  ∧ (IsConnectionOpen (withClient (set_status disconnected (cl w)) w)).1 = false
  ∧ (IsConnectionOpen (withClient (set_status connecting (cl w)) w)).1 = false
  ∧ (IsConnectionOpen (withClient (set_status reconnecting (cl w)) w)).1 = false
  ∧ (IsConnectionOpen w).2 = w.
Proof.
  unfold IsConnectionOpen, getClient. munfold. cbn.
  repeat split; try reflexivity.
  - case_decide; [done | discriminate].
  - intros Hst. case_decide; [done | contradiction].
  - by case_decide.
Qed.

Lemma IsConnected_connected (w : World) :
  status (cl w) = connected → IsConnected w = (true, w).
Proof.
  intros Hst. unfold IsConnected, getClient. munfold. cbn.
  rewrite Hst. reflexivity.
Qed.

Lemma IsConnected_world (w : World) : (IsConnected w).2 = w.
Proof.
  unfold IsConnected, getClient. munfold. cbn.
  repeat (case_decide || case_match); reflexivity.
Qed.

Lemma IsConnectionOpen_connected (w : World) :
  status (cl w) = connected → IsConnectionOpen w = (true, w).
Proof.
  intros Hst. unfold IsConnectionOpen, getClient. munfold. cbn.
  rewrite Hst. reflexivity.
Qed.

Lemma notOpenGuard_world (w : World) : (notOpenGuard w).2 = w.
Proof.
  unfold notOpenGuard, IsConnectionOpen, getClient. munfold. cbn.
  repeat (case_decide || case_match); reflexivity.
Qed.

Lemma notOpenGuard_connected (w : World) :
  status (cl w) = connected → notOpenGuard w = (None, w).
Proof.
  intros Hst. unfold notOpenGuard. munfold.
  rewrite (IsConnectionOpen_connected w Hst). reflexivity.
Qed.

(** ** Connect *)

Lemma withClient_id (w : World) : withClient (cl w) w = w.
Proof. by destruct w. Qed.

Lemma set_mids_id (c : client) : set_mids (mids c) c = c.
Proof. by destruct c. Qed.

Lemma reserve_loop (keys : list StoreKey) (w : World) :
  forM_ keys (λ key,
      c ← getClient;
      match store.Get key (persist c) with
      | None => mret tt
      | Some (PublishP p) =>
          clientClaimID (PlaceHolderToken (MessageID p)) (MessageID p)
      | Some _ => mret tt
      end) w
  = (tt, withClient
           (set_mids (foldl (reserveStep (persist (cl w))) (mids (cl w)) keys) (cl w))
           w).
Proof.
  revert w. induction keys as [|key keys IH]; intros w.
  - cbn. munfold. by rewrite set_mids_id, withClient_id.
  - cbn [forM_ foldl]. munfold. unfold getClient at 1.
    unfold reserveStep at 2.
    destruct (store.Get key (persist (cl w))) as [[p| | | | |]|] eqn:Hget;
      try (rewrite IH; reflexivity).
    unfold clientClaimID, modifyClient. rewrite IH. cbn. reflexivity.
Qed.

Lemma reserveStoredPublishIDs_spec (w : World) :
  reserveStoredPublishIDs w
  = (tt, withClient
           (set_mids (if negb (CleanSession (options (cl w)))
                      then foldl (reserveStep (persist (cl w))) (mids (cl w))
                             (store.All (persist (cl w)))
                      else mids (cl w)) (cl w)) w).
Proof.
  unfold reserveStoredPublishIDs. munfold. unfold getClient at 1.
  destruct (CleanSession (options (cl w))); cbn [negb].
  - by rewrite set_mids_id, withClient_id.
  - apply reserve_loop.
Qed.

Lemma reserveStep_Open (s : Store) : reserveStep (store.Open s) = reserveStep s.
Proof. reflexivity. Qed.

Lemma Connect_past_guard (w : World) :
  ConnectRetry (options (cl w)) = false ∨ status (cl w) = disconnected →
  Connect w = ((newToken, true), afterConnect w).
Proof.
  intros Hguard. unfold Connect. munfold. unfold getClient at 1.
  assert (ConnectRetry (options (cl w)) && bool_decide (status (cl w) ≠ disconnected)
          = false) as ->.
  { destruct Hguard as [-> | ->]; [done|].
    rewrite bool_decide_eq_false_2; [apply andb_false_r | naive_solver]. }
  unfold afterConnect, reservedIDs.
  destruct (ConnectRetry (options (cl w))) eqn:Hretry; msimpl.
  - rewrite reserveStoredPublishIDs_spec. msimpl.
    destruct (CleanSession (options (cl w))); reflexivity.
  - by destruct w as [[] ? ? ? ?].
Qed.

(** C10.  [Connect] on a disconnected client whose server list is empty:
    the worker completes the token with the error "no servers defined to
    connect to" and returns at once, so the client stays in [connecting] with
    the store open; the log shows the store being opened and never closed. *)
Theorem Connect_no_servers (n : nat) (w : World) :
  status (cl w) = disconnected →
  Servers (options (cl w)) = [] →
  ∃ t,
    ConnectAndWait n w = (Some t, afterConnect w)
    ∧ complete t = true
    ∧ err t = Some "no servers defined to connect to"
    ∧ status (cl (afterConnect w)) = connecting
    ∧ opened (persist (cl (afterConnect w))) = true
    ∧ log (afterConnect w) = log w ++ [EvStoreOpen].
Proof.
  intros Hst Hservers.
  exists (setError "no servers defined to connect to" newToken).
  split; [|done].
  unfold ConnectAndWait. munfold.
  rewrite Connect_past_guard by (by right).
  unfold connectWorker. munfold. unfold getClient. cbn.
  by rewrite Hservers.
Qed.

(** ** Frame reasoning for the workers *)

#[local] Instance calm_preorder : PreOrder calm.
Proof.
  split.
  - intros w. by repeat split.
  - intros w1 w2 w3 (? & ? & ?) (? & ? & ?). repeat split; congruence.
Qed.

#[local] Instance keepsRC_preorder : PreOrder keepsRC.
Proof.
  split.
  - intros w. by repeat split.
  - intros w1 w2 w3 (? & ?) (? & ?). repeat split; congruence.
Qed.

Lemma bind_run {A B} (m : M A) (k : A → M B) (w : World) :
  (m ≫= k) w = k (m w).1 (m w).2.
Proof. munfold. by destruct (m w). Qed.

Lemma bind_getClient {B} (k : client → M B) (w : World) :
  (getClient ≫= k) w = k (cl w) w.
Proof. reflexivity. Qed.

Lemma calm_keepsRC (w w' : World) : calm w w' → keepsRC w w'.
Proof. intros (? & ? & ?). by split. Qed.

Section Frames.
Context (R : relation World) `{!PreOrder R}.

Lemma frames_ret {A} (a : A) : frames R (mret a).
Proof. intros w. reflexivity. Qed.

Lemma frames_bind {A B} (m : M A) (k : A → M B) :
  frames R m → (∀ a, frames R (k a)) → frames R (m ≫= k).
Proof.
  intros Hm Hk w. munfold. specialize (Hm w).
  destruct (m w) as [a w1]. etrans; [exact Hm | apply Hk].
Qed.

Lemma frames_forM_ {A} (l : list A) (f : A → M unit) :
  (∀ a, frames R (f a)) → frames R (forM_ l f).
Proof.
  intros Hf. induction l as [|a l IH]; cbn [forM_].
  - apply frames_ret.
  - apply frames_bind; [apply Hf | intros _; apply IH].
Qed.

Lemma frames_getClient : frames R getClient.
Proof. intros w. reflexivity. Qed.

End Frames.

Lemma frames_weaken {A} (m : M A) : frames calm m → frames keepsRC m.
Proof. intros Hm w. apply calm_keepsRC, Hm. Qed.

Lemma calm_modifyClient (f : client → client) :
  (∀ c, InitialRC (f c) = InitialRC c
        ∧ settings (options (f c)) = settings (options c)) →
  frames calm (modifyClient f).
Proof. intros Hf w. destruct (Hf (cl w)). by repeat split. Qed.

Lemma calm_emit (e : event) : sleeps [e] = [] → frames calm (emit e).
Proof.
  intros He w. repeat split. cbn. unfold sleeps in *.
  rewrite flat_map_app, He. apply app_nil_r.
Qed.

Lemma calm_nextDial : frames calm nextDial.
Proof. intros w. unfold nextDial. by destruct (net w). Qed.

Lemma calm_nextGateway : frames calm nextGateway.
Proof. intros w. unfold nextGateway. by destruct (gateway w). Qed.

Lemma calm_nextUser : frames calm nextUser.
Proof. intros w. unfold nextUser. by destruct (user w). Qed.

(** decompose a computation along its binds and case distinctions *)
Ltac frames_step :=
  first
    [ apply frames_ret; solve [typeclasses eauto]
    | apply frames_getClient; solve [typeclasses eauto]
    | apply calm_nextDial | apply calm_nextGateway | apply calm_nextUser
    | apply calm_emit; reflexivity
    | apply calm_modifyClient; intros ?; split; reflexivity
    | apply frames_bind; [typeclasses eauto | | intros ?]
    | apply frames_forM_; [typeclasses eauto | intros ?]
    | case_match
    | case_decide ].

Ltac frames_calm := repeat frames_step.

Lemma calm_setConnected (s : N) : frames calm (setConnected s).
Proof. unfold setConnected. frames_calm. Qed.

Lemma calm_persistClose : frames calm persistClose.
Proof. unfold persistClose. frames_calm. Qed.

Lemma calm_persistDel (k : StoreKey) : frames calm (persistDel k).
Proof. unfold persistDel. frames_calm. Qed.

Lemma calm_persistReset : frames calm persistReset.
Proof. unfold persistReset. frames_calm. Qed.

Lemma calm_clientClaimID (t : tokenCompletor) (id : N) : frames calm (clientClaimID t id).
Proof. unfold clientClaimID. frames_calm. Qed.

Lemma calm_closeConn (k : option Conn) : frames calm (closeConn k).
Proof. unfold closeConn. frames_calm. Qed.

Lemma calm_stopCommsWorkers : frames calm stopCommsWorkers.
Proof. unfold stopCommsWorkers. frames_calm. Qed.

Lemma calm_disconnect : frames calm disconnect.
Proof.
  unfold disconnect.
  pose proof calm_stopCommsWorkers. pose proof calm_persistClose.
  frames_calm; assumption.
Qed.

Lemma calm_Disconnect (quiesce : N) : frames calm (Disconnect quiesce).
Proof.
  unfold Disconnect, connectionStatus.
  pose proof calm_disconnect.
  frames_calm; first [assumption | apply calm_setConnected].
Qed.

Lemma calm_startCommsWorkers (k : option Conn) : frames calm (startCommsWorkers k).
Proof.
  unfold startCommsWorkers.
  frames_calm; first [apply calm_closeConn | apply calm_setConnected].
Qed.

Lemma calm_resume (subscription : bool) : frames calm (resume subscription).
Proof.
  unfold resume.
  frames_calm; first [apply calm_clientClaimID | apply calm_persistDel].
Qed.

Lemma calm_tryBroker (broker : string) (v : attemptVars) :
  frames calm (tryBroker broker v).
Proof. unfold tryBroker, Detour, ConnectMQTT. frames_calm. Qed.

Lemma calm_CONN (n : nat) (broker : string) (v : attemptVars) :
  frames calm (CONN n broker v).
Proof.
  revert v. induction n as [|n IH]; intros v; cbn [CONN];
    (apply frames_bind; [typeclasses eauto | apply calm_tryBroker | intros [k v1]]);
    frames_calm. apply IH.
Qed.

Lemma calm_rangeBrokers (brokers : list string) (v : attemptVars) :
  frames calm (rangeBrokers brokers v).
Proof.
  revert v. induction brokers as [|b brokers IH]; intros v; cbn [rangeBrokers].
  - frames_calm.
  - apply frames_bind; [typeclasses eauto | apply calm_CONN | intros [broke v1]].
    frames_calm. apply IH.
Qed.

Lemma calm_attemptConnection : frames calm attemptConnection.
Proof.
  unfold attemptConnection.
  apply frames_bind; [typeclasses eauto | frames_calm | intros c].
  apply frames_bind; [typeclasses eauto | apply calm_rangeBrokers | intros v].
  frames_calm.
Qed.

(** [Sleep] keeps the saved return code (it logs the sleep, and a
    [Disconnect] may run meanwhile). *)
Lemma keepsRC_Sleep (d : time.Duration) : frames keepsRC (Sleep d).
Proof.
  unfold Sleep.
  apply frames_bind; [typeclasses eauto | by intros w | intros _].
  apply frames_weaken.
  pose proof (calm_Disconnect 0).
  frames_calm; assumption.
Qed.

Lemma Sleep_sleeps (d : time.Duration) (w : World) :
  sleeps (log (Sleep d w).2) = sleeps (log w) ++ [d].
Proof.
  unfold Sleep. munfold. unfold emit at 1.
  set (w1 := {| cl := cl w; net := net w; gateway := gateway w; user := user w;
                log := log w ++ [EvSleep d] |}).
  assert (frames calm (called ← nextUser; if called : bool then Disconnect 0 else mret tt)) as Hrest.
  { pose proof (calm_Disconnect 0). frames_calm; assumption. }
  specialize (Hrest w1). munfold.
  destruct (nextUser w1) as [called w2].
  destruct Hrest as (_ & _ & ->). subst w1. cbn.
  unfold sleeps. by rewrite flat_map_app.
Qed.

Create HintDb calm.
#[local] Hint Resolve calm_setConnected calm_persistClose calm_persistDel
  calm_persistReset calm_clientClaimID calm_closeConn calm_stopCommsWorkers
  calm_disconnect calm_Disconnect calm_startCommsWorkers calm_resume
  calm_attemptConnection : calm.

Ltac frames_rc :=
  repeat first
    [ apply keepsRC_Sleep
    | apply frames_ret; solve [typeclasses eauto]
    | apply frames_getClient; solve [typeclasses eauto]
    | apply frames_weaken; solve [eauto with calm]
    | apply frames_weaken; solve [frames_calm]
    | apply frames_bind; [typeclasses eauto | | intros ?]
    | case_match
    | case_decide ].

Lemma settings_inv (o o' : ClientOptions) :
  settings o' = settings o →
  ConnectRetry o' = ConnectRetry o
  ∧ MaxReconnectInterval o' = MaxReconnectInterval o
  ∧ CleanSession o' = CleanSession o
  ∧ Servers o' = Servers o.
Proof. unfold settings. intros [= ? ? ? ? ? ? ? ? ?]. done. Qed.

(** ** The saved return code *)

Lemma keepsRC_reconnectTurn (sleep : time.Duration) :
  frames keepsRC (reconnectTurn sleep).
Proof. unfold reconnectTurn. frames_rc. Qed.

Lemma keepsRC_reconnectLoop (n : nat) (sleep : time.Duration) :
  frames keepsRC (reconnectLoop n sleep).
Proof.
  revert sleep. induction n as [|n IH]; intros sleep; cbn [reconnectLoop].
  - frames_rc.
  - apply frames_bind; [typeclasses eauto | apply keepsRC_reconnectTurn | intros r].
    destruct r; [apply IH | frames_rc].
Qed.

Lemma keepsRC_reconnect (n : nat) : frames keepsRC (reconnect n).
Proof.
  unfold reconnect.
  apply frames_bind; [typeclasses eauto | apply keepsRC_reconnectLoop | intros r].
  unfold connectionStatus. frames_rc.
Qed.

Lemma RETRYCONN_saves_rc (t : Token) (w : World) :
  InitialRC (cl (RETRYCONN t w).2) = attemptRC (attemptConnection w).1.
Proof.
  unfold RETRYCONN. rewrite bind_run.
  destruct (attemptConnection w) as [[[[k rc] sp] e] w1]. unfold attemptRC. cbn [fst snd].
  rewrite bind_run. unfold modifyClient at 1. cbn [fst snd].
  set (w2 := withClient (set_InitialRC rc (cl w1)) w1).
  change rc with (InitialRC (cl w2)) at 2.
  match goal with |- InitialRC (cl (?rest w2).2) = _ =>
    assert (frames keepsRC rest) as Hrest
  end.
  { frames_rc. }
  apply Hrest.
Qed.


(** On the failures of the worker other than the empty server list (an
    attempt that returns an error, with no retry), the status goes back to
    [disconnected] and the store is closed. *)
Lemma RETRYCONN_failure_closes (t : Token) (e : error) (w : World) :
  ConnectRetry (options (cl w)) = false →
  attemptErr (attemptConnection w).1 = Some e →
  ∃ t' w',
    RETRYCONN t w = (Done t', w')
    ∧ err t' = Some e
    ∧ status (cl w') = disconnected
    ∧ opened (persist (cl w')) = false.
Proof.
  intros Hretry Herr. unfold RETRYCONN. munfold.
  pose proof (calm_attemptConnection w) as (_ & Hset & _).
  destruct (attemptConnection w) as [[[[k rc] sp] err0] w1] eqn:Hac.
  unfold attemptErr in Herr. cbn in Herr, Hset. subst err0.
  apply settings_inv in Hset as (Hretry1 & _).
  rewrite Hretry in Hretry1.
  msimpl. rewrite Hretry1. msimpl. eauto 10.
Qed.

(** ** The backoff of the reconnect worker *)

Lemma reconnectTurn_again (sleep sleep' : time.Duration) (w w' : World) :
  reconnectTurn sleep w = (Again sleep', w') →
  sleeps (log w') = sleeps (log w) ++ [sleep]
  ∧ sleep' = nextSleep sleep (MaxReconnectInterval (options (cl w)))
  ∧ MaxReconnectInterval (options (cl w')) = MaxReconnectInterval (options (cl w)).
Proof.
  unfold reconnectTurn. rewrite bind_getClient, bind_run.
  match goal with |- context [(?pre w).2] =>
    assert (frames calm pre) as Hpre by frames_calm;
    specialize (Hpre w); set (w1 := (pre w).2) in *
  end.
  rewrite bind_run.
  pose proof (calm_attemptConnection w1) as Hac.
  destruct (attemptConnection w1) as [[[[k rc] sp] e] w2]. cbn [fst snd] in *.
  destruct e as [e|]; [|by munfold].
  rewrite bind_run.
  pose proof (Sleep_sleeps sleep w2) as Hsl.
  pose proof (keepsRC_Sleep sleep w2) as (_ & Hset).
  destruct (Sleep sleep w2) as [[] w3]. cbn [fst snd] in *.
  rewrite bind_getClient.
  destruct Hpre as (_ & Hset1 & Hsl1). destruct Hac as (_ & Hset2 & Hsl2).
  apply settings_inv in Hset as (_ & Hmax & _).
  apply settings_inv in Hset1 as (_ & Hmax1 & _).
  apply settings_inv in Hset2 as (_ & Hmax2 & _).
  case_decide; munfold; [discriminate|]. intros [= <- <-].
  repeat split; congruence.
Qed.

Lemma reconnectLoop_sleeps (n : nat) (sleep : time.Duration) (w : World) :
  (reconnectLoop n sleep w).1 = None →
  sleeps (log (reconnectLoop n sleep w).2)
  = sleeps (log w) ++ sleepSeq n sleep (MaxReconnectInterval (options (cl w))).
Proof.
  revert sleep w. induction n as [|n IH]; intros sleep w; cbn [reconnectLoop sleepSeq].
  - intros _. by rewrite app_nil_r.
  - rewrite bind_run.
    destruct (reconnectTurn sleep w) as [[sleep'|k] w1] eqn:Hturn; cbn [fst snd];
      [|discriminate].
    apply reconnectTurn_again in Hturn as (Hsl & -> & Hmax).
    intros Hloop. rewrite (IH _ _ Hloop), Hsl, Hmax, <- app_assoc. reflexivity.
Qed.

Lemma wrap_small (z : Z) : (0 ≤ z < 2 ^ 63)%Z → time.wrap z = z.
Proof. intros Hz. unfold time.wrap. rewrite Z.mod_small; lia. Qed.

Lemma nextSleep_first (maxInterval : time.Duration) :
  nextSleep time.Second maxInterval = backoff maxInterval 1.
Proof.
  unfold nextSleep, backoff, time.mul, time.Second.
  rewrite wrap_small by lia.
  change (2 ^ Z.of_nat 1 * 1000000000)%Z with 2000000000%Z.
  repeat case_decide; lia.
Qed.

Lemma nextSleep_backoff (maxInterval : time.Duration) (k : nat) :
  1 ≤ k →
  (maxInterval ≤ 2 ^ 33 * time.Second)%Z ∨ k < 33 →
  nextSleep (backoff maxInterval k) maxInterval = backoff maxInterval (S k).
Proof.
  intros Hk Hfit. destruct k as [|k]; [lia|].
  unfold backoff, nextSleep, time.mul, time.Second in *.
  rewrite (Nat2Z.inj_succ (S k)), Z.pow_succ_r by lia.
  set (a := (2 ^ Z.of_nat (S k))%Z) in *.
  assert (2 ≤ a)%Z as Ha.
  { subst a. change 2%Z with (2 ^ 1)%Z at 1. apply Z.pow_le_mono_r; lia. }
  assert (Z.min (a * 1000000000) maxInterval < maxInterval →
          time.wrap (Z.min (a * 1000000000) maxInterval * 2)
          = Z.min (a * 1000000000) maxInterval * 2)%Z as Hwrap.
  { intros Hlt. apply wrap_small.
    assert (a ≤ 2 ^ 32)%Z as Ha32.
    { assert (Z.of_nat (S k) < 33)%Z as Hk33; [|subst a; apply Z.pow_le_mono_r; lia].
      destruct Hfit as [Hmax|?]; [|lia].
      apply (Z.pow_lt_mono_r_iff 2); [lia..|]. fold a.
      change (2 ^ 33)%Z with 8589934592%Z in *. lia. }
    change (2 ^ 32)%Z with 4294967296%Z in *.
    change (2 ^ 63)%Z with 9223372036854775808%Z. lia. }
  destruct (decide (Z.min (a * 1000000000) maxInterval < maxInterval)%Z) as [Hlt|Hge];
    [rewrite (Hwrap Hlt)|]; case_decide; lia.
Qed.

Lemma sleepSeq_from (maxInterval : time.Duration) (n k : nat) :
  1 ≤ k →
  (maxInterval ≤ 2 ^ 33 * time.Second)%Z ∨ k + n ≤ 34 →
  sleepSeq n (backoff maxInterval k) maxInterval
  = map (backoff maxInterval) (seq k n).
Proof.
  revert k. induction n as [|n IH]; intros k Hk Hfit; [reflexivity|].
  cbn [sleepSeq seq map]. f_equal.
  destruct n as [|n]; [reflexivity|].
  rewrite nextSleep_backoff by lia. apply IH; lia.
Qed.

Lemma sleepSeq_backoff (maxInterval : time.Duration) (n : nat) :
  (maxInterval ≤ 2 ^ 33 * time.Second)%Z ∨ n ≤ 34 →
  sleepSeq n time.Second maxInterval = map (backoff maxInterval) (seq 0 n).
Proof.
  intros Hfit. destruct n as [|n]; [reflexivity|].
  cbn [sleepSeq seq map]. f_equal.
  destruct n as [|n]; [reflexivity|].
  rewrite nextSleep_first. apply sleepSeq_from; lia.
Qed.

(** C7 (as amended).  While the attempts of [reconnect] fail ([n] turns of
    the loop, after which it is still turning), the worker sleeps first one
    second, whatever the maximum interval is, and before the (k+1)-th retry
    with k at least 1 the smaller of 2^k seconds and the maximum; this holds
    as long as the doubling stays within 64 bits, that is for the first 34
    sleeps, or for all of them when the maximum is at most 2^33 seconds. *)
Theorem reconnect_backoff (n : nat) (w : World) :
  (reconnectLoop n (1 * time.Second)%Z w).1 = None →
  (MaxReconnectInterval (options (cl w)) ≤ 2 ^ 33 * time.Second)%Z ∨ n ≤ 34 →
  sleeps (log (reconnectLoop n (1 * time.Second)%Z w).2)
  = sleeps (log w)
    ++ map (backoff (MaxReconnectInterval (options (cl w)))) (seq 0 n).
Proof.
  intros Hloop Hfit.
  rewrite (reconnectLoop_sleeps _ _ _ Hloop).
  change (1 * time.Second)%Z with time.Second.
  by rewrite sleepSeq_backoff.
Qed.

(** ** The protocol fallback of [attemptConnection] *)

Lemma tryBroker_cases (b : string) (v : attemptVars) (w : World) :
  cl (tryBroker b v w).2 = cl w
  ∧ ((tryBroker b v w).1.1 = Continue
     ∧ protocolVersion (tryBroker b v w).1.2 = protocolVersion v
     ∧ log (tryBroker b v w).2 = log w ++ [EvDial b]
     ∨ (tryBroker b v w).1.1 = Break
       ∧ protocolVersion (tryBroker b v w).1.2 = protocolVersion v
       ∧ log (tryBroker b v w).2
         = log w ++ [EvDial b; EvConnectMQTT b (protocolVersion v) Accepted]
     ∨ ∃ rc, rc ≠ Accepted
         ∧ log (tryBroker b v w).2
           = log w ++ [EvDial b; EvConnectMQTT b (protocolVersion v) rc; EvConnClose]
         ∧ (protocolVersionExplicit (options (cl w)) = false
            ∧ protocolVersion v = 4%N
            ∧ (tryBroker b v w).1.1 = GotoCONN
            ∧ protocolVersion (tryBroker b v w).1.2 = 3%N
            ∨ (protocolVersionExplicit (options (cl w)) = true
               ∨ protocolVersion v ≠ 4%N)
              ∧ (tryBroker b v w).1.1 = Continue
              ∧ protocolVersion (tryBroker b v w).1.2 = protocolVersion v)).
Proof.
  unfold tryBroker, Detour, ConnectMQTT. msimpl.
  destruct (net w) as [|[e|k] rest]; msimpl; cbn [from_option].
  - split; [done|]. left. done.
  - split; [done|]. left. done.
  - destruct (decide (connackCode k = Accepted)) as [Hacc|Hrej]; msimpl.
    + split; [done|]. right. left. rewrite Hacc, <- app_assoc. done.
    + destruct (protocolVersionExplicit (options (cl w))) eqn:Hexp; msimpl.
      * split; [done|]. right. right. exists (connackCode k).
        rewrite <- !app_assoc. naive_solver.
      * destruct (decide (protocolVersion v = 4%N)) as [Hpv|Hpv].
        -- rewrite bool_decide_eq_true_2 by done. msimpl.
           split; [done|]. right. right. exists (connackCode k).
           rewrite <- !app_assoc. naive_solver.
        -- rewrite bool_decide_eq_false_2 by done. msimpl.
           split; [done|]. right. right. exists (connackCode k).
           rewrite <- !app_assoc. naive_solver.
Qed.

(** The [goto CONN] is taken at most once for a broker: a second jump
    would need protocol level 4, and the first jump sets level 3.  So the
    bound on the jumps is never what stops [CONN]. *)
Lemma CONN_no_jump (n : nat) (b : string) (v : attemptVars) (w : World) :
  protocolVersionExplicit (options (cl w)) = true ∨ protocolVersion v ≠ 4%N →
  CONN n b v w = CONN 0 b v w.
Proof.
  intros Hplain. destruct n as [|n]; [reflexivity|].
  cbn [CONN]. rewrite !bind_run.
  destruct (tryBroker_cases b v w) as (_ & [(Hk & _)|[(Hk & _)|(rc & _ & _ & Hk)]]).
  - destruct (tryBroker b v w) as [[k v1] w1]. cbn in *. by subst k.
  - destruct (tryBroker b v w) as [[k v1] w1]. cbn in *. by subst k.
  - destruct Hk as [(Hexp & Hpv & _)|(_ & Hk & _)]; [destruct Hplain; congruence|].
    destruct (tryBroker b v w) as [[k v1] w1]. cbn in *. by subst k.
Qed.

Lemma CONN_jumps (n : nat) (b : string) (v : attemptVars) (w : World) :
  CONN (S n) b v w = CONN 1 b v w.
Proof.
  cbn [CONN]. rewrite !bind_run.
  destruct (tryBroker_cases b v w) as (Hcl & Hcases).
  destruct (tryBroker b v w) as [[k v1] w1]. cbn [fst snd] in *.
  destruct k; try reflexivity.
  apply CONN_no_jump. right.
  destruct Hcases as [(? & _)|[(? & _)|(rc & _ & _ & [(_ & _ & _ & ->)|(_ & ? & _)])]];
    done.
Qed.

Lemma CONN_plain (n : nat) (b : string) (v : attemptVars) (w : World) :
  protocolVersionExplicit (options (cl w)) = true ∨ protocolVersion v ≠ 4%N →
  cl (CONN n b v w).2 = cl w
  ∧ protocolVersion (CONN n b v w).1.2 = protocolVersion v
  ∧ ∃ tr, log (CONN n b v w).2 = log w ++ tr
          ∧ plainTry b (protocolVersion v) (CONN n b v w).1.1 tr.
Proof.
  intros Hplain. rewrite CONN_no_jump by done.
  cbn [CONN]. rewrite bind_run.
  destruct (tryBroker_cases b v w) as (Hcl & Hcases).
  destruct (tryBroker b v w) as [[k v1] w1]. cbn [fst snd] in *.
  unfold plainTry.
  destruct Hcases as [(-> & Hpv & Hlog)|[(-> & Hpv & Hlog)|(rc & Hrc & Hlog & Hk)]].
  - cbn. split; [done|]. split; [done|]. eexists. split; [done|]. by left.
  - cbn. split; [done|]. split; [done|]. eexists. split; [done|]. right. by right.
  - destruct Hk as [(Hexp & Hpv4 & _)|(_ & -> & Hpv)]; [destruct Hplain; congruence|].
    cbn. split; [done|]. split; [done|]. eexists. split; [done|].
    right. left. eauto.
Qed.

Lemma CONN_first (n : nat) (b : string) (v : attemptVars) (w : World) :
  protocolVersionExplicit (options (cl w)) = false →
  protocolVersion v = 4%N →
  cl (CONN (S n) b v w).2 = cl w
  ∧ ((CONN (S n) b v w).1.1 = false
     ∧ protocolVersion (CONN (S n) b v w).1.2 = 4%N
     ∧ log (CONN (S n) b v w).2 = log w ++ [EvDial b]
     ∨ (CONN (S n) b v w).1.1 = true
       ∧ log (CONN (S n) b v w).2 = log w ++ [EvDial b; EvConnectMQTT b 4 Accepted]
     ∨ ∃ rc tr, rc ≠ Accepted
         ∧ protocolVersion (CONN (S n) b v w).1.2 = 3%N
         ∧ log (CONN (S n) b v w).2
           = log w ++ EvDial b :: EvConnectMQTT b 4 rc :: EvConnClose :: tr
         ∧ plainTry b 3 (CONN (S n) b v w).1.1 tr).
Proof.
  intros Hexp Hpv. cbn [CONN]. rewrite bind_run.
  destruct (tryBroker_cases b v w) as (Hcl & Hcases).
  destruct (tryBroker b v w) as [[k v1] w1]. cbn [fst snd] in *.
  rewrite Hpv in Hcases.
  destruct Hcases as [(-> & Hpv1 & Hlog)|[(-> & Hpv1 & Hlog)|(rc & Hrc & Hlog & Hk)]].
  - cbn. split; [done|]. left. split; [done|]. split; [congruence|done].
  - cbn. split; [done|]. right. left. done.
  - destruct Hk as [(_ & _ & -> & Hpv3)|([?|?] & _)]; [|congruence|done].
    destruct (CONN_plain n b v1 w1) as (Hcl2 & Hpv2 & tr & Hlog2 & Htry).
    { right. by rewrite Hpv3. }
    split; [congruence|]. right. right. exists rc, tr.
    rewrite Hpv3 in *. rewrite Hlog2, Hlog, <- app_assoc. done.
Qed.

Lemma plainTry_dialled (b : string) (pv : N) (broke : bool) (tr : list event) :
  plainTry b pv broke tr →
  dialled tr = [b] ∧ Forall (λ l, l = pv) (levels tr)
  ∧ ∃ tr', tr = EvDial b :: tr' ∧ dialled tr' = [].
Proof.
  intros [(_ & ->)|[(rc & _ & _ & ->)|(_ & ->)]]; cbn;
    (split; [done|]); (split; [by repeat constructor|]); eauto.
Qed.

Lemma dialled_app (l1 l2 : list event) : dialled (l1 ++ l2) = dialled l1 ++ dialled l2.
Proof. apply flat_map_app. Qed.

Lemma levels_app (l1 l2 : list event) : levels (l1 ++ l2) = levels l1 ++ levels l2.
Proof. apply flat_map_app. Qed.

(** Once the level is not 4 (or the version is explicit), every broker is
    dialled at most once, in order, at that level. *)
Lemma rangeBrokers_plain (brokers : list string) (v : attemptVars) (w : World) :
  protocolVersionExplicit (options (cl w)) = true ∨ protocolVersion v ≠ 4%N →
  cl (rangeBrokers brokers v w).2 = cl w
  ∧ ∃ tr, log (rangeBrokers brokers v w).2 = log w ++ tr
          ∧ dialled tr `prefix_of` brokers
          ∧ Forall (λ l, l = protocolVersion v) (levels tr).
Proof.
  revert v w. induction brokers as [|b brokers IH]; intros v w Hplain.
  - cbn. split; [done|]. exists []. rewrite app_nil_r.
    split; [done|]. split; [apply prefix_nil | constructor].
  - cbn [rangeBrokers]. rewrite bind_run.
    destruct (CONN_plain 1 b v w Hplain) as (Hcl & Hpv & tr & Hlog & Htry).
    destruct (CONN 1 b v w) as [[broke v1] w1]. cbn [fst snd] in *.
    destruct (plainTry_dialled _ _ _ _ Htry) as (Hd & Hl & _).
    destruct broke.
    + cbn. split; [done|]. exists tr. rewrite Hd.
      split; [done|]. split; [|done]. by exists brokers.
    + destruct (IH v1 w1) as (Hcl2 & tr2 & Hlog2 & Hd2 & Hl2).
      { rewrite Hcl, Hpv. done. }
      split; [congruence|]. exists (tr ++ tr2).
      rewrite Hlog2, Hlog, app_assoc, dialled_app, levels_app, Hd.
      split; [done|]. split.
      * cbn. by apply prefix_cons.
      * apply Forall_app. split; [done|]. by rewrite <- Hpv.
Qed.

Lemma rangeBrokers_first (brokers : list string) (v : attemptVars) (w : World) :
  protocolVersionExplicit (options (cl w)) = false →
  protocolVersion v = 4%N →
  ∃ failed tr,
    log (rangeBrokers brokers v w).2 = log w ++ map EvDial failed ++ tr
    ∧ (tr = [] ∧ failed = brokers
       ∨ (∃ b, tr = [EvDial b; EvConnectMQTT b 4 Accepted]
               ∧ (failed ++ [b]) `prefix_of` brokers)
       ∨ ∃ b rc rest post,
           rc ≠ Accepted
           ∧ brokers = failed ++ b :: post
           ∧ tr = EvDial b :: EvConnectMQTT b 4 rc :: EvConnClose :: EvDial b :: rest
           ∧ dialled rest `prefix_of` post
           ∧ Forall (λ l, l = 3%N) (levels rest)).
Proof.
  revert v w. induction brokers as [|b brokers IH]; intros v w Hexp Hpv.
  - cbn. exists [], []. rewrite app_nil_r. split; [done|]. by left.
  - cbn [rangeBrokers]. rewrite bind_run.
    destruct (CONN_first 0 b v w Hexp Hpv) as (Hcl & Hcases).
    destruct (CONN 1 b v w) as [[broke v1] w1]. cbn [fst snd] in *.
    destruct Hcases as [(-> & Hpv1 & Hlog)|[(-> & Hlog)|(rc & tr & Hrc & Hpv1 & Hlog & Htry)]].
    + destruct (IH v1 w1) as (failed & tr & Hlog2 & Hshape); [congruence|done|].
      exists (b :: failed), tr. rewrite Hlog2, Hlog, <- app_assoc. split; [done|].
      destruct Hshape as [(-> & ->)|[(b' & -> & Hpre)|(b' & rc & rest & post & ? & -> & -> & ? & ?)]].
      * by left.
      * right. left. exists b'. split; [done|]. cbn. by apply prefix_cons.
      * right. right. exists b', rc, rest, post. done.
    + cbn. exists [], [EvDial b; EvConnectMQTT b 4 Accepted]. split; [done|].
      right. left. exists b. split; [done|]. cbn. apply prefix_cons, prefix_nil.
    + destruct (plainTry_dialled _ _ _ _ Htry) as (Hd & Hl & tr' & -> & Hd').
      change (levels (EvDial b :: tr')) with (levels tr') in Hl.
      destruct broke.
      * cbn. exists [], (EvDial b :: EvConnectMQTT b 4 rc :: EvConnClose :: EvDial b :: tr').
        split; [done|]. right. right. exists b, rc, tr', brokers.
        rewrite Hd'. repeat split; try done. apply prefix_nil.
      * destruct (rangeBrokers_plain brokers v1 w1) as (Hcl2 & tr2 & Hlog2 & Hd2 & Hl2).
        { right. by rewrite Hpv1. }
        exists [], (EvDial b :: EvConnectMQTT b 4 rc :: EvConnClose :: EvDial b :: tr' ++ tr2).
        split.
        { rewrite Hlog2, Hlog, <- app_assoc. done. }
        right. right. exists b, rc, (tr' ++ tr2), brokers.
        rewrite dialled_app, levels_app, Hd'. repeat split; try done.
        apply Forall_app. split; [done|]. by rewrite <- Hpv1.
Qed.

Lemma attemptConnection_log (w : World) :
  log (attemptConnection w).2
  = log (rangeBrokers (Servers (options (cl w)))
           {| protocolVersion := ProtocolVersion (options (cl w));
              aSessionPresent := false; aConn := None; aErr := None; aRC := 0 |} w).2.
Proof.
  unfold attemptConnection. rewrite bind_getClient, bind_run.
  destruct (rangeBrokers _ _ w) as [v w1]. cbn [fst snd].
  repeat case_decide; reflexivity.
Qed.


(** ** The enqueue of the client calls *)

Lemma logged_logged (l1 l2 : list event) (w : World) :
  logged l2 (logged l1 w) = logged (l1 ++ l2) w.
Proof. unfold logged. cbn. by rewrite app_assoc. Qed.

Lemma logged_nil (w : World) : logged [] w = w.
Proof. destruct w. unfold logged. cbn. by rewrite app_nil_r. Qed.

Lemma clientPersistOutbound_run (m : ControlPacket) (w : World) :
  clientPersistOutbound m w
  = (tt, withClient (set_persist (persistOutbound (persist (cl w)) m) (cl w))
           (logged (putEvents m) w)).
Proof.
  unfold clientPersistOutbound, putEvents.
  case_decide; msimpl; [|reflexivity].
  by rewrite logged_nil.
Qed.

Lemma selectSend_run (ch : chan) (p : ControlPacket) (d : time.Duration) (w : World) :
  selectSend ch p d w
  = if taken w
    then (true, logged [EvTimer d; EvSend ch p] (withGateway (tail (gateway w)) w))
    else (false, logged [EvTimer d; EvTimeout ch] (withGateway (tail (gateway w)) w)).
Proof.
  unfold selectSend, taken, logged, withGateway. msimpl.
  destruct (gateway w) as [|[] rest]; msimpl; by rewrite <- app_assoc.
Qed.

Lemma clientGetID_run (t : tokenCompletor) (w : World) :
  clientGetID t w
  = ((getID t (mids (cl w))).1, withClient (set_mids (getID t (mids (cl w))).2 (cl w)) w).
Proof.
  unfold clientGetID. msimpl. by destruct (getID t (mids (cl w))).
Qed.

Lemma scanFree_free (n : nat) (i j : N) (idx : gmap N tokenCompletor) :
  scanFree n i idx = Some j → idx !! j = None.
Proof.
  revert i. induction n as [|n IH]; intros i; cbn [scanFree]; [done|].
  destruct (idx !! i) eqn:Hi; [apply IH|]. by intros [= <-].
Qed.

(** [getID] never hands out an id that is live, and a fresh id is live
    afterwards, next to all the ids that were. *)
Lemma getID_fresh (t : tokenCompletor) (m : messageIds) :
  (getID t m).1 ≠ 0%N →
  index m !! (getID t m).1 = None
  ∧ index (getID t m).2 = <[(getID t m).1 := t]> (index m).
Proof.
  unfold getID.
  destruct (scanFree _ _ _) as [i|] eqn:Hscan; cbn; [|done].
  intros _. split; [|done]. by apply scanFree_free in Hscan.
Qed.

Lemma getID_none (t : tokenCompletor) (m : messageIds) :
  (getID t m).1 = 0%N → index (getID t m).2 = index m ∨ index m !! 0%N = None.
Proof.
  unfold getID.
  destruct (scanFree _ _ _) as [i|] eqn:Hscan; cbn; [|by left].
  intros ->. right. by apply scanFree_free in Hscan.
Qed.

Lemma publishSend_run (pub : PublishPacket) (token : Token) (w : World) :
  publishSend pub token w
  = let w1 := withClient (set_persist (persistOutbound (persist (cl w)) (PublishP pub))
                            (cl w))
                 (logged (putEvents (PublishP pub)) w) in
    if decide (status (cl w) = connecting) then (token, w1)
    else if decide (status (cl w) = reconnecting) then (token, w1)
    else if taken w
         then (token,
               logged [EvTimer (enqueueTimeout (cl w)); EvSend Obound (PublishP pub)]
                 (withGateway (tail (gateway w)) w1))
         else (setError "publish was broken by timeout" token,
               logged [EvTimer (enqueueTimeout (cl w)); EvTimeout Obound]
                 (withGateway (tail (gateway w)) w1)).
Proof.
  unfold publishSend. rewrite bind_run, clientPersistOutbound_run. cbn [fst snd].
  unfold connectionStatus, selectSend, taken, logged, withGateway. msimpl.
  repeat case_decide; try reflexivity.
  destruct (gateway w) as [|[] ?]; msimpl; by rewrite <- !app_assoc.
Qed.

Lemma subscribeSend_run (sub : SubscribePacket) (token : Token) (w : World) :
  subscribeSend sub token w
  = let w1 := withClient (set_persist (persistOutbound (persist (cl w)) (SubscribeP sub))
                            (cl w))
                 (logged (putEvents (SubscribeP sub)) w) in
    if decide (status (cl w) = connecting) then (token, w1)
    else if decide (status (cl w) = reconnecting) then (token, w1)
    else if taken w
         then (token,
               logged [EvTimer (enqueueTimeout (cl w)); EvSend OboundP (SubscribeP sub)]
                 (withGateway (tail (gateway w)) w1))
         else (setError "subscribe was broken by timeout" token,
               logged [EvTimer (enqueueTimeout (cl w)); EvTimeout OboundP]
                 (withGateway (tail (gateway w)) w1)).
Proof.
  unfold subscribeSend. rewrite bind_run, clientPersistOutbound_run. cbn [fst snd].
  unfold connectionStatus, selectSend, taken, logged, withGateway. msimpl.
  repeat case_decide; try reflexivity.
  destruct (gateway w) as [|[] ?]; msimpl; by rewrite <- !app_assoc.
Qed.

(** ** Publish *)

Lemma connectionStatus_run (w : World) : connectionStatus w = (status (cl w), w).
Proof. reflexivity. Qed.

Lemma publishBytes_run (topic : string) (qos : N) (retained : bool)
  (bytes : list byte) (token : Token) (w : World) :
  publishBytes topic qos retained bytes token w
  = if decide (qos = 0%N)
    then publishSend {| Qos := qos; Retain := retained; TopicName := topic;
                        MessageID := 0; Payload := bytes |} token w
    else
      let mID := (getID PublishToken (mids (cl w))).1 in
      let w1 := withClient (set_mids (getID PublishToken (mids (cl w))).2 (cl w)) w in
      if decide (mID = 0%N) then (setError "no message IDs available" token, w1)
      else publishSend {| Qos := qos; Retain := retained; TopicName := topic;
                          MessageID := mID; Payload := bytes |}
                       (set_messageID mID token) w1.
Proof.
  unfold publishBytes, publishPacket, withPayload, withMessageID.
  cbn [Qos MessageID Retain TopicName Payload].
  rewrite (bool_decide_eq_true_2 (0%N = 0%N)) by done. rewrite andb_true_r.
  destruct (decide (qos = 0%N)) as [->|Hq].
  - reflexivity.
  - rewrite bool_decide_eq_true_2 by done.
    rewrite bind_run, clientGetID_run. cbn [fst snd]. by case_decide.
Qed.

Lemma Publish_guarded (topic : string) (qos : N) (retained : bool) (p : payload)
  (w : World) :
  Publish topic qos retained p w
  = if negb (IsConnected w).1 then (setError ErrNotConnected newToken, w)
    else if bool_decide (status (cl w) = reconnecting) && bool_decide (qos = 0%N)
         then (flowComplete newToken, w)
         else match payloadBytes p with
              | Some bytes => publishBytes topic qos retained bytes newToken w
              | None => (setError "unknown payload type" newToken, w)
              end.
Proof.
  unfold Publish. rewrite bind_run, IsConnected_world.
  destruct (IsConnected w).1; cbn [negb]; [|reflexivity].
  rewrite bind_run, connectionStatus_run. cbn [fst snd].
  destruct (bool_decide (status (cl w) = reconnecting) && bool_decide (qos = 0%N));
    [reflexivity|].
  by destruct p.
Qed.

Lemma Publish_run (topic : string) (qos : N) (retained : bool) (p : payload)
  (w : World) :
  (IsConnected w).1 = true →
  ¬ (status (cl w) = reconnecting ∧ qos = 0%N) →
  Publish topic qos retained p w
  = match payloadBytes p with
    | Some bytes => publishBytes topic qos retained bytes newToken w
    | None => (setError "unknown payload type" newToken, w)
    end.
Proof.
  intros Hconn Hguard. rewrite Publish_guarded, Hconn. cbn [negb].
  assert (bool_decide (status (cl w) = reconnecting) && bool_decide (qos = 0%N)
          = false) as ->; [|done].
  apply andb_false_iff.
  destruct (decide (status (cl w) = reconnecting)) as [Hst|Hst].
  - right. apply bool_decide_eq_false_2. intros ?. by apply Hguard.
  - left. by apply bool_decide_eq_false_2.
Qed.

Lemma publishSend_log (pub : PublishPacket) (token : Token) (w : World) :
  ∃ new, log (publishSend pub token w).2 = log w ++ new
         ∧ Forall (carries (TopicName pub) (Payload pub)) new
         ∧ (err (publishSend pub token w).1 = err token
            ∨ err (publishSend pub token w).1 = Some "publish was broken by timeout").
Proof.
  rewrite publishSend_run. cbn zeta.
  assert (Forall (carries (TopicName pub) (Payload pub)) (putEvents (PublishP pub)))
    as Hput.
  { unfold putEvents. case_decide; repeat constructor. }
  repeat case_decide; [| |destruct (taken w)]; cbn.
  - exists (putEvents (PublishP pub)). auto.
  - exists (putEvents (PublishP pub)). auto.
  - eexists. rewrite <- app_assoc. split; [done|]. split; [|by left].
    apply Forall_app. split; [done|]. repeat constructor.
  - eexists. rewrite <- app_assoc. split; [done|]. split; [|by right].
    apply Forall_app. split; [done|]. repeat constructor.
Qed.

Lemma publishBytes_log (topic : string) (qos : N) (retained : bool)
  (bytes : list byte) (w : World) :
  ∃ new,
    log (publishBytes topic qos retained bytes newToken w).2 = log w ++ new
    ∧ Forall (carries topic bytes) new
    ∧ err (publishBytes topic qos retained bytes newToken w).1
      ≠ Some "unknown payload type".
Proof.
  rewrite publishBytes_run. cbn zeta.
  destruct (decide (qos = 0%N)) as [Hq|Hq].
  - destruct (publishSend_log {| Qos := qos; Retain := retained; TopicName := topic;
                                 MessageID := 0; Payload := bytes |} newToken w)
      as (new & Hlog & Hall & Herr).
    exists new. split; [done|]. split; [done|].
    destruct Herr as [-> | ->]; done.
  - destruct (decide ((getID PublishToken (mids (cl w))).1 = 0%N)) as [Hid|Hid].
    + exists []. cbn. rewrite app_nil_r. split; [done|]. split; [constructor|done].
    + match goal with |- context [publishSend ?pub ?tok ?w1] =>
        destruct (publishSend_log pub tok w1) as (new & Hlog & Hall & Herr)
      end.
      exists new. split; [done|]. split; [done|].
      destruct Herr as [-> | ->]; done.
Qed.


(** ** Subscribe and Unsubscribe *)

Lemma addRoutes_loop (topics : list string) (cb : MessageHandler) (w : World) :
  forM_ topics (λ topic,
      emit (EvAddRoute topic);;
      modifyClient (λ c, set_msgRouter (addRoute topic cb (msgRouter c)) c)) w
  = (tt, withClient (set_msgRouter (addRoutes topics cb (msgRouter (cl w))) (cl w))
           (logged (map EvAddRoute topics) w)).
Proof.
  revert w. induction topics as [|topic topics IH]; intros w.
  - destruct w as [[] ? ? ? ?]. unfold logged, withClient. cbn.
    by rewrite app_nil_r.
  - cbn [forM_]. rewrite bind_run, bind_run. cbn [emit modifyClient fst snd].
    rewrite IH. unfold logged, withClient, addRoutes. cbn.
    by rewrite <- app_assoc.
Qed.

Lemma deleteRoutes_loop (topics : list string) (w : World) :
  forM_ topics (λ topic,
      emit (EvDeleteRoute topic);;
      modifyClient (λ c, set_msgRouter (deleteRoute topic (msgRouter c)) c)) w
  = (tt, withClient (set_msgRouter (deleteRoutes topics (msgRouter (cl w))) (cl w))
           (logged (map EvDeleteRoute topics) w)).
Proof.
  revert w. induction topics as [|topic topics IH]; intros w.
  - destruct w as [[] ? ? ? ?]. unfold logged, withClient. cbn.
    by rewrite app_nil_r.
  - cbn [forM_]. rewrite bind_run, bind_run. cbn [emit modifyClient fst snd].
    rewrite IH. unfold logged, withClient, deleteRoutes. cbn.
    by rewrite <- app_assoc.
Qed.

Lemma addRoutes_lookup (topics : list string) (cb : MessageHandler)
  (r : gmap string MessageHandler) (topic : string) :
  addRoutes topics cb r !! topic
  = if decide (topic ∈ topics) then Some cb else r !! topic.
Proof.
  revert r. induction topics as [|t topics IH]; intros r.
  - cbn. by rewrite decide_False by apply not_elem_of_nil.
  - unfold addRoutes in *. cbn [foldl]. rewrite IH.
    destruct (decide (topic ∈ topics)) as [Hin|Hnin].
    + rewrite decide_True; [done|]. by right.
    + unfold addRoute. destruct (decide (t = topic)) as [->|Hne].
      * rewrite lookup_insert_eq. rewrite decide_True; [done|]. by left.
      * rewrite lookup_insert_ne by done.
        rewrite decide_False; [done|].
        rewrite elem_of_cons. intros [?|?]; congruence.
Qed.

Lemma Subscribe_run (topic : string) (qos : N) (callback : option MessageHandler)
  (w : World) :
  (IsConnected w).1 = true →
  (notOpenGuard w).1 = None →
  validateTopicAndQos topic qos = None →
  Subscribe topic qos callback w
  = let w1 := routed (routeTopic topic) callback w in
    let mID := (getID SubscribeToken (mids (cl w1))).1 in
    let token := set_subs [routeTopic topic] newToken in
    if decide (mID = 0%N)
    then (setError "no message IDs available" token, claimed SubscribeToken w1)
    else subscribeSend {| sTopics := [topic]; sQoss := [qos]; sMessageID := mID |}
           (set_messageID mID token) (claimed SubscribeToken w1).
Proof.
  intros Hconn Hguard Hvalid. unfold Subscribe. rewrite bind_run.
  rewrite Hconn, IsConnected_world. cbn [negb].
  rewrite bind_run, Hguard, notOpenGuard_world, Hvalid.
  rewrite bind_run.
  assert ((match callback with
           | Some cb =>
               emit (EvAddRoute (routeTopic topic));;
               modifyClient
                 (λ c, set_msgRouter (addRoute (routeTopic topic) cb (msgRouter c)) c)
           | None => mret ()
           end) w = (tt, routed (routeTopic topic) callback w)) as ->.
  { by destruct callback. }
  cbn [fst snd]. rewrite bind_run, clientGetID_run. cbn [fst snd].
  by case_decide.
Qed.

Lemma SubscribeMultiple_run (filters : gmap string N)
  (callback : option MessageHandler) (subTopics : list string) (subQoss : list N)
  (w : World) :
  (IsConnected w).1 = true →
  (notOpenGuard w).1 = None →
  validateSubscribeMap filters = inl (subTopics, subQoss) →
  SubscribeMultiple filters callback w
  = let w1 := routedAll (map_to_list filters).*1 callback w in
    let mID := (getID SubscribeToken (mids (cl w1))).1 in
    let token := set_subs subTopics newToken in
    if decide (mID = 0%N)
    then (setError "no message IDs available" token, claimed SubscribeToken w1)
    else subscribeSend {| sTopics := subTopics; sQoss := subQoss; sMessageID := mID |}
           (set_messageID mID token) (claimed SubscribeToken w1).
Proof.
  intros Hconn Hguard Hvalid. unfold SubscribeMultiple. rewrite bind_run.
  rewrite Hconn, IsConnected_world. cbn [negb].
  rewrite bind_run, Hguard, notOpenGuard_world, Hvalid.
  rewrite bind_run.
  assert ((match callback with
           | Some cb =>
               forM_ (map_to_list filters).*1 (λ topic,
                 emit (EvAddRoute topic);;
                 modifyClient (λ c, set_msgRouter (addRoute topic cb (msgRouter c)) c))
           | None => mret ()
           end) w = (tt, routedAll (map_to_list filters).*1 callback w)) as ->.
  { destruct callback; [apply addRoutes_loop | reflexivity]. }
  cbn [fst snd]. rewrite bind_run, clientGetID_run. cbn [fst snd].
  by case_decide.
Qed.

Lemma Unsubscribe_run (topics : list string) (w : World) :
  (IsConnected w).1 = true →
  (notOpenGuard w).1 = None →
  Unsubscribe topics w
  = let mID := (getID UnsubscribeToken (mids (cl w))).1 in
    let token := set_messageID mID newToken in
    let unsub := UnsubscribeP {| uTopics := topics; uMessageID := mID |} in
    let w1 := stored unsub (claimed UnsubscribeToken w) in
    if decide (mID = 0%N)
    then (setError "no message IDs available" newToken, claimed UnsubscribeToken w)
    else if decide (status (cl w) = connecting) then (token, w1)
    else if decide (status (cl w) = reconnecting) then (token, w1)
    else if taken w
         then (token,
               withClient
                 (set_msgRouter (deleteRoutes topics (msgRouter (cl w1))) (cl w1))
                 (logged (EvTimer (enqueueTimeout (cl w)) :: EvSend OboundP unsub
                          :: map EvDeleteRoute topics)
                    (withGateway (tail (gateway w)) w1)))
         else (setError "unsubscribe was broken by timeout" token,
               logged [EvTimer (enqueueTimeout (cl w)); EvTimeout OboundP]
                 (withGateway (tail (gateway w)) w1)).
Proof.
  intros Hconn Hguard. unfold Unsubscribe. rewrite bind_run.
  rewrite Hconn, IsConnected_world. cbn [negb].
  rewrite bind_run, Hguard, notOpenGuard_world.
  rewrite bind_run, clientGetID_run. cbn [fst snd].
  case_decide; [reflexivity|].
  rewrite bind_run, clientPersistOutbound_run. cbn [fst snd].
  rewrite bind_run, connectionStatus_run. cbn [fst snd].
  fold (claimed UnsubscribeToken w).
  match goal with |- context [withClient ?c (logged (putEvents ?m) ?w0)] =>
    change (withClient c (logged (putEvents m) w0)) with (stored m w0)
  end.
  change (status (cl (stored _ (claimed UnsubscribeToken w)))) with (status (cl w)).
  repeat case_decide; try reflexivity.
  rewrite bind_getClient, bind_run, selectSend_run.
  change (taken (stored _ (claimed UnsubscribeToken w))) with (taken w).
  destruct (taken w); cbn [fst snd].
  - rewrite bind_run, deleteRoutes_loop. cbn [fst snd].
    unfold mret, M_ret. f_equal.
    unfold withClient, logged, withGateway. cbn. by rewrite <- app_assoc.
  - reflexivity.
Qed.

(** ** The enqueue timeout *)

Lemma putEvents_stored (m : ControlPacket) :
  dQos (details m) ≠ 0%N →
  putEvents m = [EvPut (outboundKeyFromMID (dMessageID (details m))) m]
  ∧ ∀ s, persistOutbound s m
         = store.Put (outboundKeyFromMID (dMessageID (details m))) m s.
Proof.
  intros Hq. unfold putEvents, persistOutbound.
  split; [|intros s]; rewrite decide_False by done; reflexivity.
Qed.

Lemma connected_not_waiting (w : World) :
  status (cl w) = connected →
  status (cl w) ≠ connecting ∧ status (cl w) ≠ reconnecting.
Proof. intros ->. unfold connected, connecting, reconnecting. split; lia. Qed.

(** C5.  While connected, when the receiver does not take the packet
    before the timer fires: the timer is armed with the write timeout, 30
    seconds when that option is 0; the token of a [Publish] with QoS at least
    1 (and of a [Subscribe] or an [Unsubscribe]) is completed with a "broken
    by timeout" error; and the store is what [persistOutbound] made it before
    the enqueue, so it still holds the packet under the outbound key of its
    id. *)
Theorem enqueue_timeout_keeps_packet (w : World) :
  status (cl w) = connected →
  taken w = false →
  enqueueTimeout (cl w)
  = (if decide (WriteTimeout (options (cl w)) = 0%Z) then 30000000000%Z
     else WriteTimeout (options (cl w)))
  ∧ (∀ topic qos retained p bytes,
       qos ≠ 0%N →
       payloadBytes p = Some bytes →
       (getID PublishToken (mids (cl w))).1 ≠ 0%N →
       let mID := (getID PublishToken (mids (cl w))).1 in
       let pub := PublishP {| Qos := qos; Retain := retained; TopicName := topic;
                              MessageID := mID; Payload := bytes |} in
       let r := Publish topic qos retained p w in
       err r.1 = Some "publish was broken by timeout"
       ∧ complete r.1 = true
       ∧ log r.2 = log w ++ [EvPut (outboundKeyFromMID mID) pub;
                             EvTimer (enqueueTimeout (cl w)); EvTimeout Obound]
       ∧ persist (cl r.2) = store.Put (outboundKeyFromMID mID) pub (persist (cl w))
       ∧ store.Get (outboundKeyFromMID mID) (persist (cl r.2)) = Some pub)
  ∧ (∀ topic qos callback,
       validateTopicAndQos topic qos = None →
       (getID SubscribeToken (mids (cl w))).1 ≠ 0%N →
       let mID := (getID SubscribeToken (mids (cl w))).1 in
       let sub := SubscribeP {| sTopics := [topic]; sQoss := [qos];
                                sMessageID := mID |} in
       let r := Subscribe topic qos callback w in
       err r.1 = Some "subscribe was broken by timeout"
       ∧ complete r.1 = true
       ∧ log r.2 = log w
                   ++ match callback with
                      | Some _ => [EvAddRoute (routeTopic topic)]
                      | None => []
                      end
                   ++ [EvPut (outboundKeyFromMID mID) sub;
                       EvTimer (enqueueTimeout (cl w)); EvTimeout OboundP]
       ∧ persist (cl r.2) = store.Put (outboundKeyFromMID mID) sub (persist (cl w))
       ∧ store.Get (outboundKeyFromMID mID) (persist (cl r.2)) = Some sub)
  ∧ (∀ topics,
       (getID UnsubscribeToken (mids (cl w))).1 ≠ 0%N →
       let mID := (getID UnsubscribeToken (mids (cl w))).1 in
       let unsub := UnsubscribeP {| uTopics := topics; uMessageID := mID |} in
       let r := Unsubscribe topics w in
       err r.1 = Some "unsubscribe was broken by timeout"
       ∧ complete r.1 = true
       ∧ log r.2 = log w ++ [EvPut (outboundKeyFromMID mID) unsub;
                             EvTimer (enqueueTimeout (cl w)); EvTimeout OboundP]
       ∧ persist (cl r.2) = store.Put (outboundKeyFromMID mID) unsub (persist (cl w))
       ∧ store.Get (outboundKeyFromMID mID) (persist (cl r.2)) = Some unsub).
Proof.
  intros Hst Htaken.
  destruct (connected_not_waiting w Hst) as (Hnc & Hnr).
  split; [|split; [|split]].
  - unfold enqueueTimeout. by case_decide.
  - intros topic qos retained p bytes Hq Hbytes Hid mID pub r. subst r.
    rewrite Publish_run, Hbytes, publishBytes_run;
      [|by rewrite IsConnected_connected|by rewrite Hst; intros [? _]].
    rewrite decide_False by done. cbn zeta. fold mID.
    rewrite decide_False by done. rewrite publishSend_run. cbn zeta.
    change (status (cl (withClient _ w))) with (status (cl w)).
    change (taken (withClient _ w)) with (taken w).
    rewrite !decide_False, Htaken by done.
    destruct (putEvents_stored pub Hq) as (Hput & Hstore).
    subst pub. cbn [fst snd]. rewrite Hput.
    cbn. rewrite <- app_assoc. repeat split; try done;
      rewrite Hstore; try done; cbn; apply lookup_insert_eq.
  - intros topic qos callback Hvalid Hid mID sub r. subst r.
    rewrite Subscribe_run;
      [|by rewrite IsConnected_connected|by rewrite notOpenGuard_connected|done].
    cbn zeta.
    assert (dQos (details sub) ≠ 0%N) as Hq by done.
    destruct (putEvents_stored sub Hq) as (Hput & Hstore).
    destruct callback as [cb|]; cbn [routed].
    + change (mids (cl (withClient _ _))) with (mids (cl w)). fold mID.
      rewrite decide_False by done. rewrite subscribeSend_run. cbn zeta.
      change (status (cl (claimed _ _))) with (status (cl w)).
      change (taken (claimed _ _)) with (taken w).
      rewrite !decide_False, Htaken by done.
      subst sub. cbn [fst snd]. rewrite Hput.
      cbn. rewrite <- !app_assoc. repeat split; try done;
        rewrite Hstore; try done; cbn; apply lookup_insert_eq.
    + fold mID.
      rewrite decide_False by done. rewrite subscribeSend_run. cbn zeta.
      change (status (cl (claimed _ w))) with (status (cl w)).
      change (taken (claimed _ w)) with (taken w).
      rewrite !decide_False, Htaken by done.
      subst sub. cbn [fst snd]. rewrite Hput.
      cbn. rewrite <- app_assoc. repeat split; try done;
        rewrite Hstore; try done; cbn; apply lookup_insert_eq.
  - intros topics Hid mID unsub r. subst r.
    rewrite Unsubscribe_run;
      [|by rewrite IsConnected_connected|by rewrite notOpenGuard_connected].
    cbn zeta. fold mID.
    rewrite !decide_False, Htaken by done.
    assert (dQos (details unsub) ≠ 0%N) as Hq by done.
    destruct (putEvents_stored unsub Hq) as (Hput & Hstore).
    subst unsub. unfold stored. cbn [fst snd]. rewrite Hput.
    cbn. rewrite <- app_assoc. repeat split; try done;
      rewrite Hstore; try done; cbn; apply lookup_insert_eq.
Qed.

(** ** Routes *)

Lemma Unsubscribe_rejected (topics : list string) (w : World) :
  (IsConnected w).1 = false ∨ is_Some (notOpenGuard w).1 →
  (Unsubscribe topics w).2 = w.
Proof.
  intros Hrej. unfold Unsubscribe. rewrite bind_run, IsConnected_world.
  destruct (IsConnected w).1; cbn [negb]; [|reflexivity].
  destruct Hrej as [?|[e He]]; [done|].
  rewrite bind_run, notOpenGuard_world, He. reflexivity.
Qed.

Lemma putEvents_no_delete (m : ControlPacket) :
  Forall (λ e, isDeleteRoute e = false) (putEvents m).
Proof. unfold putEvents. case_decide; repeat constructor. Qed.

(** C6.  [Unsubscribe] removes routes only after the UNSUBSCRIBE went
    through on the priority channel.  Either the call logs no route removal
    at all and leaves the route table as it was, or its log ends with the
    send of the packet followed by the removals, one per topic; the second
    case needs the receiver to take the packet and a status that is neither
    [connecting] nor [reconnecting].  So on a timeout, and when the packet is
    only stored, the routes remain. *)
Theorem Unsubscribe_deletes_routes_after_enqueue (topics : list string) (w : World) :
  ((∃ new,
      log (Unsubscribe topics w).2 = log w ++ new
      ∧ Forall (λ e, isDeleteRoute e = false) new
      ∧ msgRouter (cl (Unsubscribe topics w).2) = msgRouter (cl w))
   ∨ (∃ pre unsub,
        log (Unsubscribe topics w).2
        = log w ++ pre ++ EvSend OboundP (UnsubscribeP unsub)
                   :: map EvDeleteRoute topics
        ∧ Forall (λ e, isDeleteRoute e = false) pre
        ∧ uTopics unsub = topics
        ∧ msgRouter (cl (Unsubscribe topics w).2)
          = deleteRoutes topics (msgRouter (cl w))
        ∧ taken w = true
        ∧ status (cl w) ≠ connecting
        ∧ status (cl w) ≠ reconnecting))
  ∧ (taken w = false ∨ status (cl w) = connecting ∨ status (cl w) = reconnecting →
     msgRouter (cl (Unsubscribe topics w).2) = msgRouter (cl w)
     ∧ Forall (λ e, isDeleteRoute e = false)
         (drop (length (log w)) (log (Unsubscribe topics w).2))).
Proof.
  assert ((∃ new,
      log (Unsubscribe topics w).2 = log w ++ new
      ∧ Forall (λ e, isDeleteRoute e = false) new
      ∧ msgRouter (cl (Unsubscribe topics w).2) = msgRouter (cl w))
   ∨ (∃ pre unsub,
        log (Unsubscribe topics w).2
        = log w ++ pre ++ EvSend OboundP (UnsubscribeP unsub)
                   :: map EvDeleteRoute topics
        ∧ Forall (λ e, isDeleteRoute e = false) pre
        ∧ uTopics unsub = topics
        ∧ msgRouter (cl (Unsubscribe topics w).2)
          = deleteRoutes topics (msgRouter (cl w))
        ∧ taken w = true
        ∧ status (cl w) ≠ connecting
        ∧ status (cl w) ≠ reconnecting)) as Hshape.
  { destruct (IsConnected w).1 eqn:Hconn.
    2:{ left. exists []. rewrite Unsubscribe_rejected by (by left).
        rewrite app_nil_r. by repeat split. }
    destruct (notOpenGuard w).1 as [e|] eqn:Hguard.
    { left. exists []. rewrite Unsubscribe_rejected by (right; by rewrite Hguard).
      rewrite app_nil_r. by repeat split. }
    rewrite Unsubscribe_run by done. cbn zeta.
    pose proof (putEvents_no_delete
                  (UnsubscribeP {| uTopics := topics;
                                   uMessageID := (getID UnsubscribeToken
                                                    (mids (cl w))).1 |})) as Hput.
    set (unsub := {| uTopics := topics;
                     uMessageID := (getID UnsubscribeToken (mids (cl w))).1 |}) in *.
    destruct (decide ((getID UnsubscribeToken (mids (cl w))).1 = 0%N)).
    { left. exists []. unfold claimed. proj_simpl.
      rewrite app_nil_r. by repeat split. }
    destruct (decide (status (cl w) = connecting)).
    { left. exists (putEvents (UnsubscribeP unsub)).
      unfold stored, claimed, logged. proj_simpl. by repeat split. }
    destruct (decide (status (cl w) = reconnecting)).
    { left. exists (putEvents (UnsubscribeP unsub)).
      unfold stored, claimed, logged. proj_simpl. by repeat split. }
    destruct (taken w) eqn:Htaken.
    - right.
      exists (putEvents (UnsubscribeP unsub) ++ [EvTimer (enqueueTimeout (cl w))]), unsub.
      unfold stored, claimed, logged, withGateway. proj_simpl.
      split; [by rewrite <- !app_assoc|]. split; [|done].
      apply Forall_app. split; [done|]. by repeat constructor.
    - left.
      exists (putEvents (UnsubscribeP unsub)
              ++ [EvTimer (enqueueTimeout (cl w)); EvTimeout OboundP]).
      unfold stored, claimed, logged, withGateway. proj_simpl.
      split; [by rewrite <- !app_assoc|]. split; [|done].
      apply Forall_app. split; [done|]. by repeat constructor. }
  split; [exact Hshape|].
  intros Hnot.
  destruct Hshape as [(new & Hlog & Hnew & Hroutes)|(pre & unsub & _ & _ & _ & _ & Ht & Hc & Hr)].
  - split; [done|]. by rewrite Hlog, drop_app_length.
  - destruct Hnot as [?|[?|?]]; congruence.
Qed.

Lemma subscribeSend_router (sub : SubscribePacket) (token : Token) (w : World) :
  msgRouter (cl (subscribeSend sub token w).2) = msgRouter (cl w).
Proof.
  rewrite subscribeSend_run. cbn zeta.
  repeat case_decide; try reflexivity. by destruct (taken w).
Qed.

Lemma elem_of_keys (filters : gmap string N) (topic : string) :
  topic ∈ (map_to_list filters).*1 ↔ is_Some (filters !! topic).
Proof.
  rewrite list_elem_of_fmap. split.
  - intros ([k x] & -> & Hin). apply elem_of_map_to_list in Hin. by exists x.
  - intros [x Hx]. exists (topic, x). split; [done|]. by apply elem_of_map_to_list.
Qed.

(** C9.  [SubscribeMultiple] with a callback enters each key of the filter
    map into the route table as it stands: afterwards a topic maps to the
    callback exactly when it is a key of the map, and every other topic maps
    to what it mapped to before.  [Subscribe] instead enters the topic with
    its "$share/<group>/" or "$queue/" prefix cut off. *)
Theorem SubscribeMultiple_routes_as_supplied (filters : gmap string N)
  (cb : MessageHandler) (subTopics : list string) (subQoss : list N) (w : World) :
  (IsConnected w).1 = true →
  (notOpenGuard w).1 = None →
  validateSubscribeMap filters = inl (subTopics, subQoss) →
  (∀ topic,
     msgRouter (cl (SubscribeMultiple filters (Some cb) w).2) !! topic
     = if decide (is_Some (filters !! topic)) then Some cb
       else msgRouter (cl w) !! topic)
  ∧ (∀ topic qos,
       validateTopicAndQos topic qos = None →
       msgRouter (cl (Subscribe topic qos (Some cb) w).2)
       = <[routeTopic topic := cb]> (msgRouter (cl w))).
Proof.
  intros Hconn Hguard Hvalid. split.
  - intros topic.
    rewrite (SubscribeMultiple_run _ _ _ _ _ Hconn Hguard Hvalid). cbn zeta.
    assert (∀ w1 (r : Token * World),
              r = (if decide ((getID SubscribeToken (mids (cl w1))).1 = 0%N)
                   then (setError "no message IDs available"
                           (set_subs subTopics newToken), claimed SubscribeToken w1)
                   else subscribeSend
                          {| sTopics := subTopics; sQoss := subQoss;
                             sMessageID := (getID SubscribeToken (mids (cl w1))).1 |}
                          (set_messageID (getID SubscribeToken (mids (cl w1))).1
                             (set_subs subTopics newToken))
                          (claimed SubscribeToken w1)) →
              msgRouter (cl r.2) = msgRouter (cl w1)) as Hrest.
    { intros w1 r ->. case_decide; [done|]. by rewrite subscribeSend_router. }
    rewrite (Hrest _ _ eq_refl). cbn [routedAll withClient cl msgRouter set_msgRouter].
    rewrite addRoutes_lookup.
    destruct (decide (topic ∈ (map_to_list filters).*1)) as [Hin|Hnin].
    + by rewrite decide_True by by apply elem_of_keys.
    + rewrite decide_False; [done|]. by rewrite <- elem_of_keys.
  - intros topic qos Hvalid1.
    rewrite (Subscribe_run _ _ _ _ Hconn Hguard Hvalid1). cbn zeta.
    case_decide; [done|]. by rewrite subscribeSend_router.
Qed.

(** ** Reserved ids *)

Lemma claimID_live (t : tokenCompletor) (id : N) (m : messageIds) :
  is_Some (index (claimID t id m).2 !! id)
  ∧ ∀ j, is_Some (index m !! j) → is_Some (index (claimID t id m).2 !! j).
Proof.
  unfold claimID. destruct (index m !! id) as [t0|] eqn:Hid; cbn.
  - split; [by rewrite Hid|done].
  - split; [by rewrite lookup_insert_eq|].
    intros j Hj. rewrite lookup_insert. by case_decide.
Qed.

Lemma reserveStep_mono (st : Store) (m : messageIds) (key : StoreKey) (j : N) :
  is_Some (index m !! j) → is_Some (index (reserveStep st m key) !! j).
Proof.
  intros Hj. unfold reserveStep.
  destruct (store.Get key st) as [[p| | | | |]|]; try done.
  by apply claimID_live.
Qed.

Lemma reserve_fold_mono (st : Store) (keys : list StoreKey) (m : messageIds) (j : N) :
  is_Some (index m !! j) → is_Some (index (foldl (reserveStep st) m keys) !! j).
Proof.
  revert m. induction keys as [|key keys IH]; intros m Hj; [done|].
  cbn [foldl]. by apply IH, reserveStep_mono.
Qed.

Lemma reserve_fold_covers (st : Store) (keys : list StoreKey) (m : messageIds)
  (key : StoreKey) (p : PublishPacket) :
  key ∈ keys →
  store.Get key st = Some (PublishP p) →
  is_Some (index (foldl (reserveStep st) m keys) !! MessageID p).
Proof.
  revert m. induction keys as [|k keys IH]; intros m Hin Hget.
  - by apply not_elem_of_nil in Hin.
  - cbn [foldl]. apply elem_of_cons in Hin as [<-|Hin].
    + apply reserve_fold_mono. unfold reserveStep. rewrite Hget.
      apply (proj1 (claimID_live _ _ _)).
    + by apply IH.
Qed.

Lemma Get_in_All (st : Store) (key : StoreKey) (m : ControlPacket) :
  store.Get key st = Some m → key ∈ store.All st.
Proof.
  unfold store.Get, store.All. intros Hget.
  apply list_elem_of_fmap. exists (key, m). split; [done|].
  by apply elem_of_map_to_list.
Qed.

Lemma nextID_pos (i : N) : (1 ≤ nextID i)%N.
Proof. unfold nextID, midMin. case_decide; lia. Qed.

Lemma scanFree_pos (n : nat) (i j : N) (idx : gmap N tokenCompletor) :
  (1 ≤ i)%N → scanFree n i idx = Some j → (1 ≤ j)%N.
Proof.
  revert i. induction n as [|n IH]; intros i Hi; cbn [scanFree]; [done|].
  destruct (idx !! i); [apply IH, nextID_pos|]. by intros [= <-].
Qed.

(** When no id is free, [getID] answers 0 and leaves the registry alone. *)
Lemma getID_zero (t : tokenCompletor) (m : messageIds) :
  (getID t m).1 = 0%N → (getID t m).2 = m.
Proof.
  unfold getID.
  destruct (scanFree _ _ _) as [i|] eqn:Hscan; cbn; [|done].
  intros ->. apply scanFree_pos in Hscan; [lia | apply nextID_pos].
Qed.

(** [Publish] keeps every stored PUBLISH id live, and the id it allocates,
    if any, is none of them. *)
Lemma Publish_keeps_reserved (topic : string) (qos : N) (retained : bool)
  (p : payload) (w : World) :
  storedPublishIDsReserved (cl w) →
  storedPublishIDsReserved (cl (Publish topic qos retained p w).2)
  ∧ ∀ key q,
      store.Get key (persist (cl w)) = Some (PublishP q) →
      messageID (Publish topic qos retained p w).1 ≠ 0%N →
      messageID (Publish topic qos retained p w).1 ≠ MessageID q.
Proof.
  intros Hinv. rewrite Publish_guarded.
  destruct (negb (IsConnected w).1); [done|].
  destruct (_ && _); [done|].
  destruct (payloadBytes p) as [bytes|]; [|done].
  rewrite publishBytes_run. cbn zeta.
  destruct (decide (qos = 0%N)) as [Hq|Hq].
  { rewrite publishSend_run. cbn zeta.
    assert (persistOutbound (persist (cl w))
              (PublishP {| Qos := qos; Retain := retained; TopicName := topic;
                           MessageID := 0; Payload := bytes |}) = persist (cl w))
      as Hsame.
    { unfold persistOutbound. by rewrite decide_True. }
    repeat case_decide; [| |destruct (taken w)]; cbn; rewrite ?Hsame; done. }
  destruct (decide ((getID PublishToken (mids (cl w))).1 = 0%N)) as [Hid|Hid].
  { cbn. rewrite (getID_zero _ _ Hid). done. }
  destruct (getID_fresh PublishToken (mids (cl w)) Hid) as (Hfree & Hidx).
  set (mID := (getID PublishToken (mids (cl w))).1) in *.
  rewrite publishSend_run. cbn zeta.
  assert (storedPublishIDsReserved
            (set_persist
               (persistOutbound (persist (cl w))
                  (PublishP {| Qos := qos; Retain := retained; TopicName := topic;
                               MessageID := mID; Payload := bytes |}))
               (set_mids (getID PublishToken (mids (cl w))).2 (cl w)))) as Hinv'.
  { intros key q Hget. cbn [mids persist set_persist set_mids] in *.
    rewrite Hidx, lookup_insert. case_decide; [done|].
    unfold persistOutbound in Hget. rewrite decide_False in Hget by done.
    unfold store.Get, store.Put in Hget. cbn [content] in Hget.
    rewrite lookup_insert in Hget. case_decide as Hkey.
    - injection Hget as <-. done.
    - by apply (Hinv key q). }
  assert (∀ key q, store.Get key (persist (cl w)) = Some (PublishP q) →
                   mID ≠ MessageID q) as Hsteal.
  { intros key q Hget ->. destruct (Hinv key q Hget) as [? Hlive]. congruence. }
  change (status (cl (withClient _ w))) with (status (cl w)).
  change (taken (withClient _ w)) with (taken w).
  repeat case_decide; [| |destruct (taken w)]; cbn;
    (split; [exact Hinv' | intros key q Hget _; by apply (Hsteal key q)]).
Qed.

(** With connect-retry off, a [Publish] in the connecting state is turned
    down. *)
Lemma Publish_connecting_without_retry (topic : string) (qos : N) (retained : bool)
  (p : payload) (w : World) :
  status (cl w) = connecting →
  ConnectRetry (options (cl w)) = false →
  Publish topic qos retained p w = (setError ErrNotConnected newToken, w).
Proof.
  intros Hst Hretry. rewrite Publish_guarded.
  unfold IsConnected. rewrite bind_getClient, Hst, Hretry.
  rewrite decide_False by done.
  rewrite bool_decide_eq_false_2 by (unfold connecting; lia).
  by rewrite andb_false_r.
Qed.

(** C1 (as amended).  A [Connect] that passes the guard with connect-retry
    enabled and clean-session off leaves, before the worker is started, the
    id of every PUBLISH held in the store live in the registry; the store
    itself is only opened.  A [Publish] made in the connecting state that
    follows is therefore never given the id of a stored PUBLISH, and it keeps
    those ids live. *)
Theorem Connect_reserves_stored_publish_ids (w : World) :
  status (cl w) = disconnected →
  ConnectRetry (options (cl w)) = true →
  CleanSession (options (cl w)) = false →
  (Connect w).1.2 = true
  ∧ status (cl (Connect w).2) = connecting
  ∧ content (persist (cl (Connect w).2)) = content (persist (cl w))
  ∧ storedPublishIDsReserved (cl (Connect w).2)
  ∧ ∀ topic qos retained p,
      storedPublishIDsReserved (cl (Publish topic qos retained p (Connect w).2).2)
      ∧ ∀ key q,
          store.Get key (persist (cl (Connect w).2)) = Some (PublishP q) →
          messageID (Publish topic qos retained p (Connect w).2).1 ≠ 0%N →
          messageID (Publish topic qos retained p (Connect w).2).1 ≠ MessageID q.
Proof.
  intros Hst Hretry Hclean.
  rewrite Connect_past_guard by (by right). cbn [fst snd].
  assert (storedPublishIDsReserved (cl (afterConnect w))) as Hinv.
  { intros key q Hget. unfold afterConnect, reservedIDs in *.
    rewrite Hretry, Hclean. cbn in *.
    eapply reserve_fold_covers; [|exact Hget]. by eapply Get_in_All. }
  repeat split; try done.
  - by apply Publish_keeps_reserved.
  - by apply Publish_keeps_reserved.
Qed.

(** * Further properties of client.go *)

(** ** Creation and the connection predicates *)

(** X1.  [NewClient] settles the protocol version: it is one of 3, 4, 0x83
    and 0x84 afterwards, explicit exactly when the option was one of these
    four, and 4 (not explicit) for every other value of the option.  The new
    client is disconnected, with no connection and no live id. *)
Theorem NewClient_protocol_version (o : ClientOptions) (st : option Store) :
  status (NewClient o st) = disconnected
  ∧ conn (NewClient o st) = None
  ∧ index (mids (NewClient o st)) = ∅
  ∧ (protocolVersionExplicit (options (NewClient o st)) = true
     ∧ ProtocolVersion (options (NewClient o st)) = ProtocolVersion o
     ∧ (ProtocolVersion o = 3%N ∨ ProtocolVersion o = 4%N
        ∨ ProtocolVersion o = 131%N ∨ ProtocolVersion o = 132%N)
     ∨ protocolVersionExplicit (options (NewClient o st)) = false
       ∧ ProtocolVersion (options (NewClient o st)) = 4%N
       ∧ ProtocolVersion o ≠ 3%N ∧ ProtocolVersion o ≠ 4%N
       ∧ ProtocolVersion o ≠ 131%N ∧ ProtocolVersion o ≠ 132%N).
Proof.
  unfold NewClient. cbn [status conn mids index options ProtocolVersion
                         protocolVersionExplicit].
  repeat split.
  destruct (bool_decide _) eqn:Hexp.
  - left. apply bool_decide_eq_true_1 in Hexp. done.
  - right. apply bool_decide_eq_false_1 in Hexp.
    repeat split; try done; intros ?; apply Hexp; auto.
Qed.

Lemma IsConnected_disconnected (w : World) :
  status (cl w) = disconnected → IsConnected w = (false, w).
Proof.
  intros Hst. unfold IsConnected. rewrite bind_getClient, Hst.
  rewrite decide_False by (unfold connected, disconnected; lia).
  rewrite (bool_decide_eq_false_2 (connecting < disconnected)%N)
    by (unfold connecting, disconnected; lia).
  rewrite (bool_decide_eq_false_2 (disconnected = connecting))
    by (unfold connecting, disconnected; lia).
  by rewrite !andb_false_r.
Qed.

(** X2.  [IsConnected] by state: never in [disconnected]; in [connecting]
    exactly when connect-retry is on; in [reconnecting] exactly when
    auto-reconnect is on; always in [connected].  So an open connection
    ([IsConnectionOpen]) is always reported as connected. *)
Theorem IsConnected_by_state (w : World) :
  (status (cl w) = disconnected → (IsConnected w).1 = false)
  ∧ (status (cl w) = connecting →
     (IsConnected w).1 = ConnectRetry (options (cl w)))
  ∧ (status (cl w) = reconnecting →
     (IsConnected w).1 = AutoReconnect (options (cl w)))
  ∧ (status (cl w) = connected → (IsConnected w).1 = true)
  ∧ ((IsConnectionOpen w).1 = true → (IsConnected w).1 = true)
  ∧ (IsConnected w).2 = w.
Proof.
  split; [by intros Hst; rewrite IsConnected_disconnected|].
  split.
  { intros Hst. unfold IsConnected. rewrite bind_getClient, Hst.
    rewrite decide_False by (unfold connected, connecting; lia).
    rewrite (bool_decide_eq_false_2 (connecting < connecting)%N) by lia.
    rewrite andb_false_r, bool_decide_eq_true_2 by done.
    by destruct (ConnectRetry _). }
  split.
  { intros Hst. unfold IsConnected. rewrite bind_getClient, Hst.
    rewrite decide_False by (unfold connected, reconnecting; lia).
    rewrite (bool_decide_eq_true_2 (connecting < reconnecting)%N)
      by (unfold connecting, reconnecting; lia).
    rewrite (bool_decide_eq_false_2 (reconnecting = connecting))
      by (unfold connecting, reconnecting; lia).
    destruct (AutoReconnect _); [done|]. cbn. by rewrite andb_false_r. }
  split; [by intros Hst; rewrite IsConnected_connected|].
  split; [|apply IsConnected_world].
  intros Hopen. rewrite IsConnected_connected; [done|].
  unfold IsConnectionOpen in Hopen. rewrite bind_getClient in Hopen.
  by case_decide.
Qed.

(** ** Connect outside the disconnected state *)

(** X3.  With connect-retry on, [Connect] on a client that is not
    disconnected does nothing: the world is unchanged (the store is not
    opened, no worker is started) and the token is already complete, with
    return code Accepted and no error. *)
Theorem Connect_while_up (w : World) :
  ConnectRetry (options (cl w)) = true →
  status (cl w) ≠ disconnected →
  ∃ t,
    Connect w = ((t, false), w)
    ∧ complete t = true ∧ err t = None ∧ returnCode t = Accepted.
Proof.
  intros Hretry Hst. unfold Connect. rewrite bind_getClient, Hretry.
  rewrite bool_decide_eq_true_2 by done. cbn [andb].
  eexists. split; [reflexivity|]. done.
Qed.

(** X4.  With connect-retry off there is no guard: [Connect] opens the
    store, moves the client to [connecting] and starts a worker whatever the
    status was, a connected client included; it reserves no id and leaves the
    connection field as it was. *)
Theorem Connect_without_retry_restarts (w : World) :
  ConnectRetry (options (cl w)) = false →
  (Connect w).1.2 = true
  ∧ status (cl (Connect w).2) = connecting
  ∧ opened (persist (cl (Connect w).2)) = true
  ∧ content (persist (cl (Connect w).2)) = content (persist (cl w))
  ∧ mids (cl (Connect w).2) = mids (cl w)
  ∧ conn (cl (Connect w).2) = conn (cl w)
  ∧ log (Connect w).2 = log w ++ [EvStoreOpen].
Proof.
  intros Hretry. rewrite Connect_past_guard by (by left).
  unfold afterConnect, reservedIDs. rewrite Hretry. done.
Qed.

(** ** Disconnect *)

Lemma set_conn_None (c : client) : conn c = None → set_conn None c = c.
Proof. destruct c. cbn. by intros ->. Qed.

Lemma disconnect_run (w : World) :
  disconnect w
  = (tt, withClient
           (set_persist (store.Close (persist (cl w)))
              (set_mids (cleanUp (mids (cl w))) (set_conn None (cl w))))
           (logged (tearDownEvents (cl w)) w)).
Proof.
  unfold disconnect, stopCommsWorkers, tearDownEvents, logged, withClient.
  msimpl. destruct (conn (cl w)) eqn:Hconn; msimpl.
  - by rewrite <- app_assoc.
  - by rewrite (set_conn_None _ Hconn).
Qed.

Lemma Disconnect_run (quiesce : N) (w : World) :
  Disconnect quiesce w
  = (tt, withClient (torn (cl w))
           (logged ((if decide (status (cl w) = connected)
                     then [EvSend OboundP DisconnectP] else [])
                    ++ tearDownEvents (cl w)) w)).
Proof.
  unfold Disconnect. rewrite bind_run, connectionStatus_run. cbn [fst snd].
  rewrite bind_run.
  case_decide.
  - rewrite bind_run. cbn [setConnected modifyClient emit fst snd].
    rewrite disconnect_run. unfold torn, logged, withClient, tearDownEvents.
    cbn. by rewrite <- app_assoc.
  - cbn [setConnected modifyClient fst snd].
    rewrite disconnect_run. reflexivity.
Qed.

(** X5.  [Disconnect] ends, from every state, with the client
    disconnected, no connection, no live id and the store closed (its content
    kept); routes and options are kept.  The DISCONNECT packet is sent on
    the priority channel exactly when the status was [connected], and before
    the connection is closed. *)
Theorem Disconnect_end_state (quiesce : N) (w : World) :
  status (cl (Disconnect quiesce w).2) = disconnected
  ∧ conn (cl (Disconnect quiesce w).2) = None
  ∧ index (mids (cl (Disconnect quiesce w).2)) = ∅
  ∧ opened (persist (cl (Disconnect quiesce w).2)) = false
  ∧ content (persist (cl (Disconnect quiesce w).2)) = content (persist (cl w))
  ∧ msgRouter (cl (Disconnect quiesce w).2) = msgRouter (cl w)
  ∧ options (cl (Disconnect quiesce w).2) = options (cl w)
  ∧ log (Disconnect quiesce w).2
    = log w
      ++ (if decide (status (cl w) = connected)
          then [EvSend OboundP DisconnectP] else [])
      ++ match conn (cl w) with Some _ => [EvConnClose] | None => [] end
      ++ [EvStoreClose].
Proof.
  rewrite Disconnect_run. cbn. repeat split.
  unfold tearDownEvents. by destruct (conn (cl w)).
Qed.

Lemma Subscribe_not_connected (topic : string) (qos : N)
  (callback : option MessageHandler) (w : World) :
  (IsConnected w).1 = false →
  Subscribe topic qos callback w = (setError ErrNotConnected newToken, w).
Proof.
  intros Hconn. unfold Subscribe. by rewrite bind_run, IsConnected_world, Hconn.
Qed.

Lemma SubscribeMultiple_not_connected (filters : gmap string N)
  (callback : option MessageHandler) (w : World) :
  (IsConnected w).1 = false →
  SubscribeMultiple filters callback w = (setError ErrNotConnected newToken, w).
Proof.
  intros Hconn. unfold SubscribeMultiple.
  by rewrite bind_run, IsConnected_world, Hconn.
Qed.

Lemma Unsubscribe_not_connected (topics : list string) (w : World) :
  (IsConnected w).1 = false →
  Unsubscribe topics w = (setError ErrNotConnected newToken, w).
Proof.
  intros Hconn. unfold Unsubscribe. by rewrite bind_run, IsConnected_world, Hconn.
Qed.

Lemma Publish_not_connected (topic : string) (qos : N) (retained : bool)
  (p : payload) (w : World) :
  (IsConnected w).1 = false →
  Publish topic qos retained p w = (setError ErrNotConnected newToken, w).
Proof. intros Hconn. by rewrite Publish_guarded, Hconn. Qed.

(** X6.  After [Disconnect], whatever the state before, every [Publish],
    [Subscribe], [SubscribeMultiple] and [Unsubscribe] is turned down with
    the error "not Connected" and changes nothing: no id is claimed, nothing
    is stored, routed or sent. *)
Theorem calls_after_Disconnect (quiesce : N) (w : World) (topic : string) (qos : N)
  (retained : bool) (p : payload) (callback : option MessageHandler)
  (filters : gmap string N) (topics : list string) :
  Publish topic qos retained p (Disconnect quiesce w).2
  = (setError ErrNotConnected newToken, (Disconnect quiesce w).2)
  ∧ Subscribe topic qos callback (Disconnect quiesce w).2
    = (setError ErrNotConnected newToken, (Disconnect quiesce w).2)
  ∧ SubscribeMultiple filters callback (Disconnect quiesce w).2
    = (setError ErrNotConnected newToken, (Disconnect quiesce w).2)
  ∧ Unsubscribe topics (Disconnect quiesce w).2
    = (setError ErrNotConnected newToken, (Disconnect quiesce w).2).
Proof.
  assert ((IsConnected (Disconnect quiesce w).2).1 = false) as Hconn.
  { rewrite IsConnected_disconnected; [done|]. by rewrite Disconnect_run. }
  split; [by apply Publish_not_connected|].
  split; [by apply Subscribe_not_connected|].
  split; [by apply SubscribeMultiple_not_connected|].
  by apply Unsubscribe_not_connected.
Qed.

(** X7.  [forceDisconnect] does nothing when [IsConnected] is false (so
    also in [connecting] without connect-retry, and in [reconnecting] without
    auto-reconnect).  Otherwise it leaves the client exactly as [Disconnect]
    does, and sends no DISCONNECT packet: it logs the tear-down only. *)
Theorem forceDisconnect_spec (w : World) :
  if (IsConnected w).1
  then cl (forceDisconnect w).2 = cl (Disconnect 0 w).2
       ∧ log (forceDisconnect w).2 = log w ++ tearDownEvents (cl w)
  else forceDisconnect w = (tt, w).
Proof.
  unfold forceDisconnect. rewrite bind_run, IsConnected_world.
  destruct (IsConnected w).1; cbn [negb]; [|reflexivity].
  rewrite bind_run. cbn [setConnected modifyClient fst snd].
  rewrite disconnect_run, Disconnect_run. done.
Qed.

(** ** Loss of the connection *)

Lemma internalConnLost_idle (w : World) :
  status (cl w) = disconnected ∨ conn (cl w) = None →
  internalConnLost w = (false, w).
Proof.
  intros Hidle. unfold internalConnLost. rewrite bind_getClient.
  case_decide as Hst; [|reflexivity].
  destruct Hidle as [?|Hconn]; [done|].
  unfold stopCommsWorkers. rewrite bind_run, bind_getClient, Hconn. reflexivity.
Qed.

Lemma internalConnLost_conn (w : World) : 
  status (cl w) = disconnected ∨ conn (cl (internalConnLost w).2) = None.
Proof.
  destruct (decide (status (cl w) = disconnected)) as [?|Hst]; [by left|].
  right. destruct (conn (cl w)) as [k|] eqn:Hconn.
  - unfold internalConnLost, stopCommsWorkers. rewrite bind_getClient.
    rewrite decide_True by done.
    rewrite bind_run, bind_getClient, Hconn. msimpl.
    destruct (CleanSession (options (cl w))), (AutoReconnect (options (cl w)));
      msimpl; done.
  - rewrite internalConnLost_idle by (by right). done.
Qed.

(** X8.  [internalConnLost] is idempotent: called again on the world it
    leaves, it reports that no worker was started and changes nothing.  On a
    disconnected client, or when the comms workers are not running, already
    the first call changes nothing. *)
Theorem internalConnLost_idempotent (w : World) :
  internalConnLost (internalConnLost w).2 = (false, (internalConnLost w).2)
  ∧ (status (cl w) = disconnected ∨ conn (cl w) = None →
     internalConnLost w = (false, w)).
Proof.
  split; [|apply internalConnLost_idle].
  destruct (internalConnLost_conn w) as [Hst|Hconn].
  - rewrite (internalConnLost_idle w) by (by left).
    cbn [snd]. apply internalConnLost_idle. by left.
  - apply internalConnLost_idle. by right.
Qed.

(** X9.  When the connection is lost with the workers running and the
    client not disconnected: the connection is closed and dropped and the
    store stays open and untouched.  With auto-reconnect the client goes to
    [reconnecting] and keeps every live id (clean session or not), and the
    reconnect worker is started; without it the client goes to
    [disconnected], and the ids are dropped exactly when the session is
    clean. *)
Theorem internalConnLost_outcome (w : World) (k : Conn) :
  status (cl w) ≠ disconnected →
  conn (cl w) = Some k →
  conn (cl (internalConnLost w).2) = None
  ∧ persist (cl (internalConnLost w).2) = persist (cl w)
  ∧ log (internalConnLost w).2 = log w ++ [EvConnClose]
  ∧ (internalConnLost w).1 = AutoReconnect (options (cl w))
  ∧ status (cl (internalConnLost w).2)
    = (if AutoReconnect (options (cl w)) then reconnecting else disconnected)
  ∧ mids (cl (internalConnLost w).2)
    = (if CleanSession (options (cl w)) && negb (AutoReconnect (options (cl w)))
       then cleanUp (mids (cl w)) else mids (cl w)).
Proof.
  intros Hst Hconn.
  unfold internalConnLost, stopCommsWorkers. rewrite bind_getClient.
  rewrite decide_True by done.
  rewrite bind_run, bind_getClient, Hconn. msimpl.
  destruct (CleanSession (options (cl w))), (AutoReconnect (options (cl w)));
    msimpl; done.
Qed.

(** ** More on [attemptConnection] *)

#[local] Instance netOnly_preorder : PreOrder netOnly.
Proof.
  split.
  - intros w. by repeat split.
  - intros w1 w2 w3 (? & ? & ?) (? & ? & ?). repeat split; congruence.
Qed.

Lemma netOnly_emit (e : event) : frames netOnly (emit e).
Proof. intros w. by repeat split. Qed.

Lemma netOnly_nextDial : frames netOnly nextDial.
Proof. intros w. unfold nextDial. by destruct (net w). Qed.

Ltac frames_net :=
  repeat first
    [ apply frames_ret; solve [typeclasses eauto]
    | apply frames_getClient; solve [typeclasses eauto]
    | apply netOnly_nextDial
    | apply netOnly_emit
    | apply frames_bind; [typeclasses eauto | | intros ?]
    | case_match
    | case_decide ].

Lemma netOnly_tryBroker (broker : string) (v : attemptVars) :
  frames netOnly (tryBroker broker v).
Proof. unfold tryBroker, Detour, ConnectMQTT. frames_net. Qed.

Lemma netOnly_CONN (n : nat) (broker : string) (v : attemptVars) :
  frames netOnly (CONN n broker v).
Proof.
  revert v. induction n as [|n IH]; intros v; cbn [CONN];
    (apply frames_bind; [typeclasses eauto | apply netOnly_tryBroker | intros [k v1]]);
    frames_net. apply IH.
Qed.

Lemma netOnly_rangeBrokers (brokers : list string) (v : attemptVars) :
  frames netOnly (rangeBrokers brokers v).
Proof.
  revert v. induction brokers as [|b brokers IH]; intros v; cbn [rangeBrokers].
  - frames_net.
  - apply frames_bind; [typeclasses eauto | apply netOnly_CONN | intros [broke v1]].
    frames_net. apply IH.
Qed.

(** a nil error goes with every accepted return code *)
Lemma tryBroker_vars (b : string) (v : attemptVars) (w : World) :
  aRC (tryBroker b v w).1.2 = Accepted → aErr (tryBroker b v w).1.2 = None.
Proof.
  unfold tryBroker, Detour, ConnectMQTT. msimpl.
  destruct (net w) as [|[e|k] rest]; msimpl; cbn [from_option]; try done.
  repeat (case_decide || case_match); msimpl; done.
Qed.

Lemma CONN_vars (n : nat) (b : string) (v : attemptVars) (w : World) :
  aRC (CONN n b v w).1.2 = Accepted → aErr (CONN n b v w).1.2 = None.
Proof.
  revert v w. induction n as [|n IH]; intros v w; cbn [CONN]; rewrite bind_run;
    pose proof (tryBroker_vars b v w) as Hvars;
    destruct (tryBroker b v w) as [[[] v1] w1]; cbn [fst snd] in *; try done.
  apply IH.
Qed.

Lemma rangeBrokers_vars (brokers : list string) (v : attemptVars) (w : World) :
  (aRC v = Accepted → aErr v = None) →
  aRC (rangeBrokers brokers v w).1 = Accepted →
  aErr (rangeBrokers brokers v w).1 = None.
Proof.
  revert v w. induction brokers as [|b brokers IH]; intros v w Hv; [done|].
  cbn [rangeBrokers]. rewrite bind_run.
  pose proof (CONN_vars 1 b v w) as Hvars.
  destruct (CONN 1 b v w) as [[[] v1] w1]; cbn [fst snd] in *; [done|].
  by apply IH.
Qed.

Lemma attemptConnection_run (w : World) :
  attemptConnection w
  = let r := rangeBrokers (Servers (options (cl w))) (attemptStart (cl w)) w in
    if decide (aRC r.1 = Accepted) then
      ((aConn r.1, aRC r.1, aSessionPresent r.1, aErr r.1),
       withClient
         (set_options (lockProtocolVersion (protocolVersion r.1) (options (cl r.2)))
            (cl r.2)) r.2)
    else if decide (aRC r.1 ≠ ErrNetworkError) then
      ((aConn r.1, aRC r.1, aSessionPresent r.1, ConnErrors (aRC r.1)), r.2)
    else
      ((aConn r.1, aRC r.1, aSessionPresent r.1,
        Some (fmt_s (ConnErrors (aRC r.1)) +:+ " : " +:+ fmt_s (aErr r.1))), r.2).
Proof.
  unfold attemptConnection, attemptStart. rewrite bind_getClient, bind_run.
  cbn zeta. destruct (rangeBrokers _ _ w) as [v w1]. cbn [fst snd].
  repeat case_decide; reflexivity.
Qed.

Lemma attemptConnection_outcome (w : World) :
  gateway (attemptConnection w).2 = gateway w
  ∧ user (attemptConnection w).2 = user w
  ∧ (attemptRC (attemptConnection w).1 = Accepted →
     attemptErr (attemptConnection w).1 = None
     ∧ ∃ pv, cl (attemptConnection w).2
             = set_options (lockProtocolVersion pv (options (cl w))) (cl w))
  ∧ (attemptRC (attemptConnection w).1 ≠ Accepted →
     cl (attemptConnection w).2 = cl w
     ∧ (attemptRC (attemptConnection w).1 = ErrNetworkError →
        is_Some (attemptErr (attemptConnection w).1))
     ∧ (attemptRC (attemptConnection w).1 ≠ ErrNetworkError →
        attemptErr (attemptConnection w).1
        = ConnErrors (attemptRC (attemptConnection w).1))).
Proof.
  rewrite attemptConnection_run. cbn zeta.
  pose proof (netOnly_rangeBrokers (Servers (options (cl w))) (attemptStart (cl w)) w)
    as (Hcl & Hgw & Hus).
  pose proof (rangeBrokers_vars (Servers (options (cl w))) (attemptStart (cl w)) w
                (λ _, eq_refl)) as Hvars.
  destruct (rangeBrokers _ _ w) as [v w1]. cbn [fst snd] in *.
  unfold attemptRC, attemptErr.
  repeat case_decide; cbn [fst snd withClient gateway user cl];
    (split; [done|]); (split; [done|]); split; try done.
  all: intros _.
  all: try (split; [by apply Hvars|]; rewrite Hcl; by eexists).
  all: split; [done|]; split; [intros ?; by eexists | done].
Qed.

(** X10.  What [attemptConnection] reports.  With return code Accepted the
    error is nil and the protocol version is locked (explicit from then on);
    with any other return code the client is left as it was, the error is
    never nil for the network-error code, and for every other code it is the
    entry of the table of connection errors for that code, nil when the table
    has none. *)
Theorem attemptConnection_result (w : World) :
  (attemptRC (attemptConnection w).1 = Accepted →
   attemptErr (attemptConnection w).1 = None
   ∧ protocolVersionExplicit (options (cl (attemptConnection w).2)) = true
   ∧ settings (options (cl (attemptConnection w).2)) = settings (options (cl w)))
  ∧ (attemptRC (attemptConnection w).1 ≠ Accepted →
     cl (attemptConnection w).2 = cl w
     ∧ (attemptRC (attemptConnection w).1 = ErrNetworkError →
        is_Some (attemptErr (attemptConnection w).1))
     ∧ (attemptRC (attemptConnection w).1 ≠ ErrNetworkError →
        attemptErr (attemptConnection w).1
        = ConnErrors (attemptRC (attemptConnection w).1))).
Proof.
  destruct (attemptConnection_outcome w) as (_ & _ & Hacc & Hrej).
  split; [|exact Hrej].
  intros Hrc. destruct (Hacc Hrc) as (Herr & pv & ->). done.
Qed.

(** X11.  With an empty server list [attemptConnection] dials nothing and
    yet reports success: return code Accepted, nil error, nil connection; and
    it locks the protocol version at its current value. *)
Theorem attemptConnection_no_servers (w : World) :
  Servers (options (cl w)) = [] →
  attemptConnection w
  = ((None, Accepted, false, None),
     withClient
       (set_options
          (lockProtocolVersion (ProtocolVersion (options (cl w))) (options (cl w)))
          (cl w)) w).
Proof.
  intros Hservers. rewrite attemptConnection_run, Hservers. reflexivity.
Qed.

Lemma attemptConnection_plain (w : World) :
  protocolVersionExplicit (options (cl w)) = true →
  ∃ tr, log (attemptConnection w).2 = log w ++ tr
        ∧ dialled tr `prefix_of` Servers (options (cl w))
        ∧ Forall (λ l, l = ProtocolVersion (options (cl w))) (levels tr).
Proof.
  intros Hexp. rewrite attemptConnection_log.
  destruct (rangeBrokers_plain (Servers (options (cl w)))
              {| protocolVersion := ProtocolVersion (options (cl w));
                 aSessionPresent := false; aConn := None; aErr := None; aRC := 0 |}
              w) as (_ & tr & ? & ? & ?); [by left|].
  by exists tr.
Qed.

(** X12.  With an explicit protocol version there is no fallback: in one
    attempt every broker is dialled at most once, in list order, and every
    handshake is made at the configured level. *)
Theorem attemptConnection_explicit_no_fallback (w : World) :
  protocolVersionExplicit (options (cl w)) = true →
  ∃ tr, log (attemptConnection w).2 = log w ++ tr
        ∧ dialled tr `prefix_of` Servers (options (cl w))
        ∧ Forall (λ l, l = ProtocolVersion (options (cl w))) (levels tr).
Proof. apply attemptConnection_plain. Qed.


Lemma tryBroker_down (b : string) (v : attemptVars) (w : World) :
  networkDown w →
  (tryBroker b v w).1.1 = Continue
  ∧ aRC (tryBroker b v w).1.2 = ErrNetworkError
  ∧ aConn (tryBroker b v w).1.2 = None
  ∧ is_Some (aErr (tryBroker b v w).1.2)
  ∧ log (tryBroker b v w).2 = log w ++ [EvDial b]
  ∧ networkDown (tryBroker b v w).2.
Proof.
  unfold networkDown, tryBroker, Detour. msimpl.
  destruct (net w) as [|[e|k] rest]; msimpl; intros Hdown.
  - by repeat split.
  - apply Forall_cons in Hdown as (_ & Hrest). by repeat split.
  - by apply Forall_cons in Hdown as ([] & _).
Qed.

Lemma rangeBrokers_down (brokers : list string) (v : attemptVars) (w : World) :
  networkDown w →
  brokers ≠ [] →
  aRC (rangeBrokers brokers v w).1 = ErrNetworkError
  ∧ aConn (rangeBrokers brokers v w).1 = None
  ∧ is_Some (aErr (rangeBrokers brokers v w).1)
  ∧ log (rangeBrokers brokers v w).2 = log w ++ map EvDial brokers.
Proof.
  revert v w. induction brokers as [|b brokers IH]; intros v w Hdown Hne; [done|].
  cbn [rangeBrokers CONN]. rewrite !bind_run.
  destruct (tryBroker_down b v w Hdown) as (Hk & Hrc & Hconn & Herr & Hlog & Hdown1).
  destruct (tryBroker b v w) as [[k v1] w1]. cbn [fst snd] in *. subst k.
  cbn [mret M_ret fst snd].
  destruct brokers as [|b2 brokers].
  - cbn. by rewrite Hlog.
  - destruct (IH v1 w1 Hdown1) as (? & ? & ? & Hlog2); [done|].
    rewrite Hlog2, Hlog, <- app_assoc. done.
Qed.

(** X14.  When the network is down (every dial fails), one attempt dials
    every broker of the list exactly once, in order, and makes no handshake;
    with a server list that is not empty it reports the network-error code
    with an error that is not nil and no connection, and leaves the client
    as it was. *)
Theorem attemptConnection_network_down (w : World) :
  networkDown w →
  Servers (options (cl w)) ≠ [] →
  log (attemptConnection w).2 = log w ++ map EvDial (Servers (options (cl w)))
  ∧ attemptRC (attemptConnection w).1 = ErrNetworkError
  ∧ is_Some (attemptErr (attemptConnection w).1)
  ∧ (attemptConnection w).1.1.1.1 = None
  ∧ cl (attemptConnection w).2 = cl w.
Proof.
  intros Hdown Hne.
  pose proof (netOnly_rangeBrokers (Servers (options (cl w))) (attemptStart (cl w)) w)
    as (Hcl & _ & _).
  destruct (rangeBrokers_down _ (attemptStart (cl w)) w Hdown Hne)
    as (Hrc & Hconn & Herr & Hlog).
  rewrite attemptConnection_run. cbn zeta.
  destruct (rangeBrokers _ _ w) as [v w1]. cbn [fst snd] in *.
  rewrite Hrc. unfold attemptRC, attemptErr.
  rewrite decide_False by done. rewrite decide_False by (intros Hn; by apply Hn).
  cbn. by repeat split.
Qed.

(** ** The worker of [Connect] *)

Lemma Sleep_quiet (d : time.Duration) (w : World) :
  interrupted w = false → Sleep d w = (tt, slept d w).
Proof.
  unfold interrupted, Sleep, slept, nextUser, emit. munfold. cbn.
  by destruct (user w) as [|[] rest].
Qed.

Lemma Sleep_interrupted (d : time.Duration) (w : World) :
  interrupted w = true → Sleep d w = Disconnect 0 (slept d w).
Proof.
  unfold interrupted, Sleep, slept, nextUser, emit. munfold. cbn.
  by destruct (user w) as [|[] rest].
Qed.

#[local] Instance sameLink_preorder : PreOrder sameLink.
Proof.
  split.
  - intros w. by repeat split.
  - intros w1 w2 w3 (? & ? & ? & ? & ? & ?) (? & ? & ? & ? & ? & ?).
    repeat split; congruence.
Qed.

Lemma sameLink_emit (e : event) : frames sameLink (emit e).
Proof. intros w. by repeat split. Qed.

Lemma sameLink_clientClaimID (t : tokenCompletor) (id : N) :
  frames sameLink (clientClaimID t id).
Proof. intros w. by repeat split. Qed.

Lemma sameLink_persistDel (k : StoreKey) : frames sameLink (persistDel k).
Proof. intros w. by repeat split. Qed.

Lemma sameLink_resume (subscription : bool) : frames sameLink (resume subscription).
Proof.
  unfold resume.
  repeat first
    [ apply frames_ret; solve [typeclasses eauto]
    | apply frames_getClient; solve [typeclasses eauto]
    | apply sameLink_emit | apply sameLink_clientClaimID | apply sameLink_persistDel
    | apply frames_bind; [typeclasses eauto | | intros ?]
    | apply frames_forM_; [typeclasses eauto | intros ?]
    | case_match ].
Qed.

(** a failed attempt leaves the client and the user's script alone *)
Lemma attemptConnection_failed (e : error) (w : World) :
  attemptErr (attemptConnection w).1 = Some e →
  cl (attemptConnection w).2 = cl w
  ∧ user (attemptConnection w).2 = user w
  ∧ sleeps (log (attemptConnection w).2) = sleeps (log w).
Proof.
  intros Herr.
  destruct (attemptConnection_outcome w) as (_ & Hus & Hacc & Hrej).
  pose proof (calm_attemptConnection w) as (_ & _ & Hsl).
  destruct (decide (attemptRC (attemptConnection w).1 = Accepted)) as [Hrc|Hrc].
  - destruct (Hacc Hrc) as (Hnone & _). congruence.
  - by destruct (Hrej Hrc) as (-> & _).
Qed.

(** X15.  The worker of [Connect] without connect-retry: when the
    attempt fails the worker finishes at once, without sleeping; the token
    carries the attempt's error and return code, the return code is saved,
    the status is back to [disconnected] and the store is closed. *)
Theorem connect_worker_fails_without_retry (t : Token) (e : error) (w : World) :
  ConnectRetry (options (cl w)) = false →
  attemptErr (attemptConnection w).1 = Some e →
  ∃ t',
    (RETRYCONN t w).1 = Done t'
    ∧ complete t' = true
    ∧ err t' = Some e
    ∧ returnCode t' = attemptRC (attemptConnection w).1
    ∧ InitialRC (cl (RETRYCONN t w).2) = attemptRC (attemptConnection w).1
    ∧ status (cl (RETRYCONN t w).2) = disconnected
    ∧ opened (persist (cl (RETRYCONN t w).2)) = false
    ∧ content (persist (cl (RETRYCONN t w).2)) = content (persist (cl w))
    ∧ sleeps (log (RETRYCONN t w).2) = sleeps (log w).
Proof.
  intros Hretry Herr.
  destruct (attemptConnection_failed e w Herr) as (Hcl & _ & Hsl).
  unfold RETRYCONN. rewrite bind_run. unfold attemptRC, attemptErr in *.
  destruct (attemptConnection w) as [[[[k rc] sp] err0] w1]. cbn [fst snd] in *.
  subst err0. msimpl. rewrite Hcl, Hretry. msimpl.
  eexists. split; [reflexivity|]. cbn. repeat split.
  unfold sleeps in *. rewrite flat_map_app, Hsl. cbn. by rewrite app_nil_r.
Qed.

Lemma RETRYCONN_again (t : Token) (e : error) (w : World) :
  ConnectRetry (options (cl w)) = true →
  attemptErr (attemptConnection w).1 = Some e →
  status (cl w) = connecting →
  interrupted w = false →
  ∃ t',
    (RETRYCONN t w).1 = Again t'
    ∧ complete t' = complete t
    ∧ err t' = err t
    ∧ cl (RETRYCONN t w).2
      = set_InitialRC (attemptRC (attemptConnection w).1) (cl w)
    ∧ user (RETRYCONN t w).2 = tail (user w)
    ∧ sleeps (log (RETRYCONN t w).2)
      = sleeps (log w) ++ [ConnectRetryInterval (options (cl w))].
Proof.
  intros Hretry Herr Hst Hquiet.
  destruct (attemptConnection_failed e w Herr) as (Hcl & Hus & Hsl).
  unfold RETRYCONN. rewrite bind_run. unfold attemptRC, attemptErr in *.
  destruct (attemptConnection w) as [[[[k rc] sp] err0] w1]. cbn [fst snd] in *.
  subst err0. rewrite bind_run. cbn [modifyClient fst snd].
  rewrite bind_getClient. cbn [withClient cl]. rewrite Hcl. cbn [options set_InitialRC].
  rewrite Hretry. rewrite !bind_run.
  rewrite Sleep_quiet by (unfold interrupted in *; cbn; by rewrite Hus).
  unfold slept. msimpl. rewrite Hst, bool_decide_true by done. msimpl.
  eexists. split; [reflexivity|]. cbn. rewrite Hus. repeat split.
  unfold sleeps in *. rewrite flat_map_app, Hsl. done.
Qed.

(** X16.  The worker of [Connect] with connect-retry: after a failed
    attempt, with the client still [connecting] and no [Disconnect] during
    the sleep, the worker sleeps exactly the connect-retry interval and goes
    back to RETRYCONN with a token that is still pending; apart from the
    saved return code the client is as before (store open, ids kept). *)
Theorem connect_worker_retries (t : Token) (e : error) (w : World) :
  ConnectRetry (options (cl w)) = true →
  attemptErr (attemptConnection w).1 = Some e →
  status (cl w) = connecting →
  interrupted w = false →
  ∃ t',
    (RETRYCONN t w).1 = Again t'
    ∧ complete t' = complete t
    ∧ err t' = err t
    ∧ cl (RETRYCONN t w).2
      = set_InitialRC (attemptRC (attemptConnection w).1) (cl w)
    ∧ sleeps (log (RETRYCONN t w).2)
      = sleeps (log w) ++ [ConnectRetryInterval (options (cl w))].
Proof.
  intros Hretry Herr Hst Hquiet.
  destruct (RETRYCONN_again t e w Hretry Herr Hst Hquiet)
    as (t' & ? & ? & ? & ? & _ & ?).
  by exists t'.
Qed.

(** X17.  A [Disconnect] during the retry sleep ends the worker of
    [Connect]: it makes no further attempt, the token completes with the
    error of the failed attempt, and the client is left disconnected, with
    no connection, no live id and the store closed. *)
Theorem connect_worker_interrupted (t : Token) (e : error) (w : World) :
  ConnectRetry (options (cl w)) = true →
  attemptErr (attemptConnection w).1 = Some e →
  interrupted w = true →
  ∃ t',
    (RETRYCONN t w).1 = Done t'
    ∧ complete t' = true
    ∧ err t' = Some e
    ∧ status (cl (RETRYCONN t w).2) = disconnected
    ∧ conn (cl (RETRYCONN t w).2) = None
    ∧ index (mids (cl (RETRYCONN t w).2)) = ∅
    ∧ opened (persist (cl (RETRYCONN t w).2)) = false
    ∧ sleeps (log (RETRYCONN t w).2)
      = sleeps (log w) ++ [ConnectRetryInterval (options (cl w))].
Proof.
  intros Hretry Herr Hint.
  destruct (attemptConnection_failed e w Herr) as (Hcl & Hus & Hsl).
  unfold RETRYCONN. rewrite bind_run. unfold attemptRC, attemptErr in *.
  destruct (attemptConnection w) as [[[[k rc] sp] err0] w1]. cbn [fst snd] in *.
  subst err0. rewrite bind_run. cbn [modifyClient fst snd].
  rewrite bind_getClient. cbn [withClient cl]. rewrite Hcl. cbn [options set_InitialRC].
  rewrite Hretry. rewrite !bind_run.
  rewrite Sleep_interrupted by (unfold interrupted in *; cbn; by rewrite Hus).
  rewrite Disconnect_run.
  unfold slept, torn, logged. msimpl. rewrite bool_decide_false by done. msimpl.
  eexists. split; [reflexivity|]. cbn. repeat split.
  unfold sleeps in *. rewrite !flat_map_app, Hsl. unfold tearDownEvents.
  case_decide; destruct (conn _); cbn; by rewrite ?app_nil_r.
Qed.

(** a successful attempt leaves the link and the store alone *)
Lemma attemptConnection_keeps (w : World) :
  status (cl (attemptConnection w).2) = status (cl w)
  ∧ conn (cl (attemptConnection w).2) = conn (cl w)
  ∧ persist (cl (attemptConnection w).2) = persist (cl w)
  ∧ mids (cl (attemptConnection w).2) = mids (cl w)
  ∧ msgRouter (cl (attemptConnection w).2) = msgRouter (cl w)
  ∧ InitialRC (cl (attemptConnection w).2) = InitialRC (cl w)
  ∧ settings (options (cl (attemptConnection w).2)) = settings (options (cl w))
  ∧ user (attemptConnection w).2 = user w
  ∧ sleeps (log (attemptConnection w).2) = sleeps (log w).
Proof.
  destruct (attemptConnection_outcome w) as (_ & Hus & Hacc & Hrej).
  pose proof (calm_attemptConnection w) as (_ & _ & Hsl).
  destruct (decide (attemptRC (attemptConnection w).1 = Accepted)) as [Hrc|Hrc].
  - destruct (Hacc Hrc) as (_ & pv & ->). by repeat split.
  - destruct (Hrej Hrc) as (-> & _). by repeat split.
Qed.



Lemma RETRYCONN_Again_inv (t t' : Token) (w w' : World) :
  RETRYCONN t w = (Again t', w') →
  sleeps (log w') = sleeps (log w) ++ [ConnectRetryInterval (options (cl w))]
  ∧ ConnectRetryInterval (options (cl w')) = ConnectRetryInterval (options (cl w))
  ∧ ConnectRetry (options (cl w)) = true
  ∧ status (cl w') = connecting.
Proof.
  unfold RETRYCONN. rewrite bind_run.
  destruct (attemptConnection_keeps w) as (_ & _ & _ & _ & _ & _ & Hset & _ & Hsl).
  destruct (attemptConnection w) as [[[[k rc] sp] e] w1]. cbn [fst snd] in *.
  rewrite bind_run. cbn [modifyClient fst snd].
  destruct e as [e|].
  - rewrite bind_getClient. cbn [withClient cl options set_InitialRC].
    assert (ConnectRetry (options (cl w1)) = ConnectRetry (options (cl w))
            ∧ ConnectRetryInterval (options (cl w1))
              = ConnectRetryInterval (options (cl w))) as (Hretry & Hint).
    { unfold settings in Hset. by injection Hset as ?. }
    rewrite Hretry, Hint.
    destruct (ConnectRetry (options (cl w))); [|by msimpl].
    rewrite !bind_run.
    match goal with |- context [Sleep ?d ?w0] =>
      pose proof (Sleep_sleeps d w0) as Hsl2;
      pose proof (keepsRC_Sleep d w0) as (_ & Hset2);
      destruct (Sleep d w0) as [[] w2]
    end.
    cbn [fst snd withClient cl log options set_InitialRC] in *.
    unfold getClient. cbn [mret M_ret fst snd].
    case_bool_decide as Hst; cbn [mret M_ret]; [|by msimpl].
    intros [= <- <-]. rewrite Hsl2, Hsl. split; [done|]. split; [|done].
    unfold settings in Hset2. injection Hset2 as ?. congruence.
  - rewrite bind_run.
    destruct (startCommsWorkers k _) as [started w2]. cbn [fst snd].
    rewrite bind_getClient, bind_run.
    by destruct (_ w2) as [[] w3].
Qed.

(** X20.  The worker of [Connect] does not back off: as long as it keeps
    retrying, every sleep between two attempts is the connect-retry interval,
    so after n passes that all went back to RETRYCONN it has slept n times
    that interval. *)
Theorem connect_worker_constant_interval (n : nat) (t : Token) (w : World) :
  (connectRetries n t w).1 = None →
  sleeps (log (connectRetries n t w).2)
  = sleeps (log w) ++ replicate n (ConnectRetryInterval (options (cl w))).
Proof.
  revert t w. induction n as [|n IH]; intros t w; cbn [connectRetries replicate].
  - intros _. by rewrite app_nil_r.
  - rewrite bind_run.
    destruct (RETRYCONN t w) as [[t'|t'] w1] eqn:Hpass; cbn [fst snd]; [|discriminate].
    apply RETRYCONN_Again_inv in Hpass as (Hsl & Hint & _).
    intros Hloop. rewrite (IH _ _ Hloop), Hsl, Hint, <- app_assoc. reflexivity.
Qed.

(** ** More on [reconnect] *)

Lemma reconnectTurn_run (sleep : time.Duration) (w : World) :
  reconnectTurn sleep w
  = let r := attemptConnection (announced w) in
    match attemptErr r.1 with
    | None => (Done r.1.1.1.1, r.2)
    | Some _ =>
        let w' := (Sleep sleep r.2).2 in
        if decide (status (cl w') = disconnected) then (Done r.1.1.1.1, w')
        else (Again (nextSleep sleep (MaxReconnectInterval (options (cl w')))), w')
    end.
Proof.
  unfold reconnectTurn, announced, logged. rewrite bind_getClient, bind_run.
  assert (∀ w0 : World,
            {| cl := cl w0; net := net w0; gateway := gateway w0; user := user w0;
               log := log w0 |} = w0) as Heta by (by intros []).
  replace ((if OnReconnecting (options (cl w)) then emit EvOnReconnecting else mret ())
             w).2
    with (if OnReconnecting (options (cl w))
          then {| cl := cl w; net := net w; gateway := gateway w; user := user w;
                  log := log w ++ [EvOnReconnecting] |}
          else w)
    by (by destruct (OnReconnecting (options (cl w)))).
  rewrite bind_run. cbn zeta. unfold attemptErr.
  destruct (attemptConnection _) as [[[[k rc] sp] e] w1]. cbn [fst snd].
  destruct e as [e|]; [|reflexivity].
  rewrite bind_run. destruct (Sleep sleep w1) as [[] w2]. cbn [fst snd].
  rewrite bind_getClient. by case_decide.
Qed.



(** ** More on the client calls *)

Lemma set_persist_id (c : client) : set_persist (persist c) c = c.
Proof. by destruct c. Qed.

Lemma stored_qos0 (m : ControlPacket) (w : World) :
  dQos (details m) = 0%N → stored m w = w.
Proof.
  intros Hq. unfold stored, persistOutbound, putEvents.
  rewrite !decide_True by done.
  by rewrite logged_nil, set_persist_id, withClient_id.
Qed.

Lemma publishSend_stored (pub : PublishPacket) (token : Token) (w : World) :
  status (cl w) = connecting ∨ status (cl w) = reconnecting →
  publishSend pub token w = (token, stored (PublishP pub) w).
Proof.
  intros Hst. rewrite publishSend_run. cbn zeta. unfold stored.
  destruct Hst as [Hst|Hst]; rewrite Hst; repeat case_decide; done.
Qed.

(** X23.  A [Publish] with QoS 0 never claims a message id and never
    writes to the store; its token has id 0.  While the client is not yet
    connected nothing at all happens: when reconnecting the token is
    completed at once, and when connecting (with connect-retry) the token is
    left pending although the message is neither stored nor sent. *)
Theorem Publish_qos0 (topic : string) (retained : bool) (p : payload) (w : World) :
  mids (cl (Publish topic 0 retained p w).2) = mids (cl w)
  ∧ persist (cl (Publish topic 0 retained p w).2) = persist (cl w)
  ∧ messageID (Publish topic 0 retained p w).1 = 0%N
  ∧ ((status (cl w) < connected)%N → (Publish topic 0 retained p w).2 = w)
  ∧ (status (cl w) = reconnecting → (IsConnected w).1 = true →
     (Publish topic 0 retained p w).1 = flowComplete newToken)
  ∧ (status (cl w) = connecting → (IsConnected w).1 = true →
     is_Some (payloadBytes p) →
     (Publish topic 0 retained p w).1 = newToken).
Proof.
  rewrite Publish_guarded.
  destruct (IsConnected w).1 eqn:Hconn; cbn [negb].
  2: { repeat split; try done. }
  destruct (decide (status (cl w) = reconnecting)) as [Hre|Hre].
  { rewrite bool_decide_eq_true_2 by done. cbn. repeat split; try done.
    intros Hst. rewrite Hre in Hst. discriminate. }
  rewrite (bool_decide_eq_false_2 _ Hre). cbn [andb].
  destruct (payloadBytes p) as [bytes|].
  2: { repeat split; try done; by intros _ _ []. }
  rewrite publishBytes_run, decide_True by done.
  set (pub := {| Qos := 0; Retain := retained; TopicName := topic; MessageID := 0;
                 Payload := bytes |}).
  destruct (decide (status (cl w) = connecting)) as [Hcg|Hcg].
  { rewrite publishSend_stored by by left.
    rewrite stored_qos0 by done. repeat split; done. }
  rewrite publishSend_run. cbn zeta.
  fold (stored (PublishP pub) w). rewrite stored_qos0 by done.
  rewrite !decide_False by done.
  assert (¬ (status (cl w) < connected)%N) as Hnlt.
  { unfold IsConnected in Hconn. revert Hconn. msimpl.
    unfold connected, connecting, reconnecting in *.
    repeat case_decide; try done; try lia.
    destruct (AutoReconnect _); cbn [andb].
    - case_bool_decide; [lia|]. destruct (ConnectRetry _); cbn [andb];
        [case_bool_decide|]; done.
    - destruct (ConnectRetry _); cbn [andb]; [case_bool_decide|]; done. }
  destruct (taken w); cbn; repeat split; done.
Qed.

Lemma Publish_queued (topic : string) (qos : N) (retained : bool) (p : payload)
  (bytes : list byte) (w : World) :
  (IsConnected w).1 = true →
  status (cl w) = connecting ∨ status (cl w) = reconnecting →
  qos ≠ 0%N →
  payloadBytes p = Some bytes →
  (getID PublishToken (mids (cl w))).1 ≠ 0%N →
  let mID := (getID PublishToken (mids (cl w))).1 in
  let pub := PublishP {| Qos := qos; Retain := retained; TopicName := topic;
                         MessageID := mID; Payload := bytes |} in
  let r := Publish topic qos retained p w in
  r.1 = set_messageID mID newToken
  ∧ log r.2 = log w ++ [EvPut (outboundKeyFromMID mID) pub]
  ∧ store.Get (outboundKeyFromMID mID) (persist (cl r.2)) = Some pub
  ∧ index (mids (cl r.2)) !! mID = Some PublishToken.
Proof.
  intros Hconn Hst Hq Hp Hid. cbn zeta.
  rewrite Publish_run, Hp, publishBytes_run; [|done|].
  2: { intros (_ & ?). done. }
  rewrite decide_False by done. cbn zeta. rewrite decide_False by done.
  rewrite publishSend_stored by done.
  destruct (getID_fresh PublishToken (mids (cl w)) Hid) as (_ & Hidx).
  unfold stored, persistOutbound, putEvents. cbn [details dQos dMessageID Qos MessageID].
  rewrite !decide_False by done. cbn.
  rewrite Hidx, !lookup_insert_eq. done.
Qed.


(** X25.  Calls made while connected whose packet the pump takes in
    time: [Publish] with QoS 1 or 2 writes the packet to the store and then
    sends it on the ordinary channel; [Subscribe] first installs the route,
    then stores the packet and sends it on the priority channel.  The
    SUBSCRIBE packet carries the topic as the caller gave it, while the route
    and the token use the topic with its share or queue prefix cut off.  Both
    tokens are pending and carry the claimed id. *)
Theorem calls_sent_when_connected (w : World) :
  status (cl w) = connected →
  taken w = true →
  (∀ topic qos retained p bytes,
     qos ≠ 0%N →
     payloadBytes p = Some bytes →
     (getID PublishToken (mids (cl w))).1 ≠ 0%N →
     let mID := (getID PublishToken (mids (cl w))).1 in
     let pub := PublishP {| Qos := qos; Retain := retained; TopicName := topic;
                            MessageID := mID; Payload := bytes |} in
     let r := Publish topic qos retained p w in
     r.1 = set_messageID mID newToken
     ∧ log r.2 = log w ++ [EvPut (outboundKeyFromMID mID) pub;
                           EvTimer (enqueueTimeout (cl w)); EvSend Obound pub])
  ∧ (∀ topic qos cb,
       validateTopicAndQos topic qos = None →
       (getID SubscribeToken (mids (cl w))).1 ≠ 0%N →
       let mID := (getID SubscribeToken (mids (cl w))).1 in
       let sub := SubscribeP {| sTopics := [topic]; sQoss := [qos];
                                sMessageID := mID |} in
       let r := Subscribe topic qos (Some cb) w in
       r.1 = set_messageID mID (set_subs [routeTopic topic] newToken)
       ∧ log r.2 = log w ++ [EvAddRoute (routeTopic topic);
                             EvPut (outboundKeyFromMID mID) sub;
                             EvTimer (enqueueTimeout (cl w)); EvSend OboundP sub]).
Proof.
  intros Hst Htaken.
  pose proof (IsConnected_connected w Hst) as Hconn.
  pose proof (notOpenGuard_connected w Hst) as Hguard.
  split.
  - intros topic qos retained p bytes Hq Hp Hid. cbn zeta.
    rewrite Publish_run, Hp, publishBytes_run; [|by rewrite Hconn|].
    2: { intros (Hre & _). rewrite Hst in Hre. discriminate. }
    rewrite decide_False by done. cbn zeta. rewrite decide_False by done.
    rewrite publishSend_run. cbn zeta.
    unfold taken in *. cbn [withClient cl status set_mids gateway].
    rewrite Hst, Htaken. rewrite !(decide_False (P := connected = _)) by done.
    unfold putEvents. cbn [details dQos dMessageID Qos MessageID].
    rewrite decide_False by done. cbn. by rewrite <- app_assoc.
  - intros topic qos cb Hvalid Hid. cbn zeta.
    rewrite (Subscribe_run _ _ _ _ ltac:(by rewrite Hconn) ltac:(by rewrite Hguard) Hvalid).
    cbn zeta. cbn [routed]. cbn [withClient cl mids set_msgRouter logged].
    rewrite decide_False by done.
    rewrite subscribeSend_run. cbn zeta.
    unfold taken, claimed in *.
    cbn [withClient cl status set_mids set_msgRouter gateway logged mids].
    rewrite Hst, Htaken. rewrite !(decide_False (P := connected = _)) by done.
    unfold putEvents. cbn. by rewrite <- !app_assoc.
Qed.

(** X26.  While the connection is not open, [Subscribe],
    [SubscribeMultiple] and [Unsubscribe] are turned down, before anything is
    validated, routed, claimed or stored, when ResumeSubs is off, and also
    when the client is reconnecting with clean-session on; when both hold the
    error is the one about ResumeSubs. *)
Theorem subscriptions_refused_when_not_open (w : World) (topic : string) (qos : N)
  (callback : option MessageHandler) (filters : gmap string N) (topics : list string) :
  (IsConnected w).1 = true →
  status (cl w) ≠ connected →
  ResumeSubs (options (cl w)) = false
  ∨ (CleanSession (options (cl w)) = true ∧ status (cl w) = reconnecting) →
  let e : error := if ResumeSubs (options (cl w))
           then "reconnecting state and cleansession is true"
           else "not currently connected and ResumeSubs not set" in
  Subscribe topic qos callback w = (setError e newToken, w)
  ∧ SubscribeMultiple filters callback w = (setError e newToken, w)
  ∧ Unsubscribe topics w = (setError e newToken, w).
Proof.
  intros Hconn Hst Hwhy. cbn zeta.
  assert (notOpenGuard w
          = (Some (if ResumeSubs (options (cl w))
                   then "reconnecting state and cleansession is true"
                   else "not currently connected and ResumeSubs not set"), w))
    as Hguard.
  { unfold notOpenGuard, IsConnectionOpen. msimpl.
    rewrite decide_False by done. msimpl.
    destruct (ResumeSubs (options (cl w))); cbn [negb]; [|done].
    destruct Hwhy as [?|(-> & ->)]; [done|]. by rewrite bool_decide_eq_true_2. }
  unfold Subscribe, SubscribeMultiple, Unsubscribe.
  rewrite !bind_run, IsConnected_world, Hconn. cbn [negb].
  rewrite !bind_run, Hguard. done.
Qed.

(** ** The route of a subscription *)

Lemma Split_noSlash (s : string) :
  noSlash s = true → strings.Split s slash = [s].
Proof.
  induction s as [|ch s IH]; cbn [noSlash strings.Split]; [done|].
  case_decide; [done|]. intros Hs. by rewrite (IH Hs).
Qed.

Lemma append_nil (s : string) : "" +:+ s = s.
Proof. reflexivity. Qed.

Lemma append_cons (ch : Ascii.ascii) (s1 s2 : string) :
  String ch s1 +:+ s2 = String ch (s1 +:+ s2).
Proof. reflexivity. Qed.

Lemma Split_app (g rest : string) :
  noSlash g = true →
  strings.Split (g +:+ String slash rest) slash = g :: strings.Split rest slash.
Proof.
  induction g as [|ch g IH]; rewrite ?append_nil, ?append_cons;
    cbn [noSlash strings.Split].
  - intros _. by rewrite decide_True.
  - case_decide; [done|]. intros Hg. by rewrite (IH Hg).
Qed.

Lemma Join_Split (s : string) :
  strings.Join (strings.Split s slash) "/" = s.
Proof.
  unfold strings.Join.
  induction s as [|ch s IH]; cbn [strings.Split]; [done|].
  case_decide as Hch.
  - subst ch. destruct (strings.Split s slash) as [|part parts] eqn:Hs.
    + exfalso. destruct s; cbn in Hs; [done|]. case_decide; [done|].
      by destruct (strings.Split s slash).
    + cbn [String.concat]. cbn [String.concat] in IH. by rewrite IH.
  - destruct (strings.Split s slash) as [|part parts] eqn:Hs.
    + exfalso. destruct s; cbn in Hs; [done|]. case_decide; [done|].
      by destruct (strings.Split s slash).
    + destruct parts as [|part2 parts]; cbn [String.concat] in *.
      * by rewrite IH.
      * rewrite append_cons. by rewrite IH.
Qed.

Lemma substring_all (s : string) : String.substring 0 (String.length s) s = s.
Proof. induction s as [|ch s IH]; cbn; [done|]. by rewrite IH. Qed.

Lemma prefix_nil (s : string) : String.prefix "" s = true.
Proof. by destruct s. Qed.

Lemma TrimPrefix_queue (rest : string) :
  strings.TrimPrefix ("$queue/" +:+ rest) "$queue/" = rest.
Proof.
  unfold strings.TrimPrefix, strings.HasPrefix. rewrite !append_cons, append_nil. cbn.
  rewrite prefix_nil, Nat.sub_0_r. apply substring_all.
Qed.

(** X27.  The topic [Subscribe] routes.  For a shared subscription
    "$share/<group>/<rest>" the route is <rest>, with a "$queue/" prefix of
    <rest> cut off as well; for "$share/<group>" with nothing after the group
    the route is the empty topic; for "$queue/<rest>" it is <rest>. *)
Theorem routeTopic_prefixes (group rest : string) :
  noSlash group = true →
  routeTopic ("$share/" +:+ group +:+ "/" +:+ rest) = strings.TrimPrefix rest "$queue/"
  ∧ routeTopic ("$share/" +:+ group) = ""
  ∧ routeTopic ("$queue/" +:+ rest) = rest.
Proof.
  intros Hgroup. split; [|split].
  - unfold routeTopic.
    assert (strings.HasPrefix ("$share/" +:+ group +:+ "/" +:+ rest) "$share/" = true)
      as -> by (unfold strings.HasPrefix; rewrite !append_cons, append_nil; cbn;
                apply prefix_nil).
    change ("$share/" +:+ group +:+ "/" +:+ rest)
      with ("$share" +:+ String slash (group +:+ String slash rest)).
    rewrite Split_app by done. rewrite Split_app by done.
    replace (drop 2 ("$share" :: group :: strings.Split rest slash))
      with (strings.Split rest slash) by reflexivity.
    rewrite Join_Split.
    unfold strings.TrimPrefix. by destruct (strings.HasPrefix rest "$queue/").
  - unfold routeTopic.
    assert (strings.HasPrefix ("$share/" +:+ group) "$share/" = true)
      as -> by (unfold strings.HasPrefix; rewrite !append_cons, append_nil; cbn;
                apply prefix_nil).
    change ("$share/" +:+ group) with ("$share" +:+ String slash group).
    rewrite Split_app by done. rewrite Split_noSlash by done.
    reflexivity.
  - unfold routeTopic.
    assert (strings.HasPrefix ("$queue/" +:+ rest) "$share/" = false)
      as -> by (unfold strings.HasPrefix; rewrite !append_cons, append_nil; by cbn).
    assert (strings.HasPrefix ("$queue/" +:+ rest) "$queue/" = true)
      as -> by (unfold strings.HasPrefix; rewrite !append_cons, append_nil; cbn;
                apply prefix_nil).
    apply TrimPrefix_queue.
Qed.

(** ** The ids [reserveStoredPublishIDs] claims *)

Lemma claimID_only (t : tokenCompletor) (id j : N) (m : messageIds) :
  is_Some (index (claimID t id m).2 !! j) → j = id ∨ is_Some (index m !! j).
Proof.
  unfold claimID. destruct (index m !! id) as [t0|] eqn:Hid; cbn; [by right|].
  destruct (decide (j = id)) as [->|Hne]; [by left|].
  rewrite lookup_insert_ne by done. by right.
Qed.

Lemma reserve_fold_only (st : Store) (keys : list StoreKey) (m : messageIds) (j : N) :
  is_Some (index (foldl (reserveStep st) m keys) !! j) →
  is_Some (index m !! j)
  ∨ ∃ key p, store.Get key st = Some (PublishP p) ∧ MessageID p = j.
Proof.
  revert m. induction keys as [|k keys IH]; intros m; cbn [foldl]; [by left|].
  intros Hj. destruct (IH _ Hj) as [Hstep|?]; [|by right].
  unfold reserveStep in Hstep.
  destruct (store.Get k st) as [[p| | | | |]|] eqn:Hget; try by left.
  apply claimID_only in Hstep as [->|?]; [|by left].
  right. by exists k, p.
Qed.

(** X28.  [reserveStoredPublishIDs] changes the registry only, and only
    without clean-session: afterwards an id is live exactly when it was live
    before or is the id of a PUBLISH packet in the store; the store, the
    status and the log are as before.  With clean-session the call does
    nothing. *)
Theorem reserveStoredPublishIDs_live (w : World) :
  if CleanSession (options (cl w)) then reserveStoredPublishIDs w = (tt, w)
  else
    (∀ j, is_Some (index (mids (cl (reserveStoredPublishIDs w).2)) !! j)
          ↔ is_Some (index (mids (cl w)) !! j)
            ∨ ∃ key p, store.Get key (persist (cl w)) = Some (PublishP p)
                       ∧ MessageID p = j)
    ∧ persist (cl (reserveStoredPublishIDs w).2) = persist (cl w)
    ∧ status (cl (reserveStoredPublishIDs w).2) = status (cl w)
    ∧ log (reserveStoredPublishIDs w).2 = log w.
Proof.
  rewrite reserveStoredPublishIDs_spec.
  destruct (CleanSession (options (cl w))); cbn [negb].
  - by rewrite set_mids_id, withClient_id.
  - cbn. split; [|done]. intros j. split.
    + apply reserve_fold_only.
    + intros [Hj|(key & p & Hget & <-)].
      * by apply reserve_fold_mono.
      * apply (reserve_fold_covers _ _ _ key); [|done]. by eapply Get_in_All.
Qed.

(** ** [resume] *)

Lemma resume_turn (subscription : bool) (key : StoreKey) (w : World) :
  let turn : M unit :=
    c ← getClient;
    match store.Get key (persist c) with
    | None => mret tt
    | Some packet =>
        let mid := dMessageID (details packet) in
        if isKeyOutbound key then
          match packet with
          | SubscribeP _ =>
              if subscription then
                clientClaimID SubscribeToken mid;;
                emit (EvSend OboundP packet)
              else mret tt
          | UnsubscribeP _ =>
              if subscription then emit (EvSend OboundP packet) else mret tt
          | PubrelP _ => emit (EvSend OboundP packet)
          | PublishP _ =>
              clientClaimID PublishToken mid;;
              emit (EvSend Obound packet)
          | _ => persistDel key
          end
        else
          match packet with
          | PubrelP _ => emit (EvSend Ibound packet)
          | _ => persistDel key
          end
    end in
  persist (cl (turn w).2)
  = match store.Get key (persist (cl w)) with
    | Some p => if resumeDiscards key p then store.Del key (persist (cl w))
                else persist (cl w)
    | None => persist (cl w)
    end
  ∧ log (turn w).2
    = log w ++ from_option (resumeSends subscription key) []
                 (store.Get key (persist (cl w))).
Proof.
  cbn zeta. rewrite bind_getClient. unfold resumeDiscards, resumeSends.
  destruct (store.Get key (persist (cl w))) as [p|]; cbn [from_option].
  2: { cbn. by rewrite app_nil_r. }
  destruct (isKeyOutbound key), p, subscription; cbn; by rewrite ?app_nil_r.
Qed.

Lemma resume_loop (subscription : bool) (keys : list StoreKey) (w : World) :
  NoDup keys →
  let turn : StoreKey → M unit := λ key,
    c ← getClient;
    match store.Get key (persist c) with
    | None => mret tt
    | Some packet =>
        let mid := dMessageID (details packet) in
        if isKeyOutbound key then
          match packet with
          | SubscribeP _ =>
              if subscription then
                clientClaimID SubscribeToken mid;;
                emit (EvSend OboundP packet)
              else mret tt
          | UnsubscribeP _ =>
              if subscription then emit (EvSend OboundP packet) else mret tt
          | PubrelP _ => emit (EvSend OboundP packet)
          | PublishP _ =>
              clientClaimID PublishToken mid;;
              emit (EvSend Obound packet)
          | _ => persistDel key
          end
        else
          match packet with
          | PubrelP _ => emit (EvSend Ibound packet)
          | _ => persistDel key
          end
    end in
  opened (persist (cl (forM_ keys turn w).2)) = opened (persist (cl w))
  ∧ (∀ key,
       content (persist (cl (forM_ keys turn w).2)) !! key
       = match content (persist (cl w)) !! key with
         | Some p => if bool_decide (key ∈ keys) && resumeDiscards key p then None
                     else Some p
         | None => None
         end)
  ∧ log (forM_ keys turn w).2
    = log w ++ flat_map (λ key, from_option (resumeSends subscription key) []
                                  (content (persist (cl w)) !! key)) keys.
Proof.
  intros Hnd. cbn zeta. revert w.
  induction Hnd as [|k keys Hk Hnd IH]; intros w.
  - cbn. split; [done|]. split; [|by rewrite app_nil_r].
    intros key. by destruct (content (persist (cl w)) !! key).
  - cbn [forM_]. rewrite bind_run.
    destruct (resume_turn subscription k w) as (Hper & Hlog). cbn zeta in Hper, Hlog.
    match goal with |- context [forM_ keys ?f (?m w).2] =>
      set (w1 := (m w).2) in *; specialize (IH w1)
    end.
    destruct IH as (Hop & Hcont & Hlog1).
    assert (opened (persist (cl w1)) = opened (persist (cl w))
            ∧ ∀ key, key ≠ k →
                content (persist (cl w1)) !! key = content (persist (cl w)) !! key)
      as (Hop1 & Hother).
    { rewrite Hper. destruct (store.Get k (persist (cl w))) as [p|]; [|done].
      destruct (resumeDiscards k p); [|done]. cbn. split; [done|].
      intros key Hne. by rewrite lookup_delete_ne. }
    split; [congruence|]. split.
    + intros key. rewrite Hcont.
      destruct (decide (key = k)) as [->|Hne].
      * rewrite (bool_decide_eq_false_2 (k ∈ keys)) by done.
        rewrite (bool_decide_eq_true_2 (k ∈ k :: keys)) by left. cbn [andb].
        rewrite Hper. unfold store.Get.
        destruct (content (persist (cl w)) !! k) as [p|] eqn:Hget; [|by rewrite Hget].
        destruct (resumeDiscards k p); cbn; [by rewrite lookup_delete_eq|].
        by rewrite Hget.
      * rewrite (Hother _ Hne).
        destruct (content (persist (cl w)) !! key) as [p|]; [|done].
        assert (bool_decide (key ∈ k :: keys) = bool_decide (key ∈ keys)) as ->; [|done].
        apply bool_decide_ext. rewrite elem_of_cons.
        split; [by intros [?|?] | by right].
    + rewrite Hlog1, Hlog. cbn [flat_map]. rewrite <- app_assoc. f_equal. f_equal.
      clear -Hk Hother. induction keys as [|k2 keys IH2]; [done|].
      cbn [flat_map]. rewrite Hother.
      * f_equal. apply IH2. intros Hin. apply Hk. by right.
      * intros ->. apply Hk. by left.
Qed.

Lemma flat_map_keys {A B} `{Countable K} (m : gmap K A) (f : K → A → list B)
  (l : list (K * A)) :
  (∀ kp, kp ∈ l → m !! kp.1 = Some kp.2) →
  flat_map (λ key, from_option (f key) [] (m !! key)) l.*1
  = flat_map (λ kp, f kp.1 kp.2) l.
Proof.
  induction l as [|[k a] l IH]; intros Hl; [done|].
  cbn [fmap list_fmap flat_map fst snd].
  pose proof (Hl (k, a) ltac:(left)) as Hka. cbn [fst snd] in Hka.
  rewrite Hka. cbn [from_option fst snd]. f_equal.
  apply IH. intros kp Hin. apply Hl. by right.
Qed.

Lemma resume_run (subscription : bool) (w : World) :
  persist (cl (resume subscription w).2) = resumed (persist (cl w))
  ∧ log (resume subscription w).2
    = log w ++ flat_map (λ kp, resumeSends subscription kp.1 kp.2)
                 (map_to_list (content (persist (cl w)))).
Proof.
  split.
  - unfold resume. rewrite bind_getClient.
    destruct (resume_loop subscription (store.All (persist (cl w))) w)
      as (Hop & Hcont & _).
    { apply NoDup_fst_map_to_list. }
    cbn zeta in Hop, Hcont.
    match goal with |- persist (cl ?r) = _ => set (w' := r) in * end.
    destruct (persist (cl w')) as [op ct] eqn:Hper. cbn in Hop, Hcont.
    unfold resumed. f_equal; [done|].
    apply map_eq. intros key. rewrite Hcont.
    case_match eqn:Hget; [rename select ControlPacket into p|].
    + assert (key ∈ store.All (persist (cl w))) as Hin by by eapply Get_in_All.
      rewrite (bool_decide_eq_true_2 _ Hin). cbn [andb].
      destruct (resumeDiscards key p) eqn:Hd; symmetry.
      * apply map_lookup_filter_None. right. intros p' Hp'. cbn.
        unfold StoreKey in *.
        assert (p' = p) as -> by (rewrite Hget in Hp'; by injection Hp'). by rewrite Hd.
      * apply map_lookup_filter_Some. by split.
    + symmetry. apply map_lookup_filter_None. by left.
  - unfold resume. rewrite bind_getClient.
    destruct (resume_loop subscription (store.All (persist (cl w))) w)
      as (_ & _ & Hlog).
    { apply NoDup_fst_map_to_list. }
    cbn zeta in Hlog. rewrite Hlog. f_equal.
    unfold store.All. apply flat_map_keys.
    intros [k a] Hin. by apply elem_of_map_to_list in Hin.
Qed.

(** X29.  The whole of [resume]: every stored packet is visited once;
    the store it leaves holds exactly the packets of a kind that [resume]
    knows for their direction (outbound SUBSCRIBE, UNSUBSCRIBE, PUBREL and
    PUBLISH, inbound PUBREL), all others having been deleted; what is sent is
    determined by the store at the start alone, one send at most for each
    stored packet; and the link (status, connection, options, routes) is not
    touched. *)
Theorem resume_effect (subscription : bool) (w : World) :
  persist (cl (resume subscription w).2) = resumed (persist (cl w))
  ∧ log (resume subscription w).2
    = log w ++ flat_map (λ kp, resumeSends subscription kp.1 kp.2)
                 (map_to_list (content (persist (cl w))))
  ∧ sameLink w (resume subscription w).2.
Proof.
  destruct (resume_run subscription w) as (Hper & Hlog).
  split; [done|]. split; [done|]. apply sameLink_resume.
Qed.



End ClientProperties.

(** * The theorems at concrete inputs *)

#[local] Existing Instance exampleExternals.

Example routeTopic_share : routeTopic "$share/group1/a/b" = "a/b".
Proof. reflexivity. Qed.

Example routeTopic_queue : routeTopic "$queue/a/b" = "a/b".
Proof. reflexivity. Qed.

Example routeTopic_plain : routeTopic "sensors/+/temp" = "sensors/+/temp".
Proof. reflexivity. Qed.

Example wConnected_status : status (cl wConnected) = connected.
Proof. reflexivity. Qed.

Example NewClient_default_version :
  ProtocolVersion (options (NewClient exampleOptions None)) = 4%N
  ∧ protocolVersionExplicit (options (NewClient exampleOptions None)) = false.
Proof. split; reflexivity. Qed.

(** ** C1 *)

(** C1, counterexample.  With clean-session on (and connect-retry on),
    [Connect] passes the guard and reserves nothing: the store holds an
    outbound PUBLISH with id 1, id 1 is free in the registry, and a [Publish]
    made while connecting is given id 1.  With connect-retry off nothing is
    reserved either (and [Publish] is turned down while connecting). *)
Lemma Connect_without_reservation :
  ((Connect wCleanSession).1.2 = true
   ∧ status (cl (Connect wCleanSession).2) = connecting
   ∧ store.Get (outboundKeyFromMID 1) (persist (cl (Connect wCleanSession).2))
     = Some (PublishP storedPublish)
   ∧ index (mids (cl (Connect wCleanSession).2)) !! 1%N = None
   ∧ err (Publish "c/d" 1 false (PayloadString "hi") (Connect wCleanSession).2).1
     = None
   ∧ messageID (Publish "c/d" 1 false (PayloadString "hi")
                  (Connect wCleanSession).2).1
     = MessageID storedPublish)
  ∧ ((Connect wNoRetry).1.2 = true
     ∧ store.Get (outboundKeyFromMID 1) (persist (cl (Connect wNoRetry).2))
       = Some (PublishP storedPublish)
     ∧ index (mids (cl (Connect wNoRetry).2)) !! 1%N = None
     ∧ err (Publish "c/d" 1 false (PayloadString "hi") (Connect wNoRetry).2).1
       = Some ErrNotConnected).
Proof. vm_compute. repeat split. Qed.

Lemma Connect_reserves_stored_publish_ids_witness :
  (Connect wReserve).1.2 = true
  ∧ status (cl (Connect wReserve).2) = connecting
  ∧ storedPublishIDsReserved (cl (Connect wReserve).2)
  ∧ messageID (Publish "c/d" 1 false (PayloadString "hi") (Connect wReserve).2).1
    ≠ MessageID storedPublish.
Proof.
  destruct (Connect_reserves_stored_publish_ids wReserve)
    as (Hstarted & Hstatus & _ & Hinv & Hpublish); [reflexivity..|].
  split; [exact Hstarted|]. split; [exact Hstatus|]. split; [exact Hinv|].
  apply (proj2 (Hpublish "c/d" 1%N false (PayloadString "hi"))
           (outboundKeyFromMID 1) storedPublish).
  - vm_compute. reflexivity.
  - vm_compute. discriminate.
Defined.

Example Publish_after_reservation :
  messageID (Publish "c/d" 1 false (PayloadString "hi") (Connect wReserve).2).1 = 2%N.
Proof. vm_compute. reflexivity. Qed.

(** ** C2 *)



(** ** C3 *)


(** ** C5 *)

Lemma enqueue_timeout_keeps_packet_witness :
  err (Publish "a/b" 1 false (PayloadString "hi") wConnected).1
  = Some "publish was broken by timeout"
  ∧ store.Get (outboundKeyFromMID 1)
      (persist (cl (Publish "a/b" 1 false (PayloadString "hi") wConnected).2))
    = Some (PublishP {| Qos := 1; Retain := false; TopicName := "a/b";
                        MessageID := 1;
                        Payload := String.list_byte_of_string "hi" |})
  ∧ enqueueTimeout (cl wConnected) = 30000000000%Z.
Proof.
  destruct (enqueue_timeout_keeps_packet wConnected) as (Hwait & Hpublish & _);
    [reflexivity..|].
  destruct (Hpublish "a/b" 1%N false (PayloadString "hi")
              (String.list_byte_of_string "hi"))
    as (Herr & _ & _ & _ & Hget).
  - discriminate.
  - reflexivity.
  - vm_compute. discriminate.
  - split; [exact Herr|]. split; [exact Hget | exact Hwait].
Defined.

(** ** C6 *)

Example Unsubscribe_timeout_keeps_route :
  msgRouter (cl ((AddRoute "a/b" (Some 7);; Unsubscribe ["a/b"]) wConnected).2)
  !! "a/b" = Some 7.
Proof. vm_compute. reflexivity. Qed.

Example Unsubscribe_sent_deletes_route :
  msgRouter (cl ((AddRoute "a/b" (Some 7);; Unsubscribe ["a/b"])
                   (withGateway [true] wConnected)).2)
  !! "a/b" = None.
Proof. vm_compute. reflexivity. Qed.

(** ** C7 *)

(** C7, counterexample.  With a maximum reconnect interval of half a
    second, the first sleep is one second: more than the maximum, and not
    the smaller of 2^0 seconds and the maximum. *)
Lemma reconnect_first_sleep_exceeds_maximum :
  sleeps (log (reconnect 1 (wReconnecting (500 * time.Millisecond)%Z)).2)
  = [1000000000%Z]
  ∧ MaxReconnectInterval (options (cl (wReconnecting (500 * time.Millisecond)%Z)))
    = 500000000%Z
  ∧ Z.min (2 ^ 0 * time.Second)
      (MaxReconnectInterval (options (cl (wReconnecting (500 * time.Millisecond)%Z))))
    = 500000000%Z.
Proof. vm_compute. repeat split. Qed.

Lemma reconnect_backoff_witness :
  sleeps (log (reconnectLoop 4 (1 * time.Second)%Z
                 (wReconnecting (5 * time.Second)%Z)).2)
  = [1000000000; 2000000000; 4000000000; 5000000000]%Z.
Proof.
  rewrite (reconnect_backoff 4 (wReconnecting (5 * time.Second)%Z)).
  - reflexivity.
  - vm_compute. reflexivity.
  - right. lia.
Defined.

(** ** C8 *)


Example Publish_buffer_unread_part :
  payloadBytes (PayloadBuffer (String.list_byte_of_string "xyhi") 2)
  = Some (String.list_byte_of_string "hi").
Proof. reflexivity. Qed.

(** ** C9 *)

Lemma SubscribeMultiple_routes_as_supplied_witness :
  msgRouter (cl (SubscribeMultiple sharedFilters (Some 7) wConnected).2)
  !! "$share/group1/a/b" = Some 7
  ∧ msgRouter (cl (SubscribeMultiple sharedFilters (Some 7) wConnected).2)
    !! "a/b" = None
  ∧ msgRouter (cl (Subscribe "$share/group1/a/b" 1 (Some 7) wConnected).2)
    !! "a/b" = Some 7.
Proof.
  destruct (SubscribeMultiple_routes_as_supplied sharedFilters 7
              (map_to_list sharedFilters).*1 (map_to_list sharedFilters).*2
              wConnected) as (Hmulti & Hsingle); [reflexivity..|].
  split; [rewrite Hmulti; vm_compute; reflexivity|].
  split; [rewrite Hmulti; vm_compute; reflexivity|].
  pose proof (Hsingle "$share/group1/a/b" 1%N eq_refl) as Hroute.
  unfold MessageHandler in Hroute. rewrite Hroute.
  vm_compute. reflexivity.
Defined.

(** ** C10 *)

Lemma Connect_no_servers_witness :
  ∃ t,
    ConnectAndWait 3 wNoServers = (Some t, afterConnect wNoServers)
    ∧ complete t = true
    ∧ err t = Some "no servers defined to connect to"
    ∧ status (cl (afterConnect wNoServers)) = connecting
    ∧ opened (persist (cl (afterConnect wNoServers))) = true
    ∧ log (afterConnect wNoServers) = log wNoServers ++ [EvStoreOpen].
Proof. apply Connect_no_servers; reflexivity. Defined.

(** A server list that is not empty: the failed attempt puts the client
    back to [disconnected] and closes the store. *)
Example Connect_failure_closes :
  status (cl (ConnectAndWait 1 wNoRetry).2) = disconnected
  ∧ opened (persist (cl (ConnectAndWait 1 wNoRetry).2)) = false.
Proof. vm_compute. split; reflexivity. Qed.

(** ** The further properties at concrete inputs *)

Lemma Connect_while_up_witness :
  ∃ t, Connect wConnected = ((t, false), wConnected)
       ∧ complete t = true ∧ err t = None ∧ returnCode t = Accepted.
Proof. apply Connect_while_up; [reflexivity | vm_compute; discriminate]. Defined.

Lemma Connect_without_retry_restarts_witness :
  (Connect wConnectingOnce).1.2 = true
  ∧ status (cl (Connect wConnectingOnce).2) = connecting.
Proof.
  destruct (Connect_without_retry_restarts wConnectingOnce) as (Hstarted & Hst & _);
    [reflexivity|].
  split; [exact Hstarted | exact Hst].
Defined.

Lemma internalConnLost_outcome_witness :
  conn (cl (internalConnLost wConnected).2) = None
  ∧ (internalConnLost wConnected).1 = true
  ∧ status (cl (internalConnLost wConnected).2) = reconnecting.
Proof.
  destruct (internalConnLost_outcome wConnected acceptedConn)
    as (Hconn & _ & _ & Hstarted & Hst & _);
    [vm_compute; discriminate | reflexivity |].
  split; [exact Hconn|]. split; [exact Hstarted | exact Hst].
Defined.

Lemma attemptConnection_no_servers_witness :
  (attemptConnection wNoServers).1 = (None, Accepted, false, None)
  ∧ log (attemptConnection wNoServers).2 = [].
Proof.
  rewrite (attemptConnection_no_servers wNoServers) by reflexivity.
  split; reflexivity.
Defined.

Lemma attemptConnection_explicit_no_fallback_witness :
  ∃ tr, log (attemptConnection wConnected).2 = log wConnected ++ tr
        ∧ dialled tr `prefix_of` Servers (options (cl wConnected))
        ∧ Forall (λ l, l = ProtocolVersion (options (cl wConnected))) (levels tr).
Proof. apply attemptConnection_explicit_no_fallback. reflexivity. Defined.


Lemma attemptConnection_network_down_witness :
  log (attemptConnection wConnecting).2
  = log wConnecting ++ [EvDial brokerA; EvDial brokerB]
  ∧ attemptRC (attemptConnection wConnecting).1 = ErrNetworkError.
Proof.
  destruct (attemptConnection_network_down wConnecting) as (Hlog & Hrc & _).
  - apply Forall_nil_2.
  - discriminate.
  - split; [exact Hlog | exact Hrc].
Defined.

Lemma connect_worker_fails_without_retry_witness :
  ∃ t',
    (RETRYCONN newToken wConnectingOnce).1 = Done t'
    ∧ complete t' = true
    ∧ err t' = Some unreachable
    ∧ returnCode t' = attemptRC (attemptConnection wConnectingOnce).1
    ∧ InitialRC (cl (RETRYCONN newToken wConnectingOnce).2)
      = attemptRC (attemptConnection wConnectingOnce).1
    ∧ status (cl (RETRYCONN newToken wConnectingOnce).2) = disconnected
    ∧ opened (persist (cl (RETRYCONN newToken wConnectingOnce).2)) = false
    ∧ content (persist (cl (RETRYCONN newToken wConnectingOnce).2))
      = content (persist (cl wConnectingOnce))
    ∧ sleeps (log (RETRYCONN newToken wConnectingOnce).2)
      = sleeps (log wConnectingOnce).
Proof.
  apply connect_worker_fails_without_retry; [reflexivity | vm_compute; reflexivity].
Defined.

Lemma connect_worker_retries_witness :
  ∃ t',
    (RETRYCONN newToken wConnecting).1 = Again t'
    ∧ complete t' = complete newToken
    ∧ err t' = err newToken
    ∧ cl (RETRYCONN newToken wConnecting).2
      = set_InitialRC (attemptRC (attemptConnection wConnecting).1) (cl wConnecting)
    ∧ sleeps (log (RETRYCONN newToken wConnecting).2)
      = sleeps (log wConnecting) ++ [ConnectRetryInterval (options (cl wConnecting))].
Proof.
  apply (connect_worker_retries newToken unreachable);
    [reflexivity | vm_compute; reflexivity | reflexivity | reflexivity].
Defined.

Lemma connect_worker_interrupted_witness :
  ∃ t',
    (RETRYCONN newToken wConnectingInterrupted).1 = Done t'
    ∧ complete t' = true
    ∧ err t' = Some unreachable
    ∧ status (cl (RETRYCONN newToken wConnectingInterrupted).2) = disconnected
    ∧ conn (cl (RETRYCONN newToken wConnectingInterrupted).2) = None
    ∧ index (mids (cl (RETRYCONN newToken wConnectingInterrupted).2)) = ∅
    ∧ opened (persist (cl (RETRYCONN newToken wConnectingInterrupted).2)) = false
    ∧ sleeps (log (RETRYCONN newToken wConnectingInterrupted).2)
      = sleeps (log wConnectingInterrupted)
        ++ [ConnectRetryInterval (options (cl wConnectingInterrupted))].
Proof.
  apply connect_worker_interrupted;
    [reflexivity | vm_compute; reflexivity | reflexivity].
Defined.



Lemma connect_worker_constant_interval_witness :
  sleeps (log (connectRetries 2 newToken wConnecting).2)
  = sleeps (log wConnecting)
    ++ replicate 2 (ConnectRetryInterval (options (cl wConnecting))).
Proof. apply connect_worker_constant_interval. vm_compute. reflexivity. Defined.




Lemma calls_sent_when_connected_witness :
  log (Subscribe "$share/group1/a/b" 1 (Some 7) (withGateway [true] wConnected)).2
  = log wConnected
    ++ [EvAddRoute "a/b";
        EvPut (outboundKeyFromMID 1)
          (SubscribeP {| sTopics := ["$share/group1/a/b"]; sQoss := [1%N];
                         sMessageID := 1 |});
        EvTimer 30000000000%Z;
        EvSend OboundP
          (SubscribeP {| sTopics := ["$share/group1/a/b"]; sQoss := [1%N];
                         sMessageID := 1 |})].
Proof.
  destruct (calls_sent_when_connected (withGateway [true] wConnected))
    as (_ & Hsubscribe); [reflexivity | reflexivity |].
  destruct (Hsubscribe "$share/group1/a/b" 1%N 7) as (_ & Hlog);
    [reflexivity | vm_compute; discriminate |].
  exact Hlog.
Defined.

Lemma subscriptions_refused_when_not_open_witness :
  Subscribe "a/b" 1 None (wLost true [] [])
  = (setError "reconnecting state and cleansession is true" newToken,
     wLost true [] [])
  ∧ Unsubscribe ["a/b"] (wLost true [] [])
    = (setError "reconnecting state and cleansession is true" newToken,
       wLost true [] []).
Proof.
  destruct (subscriptions_refused_when_not_open (wLost true [] []) "a/b" 1%N None
              ∅ ["a/b"])
    as (Hsub & _ & Hunsub);
    [reflexivity | vm_compute; discriminate | right; split; reflexivity |].
  split; [exact Hsub | exact Hunsub].
Defined.

Lemma routeTopic_prefixes_witness :
  routeTopic ("$share/" +:+ "group1" +:+ "/" +:+ "$queue/a/b") = "a/b"
  ∧ routeTopic ("$share/" +:+ "group1") = "".
Proof.
  destruct (routeTopic_prefixes "group1" "$queue/a/b") as (Hshare & Hbare & _);
    [reflexivity|].
  split; [exact Hshare | exact Hbare].
Defined.

